(** * SpotDB: the database facade and the CSV ingestion pipeline

    A shallow embedding of the parts of [pkg/database/duckdb.go],
    [pkg/helpers/helpers.go] and the upload handler of [pkg/api] that the
    specification talks about, followed by the properties proved of them.

    Conventions of the embedding.
    - In the database package a Go [string] is consumed only through the
      runes that [range], [strings.Map], [strings.TrimSpace] and the
      [regexp] engine decode from it.  There a string is the list of its
      runes ([gostring]); an invalid byte shows up as U+FFFD, as in Go.
    - In the helpers and api packages data are byte slices.  A byte slice
      and a Go string over it are both a Rocq [string] (a list of 8-bit
      characters); the regexp engine decodes UTF-8 from it.
    - Integers of the code are [Z]; where the code computes in a machine
      [int] or [int64] the wrap-around is written out.
    - Logging has no effect on results and is left out. *)

From Stdlib Require Import ZArith List String Ascii Bool Lia DecimalString.
From stdpp Require Import base option list gmap strings.
Import ListNotations.

Local Open Scope Z_scope.

(** ** Go runes and strings *)

Module Go.

Abbreviation rune := Z.
Abbreviation gostring := (list Z).

(** The code point of an 8-bit character. *)
Definition code (a : ascii) : Z := Z.of_N (N_of_ascii a).

(** A string literal of the source, as the runes [range] yields over it
    (the literals of the source are ASCII). *)
Definition lit (s : string) : gostring := map code (list_ascii_of_string s).

(** [utf8.RuneError], U+FFFD. *)
Definition RuneError : rune := 65533.
Definition MaxRune : rune := 1114111.

(** [utf8.ValidRune]: in range and not a surrogate half. *)
Definition ValidRune (r : rune) : bool :=
  ((0 <=? r) && (r <? 55296)) || ((57343 <? r) && (r <=? MaxRune)).

(** [strings.Map]: every rune of [s] is replaced by [mapping r]; a negative
    result drops the rune, and a result that is no valid rune is written as
    U+FFFD (what [strings.Builder.WriteRune] does with it). *)
Definition strings_Map (mapping : rune -> rune) (s : gostring) : gostring :=
  flat_map (fun r =>
              let m := mapping r in
              if m <? 0 then [] else [if ValidRune m then m else RuneError]) s.

(** [unicode.IsSpace]: the Latin-1 spaces and the White_Space property. *)
Definition White_Space : list (Z * Z) :=
  [(9, 13); (32, 32); (133, 133); (160, 160); (5760, 5760); (8192, 8202);
   (8232, 8233); (8239, 8239); (8287, 8287); (12288, 12288)].

Definition in_ranges (rs : list (Z * Z)) (r : rune) : bool :=
  existsb (fun lh => (fst lh <=? r) && (r <=? snd lh)) rs.

Definition IsSpace (r : rune) : bool := in_ranges White_Space r.

Fixpoint TrimLeftSpace (s : gostring) : gostring :=
  match s with
  | r :: s' => if IsSpace r then TrimLeftSpace s' else s
  | [] => []
  end.

(** [strings.TrimSpace]: leading and trailing white space removed. *)
Definition TrimSpace (s : gostring) : gostring :=
  rev (TrimLeftSpace (rev (TrimLeftSpace s))).

(** Arithmetic in [int64] (and in [int], 64 bits wide here) wraps. *)
Definition wrap64 (n : Z) : Z := (n + 2 ^ 63) mod 2 ^ 64 - 2 ^ 63.

(** [strconv.Itoa] and the [%d] verb of [fmt]. *)
Definition Itoa (n : Z) : string := NilZero.string_of_int (Z.to_int n).

(** The double quote, which a string literal here cannot hold. *)
Definition dquote : string := String (ascii_of_nat 34) EmptyString.

(** [strings.Contains] and [strings.HasPrefix] on byte strings. *)
Fixpoint HasPrefix (s prefix : string) : bool :=
  match prefix, s with
  | EmptyString, _ => true
  | String p prefix', String c s' => Ascii.eqb c p && HasPrefix s' prefix'
  | String _ _, EmptyString => false
  end.

Fixpoint Contains (s substr : string) : bool :=
  HasPrefix s substr ||
  match s with
  | EmptyString => false
  | String _ s' => Contains s' substr
  end.

(** *** Errors

    An [error] value is one of the package-level sentinels (compared by
    identity in the source), a plain message ([errors.New], or [fmt.Errorf]
    without [%w]), or a message wrapping another error ([fmt.Errorf] with
    [%w]). *)
Inductive sentinel :=
| EOF | ErrShortWrite | ErrNotExist | ErrMaxFileSizeExceeded | ErrInvalidBuffer.

Inductive error :=
| Sentinel (s : sentinel)
| errorString (msg : string)
| wrapError (msg : string) (err : error).

Definition sentinel_eqb (a b : sentinel) : bool :=
  match a, b with
  | EOF, EOF | ErrShortWrite, ErrShortWrite | ErrNotExist, ErrNotExist
  | ErrMaxFileSizeExceeded, ErrMaxFileSizeExceeded
  | ErrInvalidBuffer, ErrInvalidBuffer => true
  | _, _ => false
  end.

Definition sentinel_msg (s : sentinel) : string :=
  match s with
  | EOF => "EOF"
  | ErrShortWrite => "short write"
  | ErrNotExist => "file does not exist"
  | ErrMaxFileSizeExceeded => "max file size exceeded"
  | ErrInvalidBuffer => "buffer validation failed"
  end.

(** [err.Error()]. *)
Definition Error (e : error) : string :=
  match e with
  | Sentinel s => sentinel_msg s
  | errorString msg => msg
  | wrapError msg _ => msg
  end.

(** [err == target] for a sentinel [target]. *)
Definition is_sentinel (e : error) (target : sentinel) : bool :=
  match e with
  | Sentinel s => sentinel_eqb s target
  | _ => false
  end.

(** [errors.Is(err, target)] for a sentinel [target]: the chain of wrapped
    errors is searched. *)
Fixpoint errors_Is (e : error) (target : sentinel) : bool :=
  match e with
  | Sentinel s => sentinel_eqb s target
  | errorString _ => false
  | wrapError _ e' => errors_Is e' target
  end.

(** [fmt.Errorf(prefix + ": %w", err)] and [fmt.Errorf(prefix + ": %v", err)]. *)
Definition Errorf_w (prefix : string) (err : error) : error :=
  wrapError (prefix +:+ ": " +:+ Error err) err.
Definition Errorf_v (prefix : string) (err : error) : error :=
  errorString (prefix +:+ ": " +:+ Error err).

(** A call either returns or panics. *)
Inductive outcome (A : Type) :=
| Returned (a : A)
| Panicked.
Arguments Returned {A} a.
Arguments Panicked {A}.

End Go.

(** ** The regular expressions of Go's [regexp] package

    The patterns of the source use no group, no alternation and no counted
    or lazy repetition: each is a sequence of atoms (a character class or
    the assertion [\b]), each followed by at most one of [*], [+], [?].
    [Compile] parses exactly that fragment of the RE2 syntax and refuses the
    rest.  Matching is leftmost-first as in Go: alternatives are explored in
    the order of a backtracking matcher and the first one found wins. *)

Module Regexp.
Import Go.

Record CharClass := { cc_neg : bool; cc_ranges : list (Z * Z) }.

Definition class_mem (c : CharClass) (r : rune) : bool :=
  xorb (cc_neg c) (in_ranges (cc_ranges c) r).

Inductive atom :=
| ACls (c : CharClass)
| AWordBoundary.

Inductive quant := QOne | QStar | QPlus | QOpt.

Abbreviation regexp := (list (atom * quant)).

(** *** Parsing *)

Definition perl_d : list (Z * Z) := [(48, 57)].
Definition perl_s : list (Z * Z) := [(9, 10); (12, 13); (32, 32)].
Definition perl_w : list (Z * Z) := [(48, 57); (65, 90); (95, 95); (97, 122)].

Definition clip (lo hi a b : Z) (shift : Z) : list (Z * Z) :=
  if Z.max lo a <=? Z.min hi b
  then [(Z.max lo a + shift, Z.min hi b + shift)] else [].

Definition covers (lo hi x : Z) : bool := (lo <=? x) && (x <=? hi).

(** The simple case folding of [unicode.SimpleFold] on a range that a
    pattern written in ASCII can hold: the other case of each letter, and
    the two orbits that leave ASCII, [K k U+212A] and [S s U+017F]. *)
Definition foldRange (lh : Z * Z) : list (Z * Z) :=
  let (lo, hi) := lh in
  clip lo hi 65 90 32 ++ clip lo hi 97 122 (-32)
  ++ (if covers lo hi 75 || covers lo hi 107 then [(8490, 8490)] else [])
  ++ (if covers lo hi 83 || covers lo hi 115 then [(383, 383)] else [])
  ++ (if covers lo hi 8490 then [(75, 75); (107, 107)] else [])
  ++ (if covers lo hi 383 then [(83, 83); (115, 115)] else []).

Definition foldRanges (fold : bool) (rs : list (Z * Z)) : list (Z * Z) :=
  if fold then rs ++ flat_map foldRange rs else rs.

Definition isalnum (c : Z) : bool :=
  covers 48 57 c || covers 65 90 c || covers 97 122 c.

(** A backslash escape inside or outside a bracket class: a Perl class or
    an escaped punctuation character. *)
Definition escape_ranges (c : Z) : option (list (Z * Z)) :=
  if c =? 100 then Some perl_d
  else if c =? 115 then Some perl_s
  else if c =? 119 then Some perl_w
  else if (c <? 128) && negb (isalnum c) then Some [(c, c)]
  else None.

(** The elements of a bracket class up to the closing bracket: the ranges
    read and the rest of the pattern. *)
Fixpoint parse_class (fuel : nat) (p : list Z) (acc : list (Z * Z))
  : option (list (Z * Z) * list Z) :=
  match fuel with
  | O => None
  | S fuel' =>
    match p with
    | [] => None
    | 93 :: rest => Some (acc, rest)
    | 92 :: c :: rest =>
      match escape_ranges c with
      | Some rs => parse_class fuel' rest (acc ++ rs)
      | None => None
      end
    | lo :: 45 :: hi :: rest =>
      if (hi =? 93) then parse_class fuel' (45 :: hi :: rest) (acc ++ [(lo, lo)])
      else if (hi =? 92) || (hi <? lo) then None
      else parse_class fuel' rest (acc ++ [(lo, hi)])
    | c :: rest => parse_class fuel' rest (acc ++ [(c, c)])
    end
  end.

Definition parse_atom (fold : bool) (p : list Z) : option (atom * list Z) :=
  match p with
  | [] => None
  | 92 :: 98 :: rest => Some (AWordBoundary, rest)
  | 92 :: c :: rest =>
    match escape_ranges c with
    | Some rs => Some (ACls {| cc_neg := false; cc_ranges := foldRanges fold rs |}, rest)
    | None => None
    end
  | 46 :: rest => Some (ACls {| cc_neg := true; cc_ranges := [(10, 10)] |}, rest)
  | 91 :: 94 :: rest =>
    match parse_class (length rest) rest [] with
    | Some (rs, rest') =>
      Some (ACls {| cc_neg := true; cc_ranges := foldRanges fold rs |}, rest')
    | None => None
    end
  | 91 :: rest =>
    match parse_class (length rest) rest [] with
    | Some (rs, rest') =>
      Some (ACls {| cc_neg := false; cc_ranges := foldRanges fold rs |}, rest')
    | None => None
    end
  | c :: rest =>
    if (c =? 40) || (c =? 41) || (c =? 124) || (c =? 123) || (c =? 94)
       || (c =? 36) || (c =? 42) || (c =? 43) || (c =? 63) || (c =? 92)
       || (128 <=? c)
    then None
    else Some (ACls {| cc_neg := false; cc_ranges := foldRanges fold [(c, c)] |}, rest)
  end.

Definition is_quant (c : Z) : bool := (c =? 42) || (c =? 43) || (c =? 63).

Definition parse_quant (p : list Z) : option (quant * list Z) :=
  match p with
  | c :: rest =>
    if is_quant c then
      match rest with
      | c' :: _ => if is_quant c' then None
                   else Some (if c =? 42 then QStar else if c =? 43 then QPlus else QOpt, rest)
      | [] => Some (if c =? 42 then QStar else if c =? 43 then QPlus else QOpt, rest)
      end
    else Some (QOne, p)
  | [] => Some (QOne, p)
  end.

Fixpoint parse_items (fuel : nat) (fold : bool) (p : list Z) : option regexp :=
  match fuel with
  | O => None
  | S fuel' =>
    match p with
    | [] => Some []
    | _ =>
      match parse_atom fold p with
      | Some (a, rest) =>
        match parse_quant rest with
        | Some (q, rest') =>
          match parse_items fuel' fold rest' with
          | Some re => Some ((a, q) :: re)
          | None => None
          end
        | None => None
        end
      | None => None
      end
    end
  end.

(** [regexp.Compile], with the one flag group the source uses, a leading
    [(?i)]. *)
Definition Compile (pattern : string) : option regexp :=
  let p := lit pattern in
  match p with
  | 40 :: 63 :: 105 :: 41 :: rest => parse_items (S (length rest)) true rest
  | _ => parse_items (S (length p)) false p
  end.

(** *** Matching

    The matcher runs over characters of any carrier [C] that carry a rune:
    the runes themselves, or runes decoded from bytes together with the bytes
    they came from. *)
Section Matching.
Context {C : Type} (rune_of : C -> rune).

(** [\b] is the ASCII word boundary. *)
Definition isWordChar (r : rune) : bool := in_ranges perl_w r.

Definition wordAt (o : option C) : bool :=
  match o with
  | Some c => isWordChar (rune_of c)
  | None => false
  end.

(** A position in the input: the character before it and the input left. *)
Definition pos : Type := option C * list C.

Definition step_atom (a : atom) (p : pos) : list pos :=
  match a with
  | ACls c =>
    match snd p with
    | x :: s' => if class_mem c (rune_of x) then [(Some x, s')] else []
    | [] => []
    end
  | AWordBoundary =>
    if xorb (wordAt (fst p)) (wordAt (head (snd p))) then [p] else []
  end.

(** Greedy repetition: one more round first, stopping second.  A round that
    consumes nothing is not repeated; [n] bounds the rounds and is the
    length of the input left. *)
Fixpoint star (a : atom) (n : nat) (p : pos) : list pos :=
  match n with
  | O => [p]
  | S n' =>
    flat_map (fun q => if (length (snd q) <? length (snd p))%nat
                       then star a n' q else [])
             (step_atom a p) ++ [p]
  end.

Definition step_item (it : atom * quant) (p : pos) : list pos :=
  match snd it with
  | QOne => step_atom (fst it) p
  | QStar => star (fst it) (length (snd p)) p
  | QPlus => flat_map (fun q => star (fst it) (length (snd q)) q)
                      (step_atom (fst it) p)
  | QOpt => step_atom (fst it) p ++ [p]
  end.

(** The positions at which a match of [re] started at [p] can end, in the
    order of preference. *)
Fixpoint run (re : regexp) (p : pos) : list pos :=
  match re with
  | [] => [p]
  | it :: re' => flat_map (run re') (step_item it p)
  end.

(** The leftmost match, and among those starting there the preferred one:
    the characters it covers. *)
Fixpoint find (re : regexp) (prev : option C) (s : list C) : option (list C) :=
  match run re (prev, s) with
  | q :: _ => Some (take (length s - length (snd q)) s)
  | [] =>
    match s with
    | x :: s' => find re (Some x) s'
    | [] => None
    end
  end.

End Matching.

(** [regexp.MatchString(pattern, s)]: whether [s] contains a match, or the
    compilation error. *)
Definition MatchString (pattern : string) (s : gostring) : bool + error :=
  match Compile pattern with
  | Some re => inl (bool_decide (is_Some (find (fun r => r) re None s)))
  | None => inr (errorString ("error parsing regexp: " +:+ pattern))
  end.

End Regexp.

(** ** UTF-8 decoding, as [regexp] reads a string *)

Module Utf8.
Import Go.

Definition byte_of (a : ascii) : Z := Z.of_N (N_of_ascii a).

Definition cont (b : Z) : bool := (128 <=? b) && (b <=? 191).

(** [utf8.DecodeRuneInString] on the bytes at the head of a string: the
    rune and the number of bytes it takes.  An encoding that is invalid,
    too long, or of a surrogate half is [(RuneError, 1)]. *)
Definition DecodeRune (bs : list Z) : Z * nat :=
  match bs with
  | [] => (RuneError, 0%nat)
  | b0 :: rest =>
    if b0 <? 128 then (b0, 1%nat)
    else if (194 <=? b0) && (b0 <=? 223) then
      match rest with
      | b1 :: _ =>
        if cont b1 then ((b0 - 192) * 64 + (b1 - 128), 2%nat)
        else (RuneError, 1%nat)
      | _ => (RuneError, 1%nat)
      end
    else if (224 <=? b0) && (b0 <=? 239) then
      match rest with
      | b1 :: b2 :: _ =>
        let lo := if b0 =? 224 then 160 else 128 in
        let hi := if b0 =? 237 then 159 else 191 in
        if (lo <=? b1) && (b1 <=? hi) && cont b2
        then ((b0 - 224) * 4096 + (b1 - 128) * 64 + (b2 - 128), 3%nat)
        else (RuneError, 1%nat)
      | _ => (RuneError, 1%nat)
      end
    else if (240 <=? b0) && (b0 <=? 244) then
      match rest with
      | b1 :: b2 :: b3 :: _ =>
        let lo := if b0 =? 240 then 144 else 128 in
        let hi := if b0 =? 244 then 143 else 191 in
        if (lo <=? b1) && (b1 <=? hi) && cont b2 && cont b3
        then ((b0 - 240) * 262144 + (b1 - 128) * 4096 + (b2 - 128) * 64
              + (b3 - 128), 4%nat)
        else (RuneError, 1%nat)
      | _ => (RuneError, 1%nat)
      end
    else (RuneError, 1%nat)
  end.

(** The runes of a byte string, each with the bytes it was decoded from. *)
Fixpoint decode (fuel : nat) (bs : list ascii) : list (Z * string) :=
  match fuel with
  | O => []
  | S fuel' =>
    match bs with
    | [] => []
    | _ =>
      let (r, w) := DecodeRune (map byte_of bs) in
      (r, string_of_list_ascii (take w bs)) :: decode fuel' (drop w bs)
    end
  end.

Definition runes (s : string) : list (Z * string) :=
  let bs := list_ascii_of_string s in decode (length bs) bs.

(** [utf8.Valid]. *)
Definition Valid (s : string) : bool :=
  forallb (fun rw => negb ((fst rw =? RuneError) && (String.length (snd rw) =? 1)%nat))
          (runes s).

Definition bytes_of (cs : list (Z * string)) : string :=
  fold_right (fun rw acc => snd rw +:+ acc) EmptyString cs.

End Utf8.

(** ** pkg/helpers *)

Module Helpers.
Import Go Regexp.

Definition DefaultMaxFileSize : Z := 2 * 1024 * 1024 * 1024.
Definition DefaultBufferSize : Z := 64 * 1024.

Record ValidationIssue := {
  Pattern : string;
  Line : Z;
  Column : string;
  Value : string
}.

Definition ValidationModeRejectRow : string := "reject_row".
Definition ValidationModeRejectFile : string := "reject_file".
Definition ValidationModeIgnore : string := "ignore".
Definition DefaultValidationMode : string := ValidationModeRejectFile.

(** The environment: [os.Getenv], which is empty for an unset variable. *)
Definition Env := string -> string.

(** *** Configuration from the environment *)

Definition digit (a : ascii) : option Z :=
  let c := code a in
  if (48 <=? c) && (c <=? 57) then Some (c - 48) else None.

Fixpoint parseDigits (s : string) (acc : Z) : option Z :=
  match s with
  | EmptyString => Some acc
  | String a s' =>
    match digit a with
    | Some d => parseDigits s' (acc * 10 + d)
    | None => None
    end
  end.

(** [strconv.ParseInt(s, 10, 64)] and [strconv.Atoi] on a 64-bit
    platform: an optional sign and at least one decimal digit; a value out
    of range is an error. *)
Definition ParseInt (s : string) : option Z :=
  let (neg, digits) :=
    match s with
    | String "-" s' => (true, s')
    | String "+" s' => (false, s')
    | _ => (false, s)
    end in
  match digits with
  | EmptyString => None
  | _ =>
    match parseDigits digits 0 with
    | Some n =>
      let v := if (neg : bool) then - n else n in
      if (- 2 ^ 63 <=? v) && (v <=? 2 ^ 63 - 1) then Some v else None
    | None => None
    end
  end.

Definition GetMaxFileSize (env : Env) : Z :=
  let maxSizeStr := env "ENV_MAX_FILE_SIZE" in
  if String.eqb maxSizeStr EmptyString then DefaultMaxFileSize
  else match ParseInt maxSizeStr with
       | None => DefaultMaxFileSize
       | Some maxSize => if maxSize <=? 0 then DefaultMaxFileSize else maxSize
       end.

Definition GetBufferSize (env : Env) : Z :=
  let bufferSizeStr := env "ENV_BUFFER_SIZE" in
  if String.eqb bufferSizeStr EmptyString then DefaultBufferSize
  else match ParseInt bufferSizeStr with
       | None => DefaultBufferSize
       | Some bufferSize => if bufferSize <=? 0 then DefaultBufferSize else bufferSize
       end.

Definition GetValidationMode (env : Env) : string :=
  let mode := env "ENV_FILE_VALIDATION_MODE" in
  if String.eqb mode EmptyString then DefaultValidationMode
  else if String.eqb mode ValidationModeRejectRow
          || String.eqb mode ValidationModeRejectFile
          || String.eqb mode ValidationModeIgnore
  then mode else DefaultValidationMode.

(** *** Byte strings *)

Definition LF : ascii := ascii_of_nat 10.
Definition CR : ascii := ascii_of_nat 13.
Definition TAB : ascii := ascii_of_nat 9.
Definition DQ : ascii := ascii_of_nat 34.

Definition len (s : string) : Z := Z.of_nat (String.length s).

Definition str1 (a : ascii) : string := String a EmptyString.

(** [bytes.TrimSuffix]. *)
Definition TrimSuffix (s suffix : string) : string :=
  let n := String.length s in
  let k := String.length suffix in
  if (k <=? n)%nat && String.eqb (substring (n - k) k s) suffix
  then substring 0 (n - k) s else s.

Fixpoint TrimLeftByte (a : ascii) (s : string) : string :=
  match s with
  | String c s' => if Ascii.eqb c a then TrimLeftByte a s' else s
  | EmptyString => EmptyString
  end.

Definition rev_string (s : string) : string :=
  string_of_list_ascii (rev (list_ascii_of_string s)).

(** [strings.Trim(s, cutset)] for a cutset of the single byte [a]. *)
Definition TrimByte (a : ascii) (s : string) : string :=
  rev_string (TrimLeftByte a (rev_string (TrimLeftByte a s))).

(** [bytes.Buffer.ReadBytes(delim)]: the bytes up to and including the
    first [delim] and the bytes after it, or [None] when there is no
    [delim] (the buffer is then drained and [io.EOF] returned). *)
Fixpoint ReadBytes (delim : ascii) (buf : string) : option (string * string) :=
  match buf with
  | EmptyString => None
  | String c buf' =>
    if Ascii.eqb c delim then Some (str1 c, buf')
    else match ReadBytes delim buf' with
         | Some (line, rest) => Some (String c line, rest)
         | None => None
         end
  end.

(** *** CSV fields *)

(** The loop of [splitCSVLine]: [field] is [line[fieldStart:i]]. *)
Fixpoint splitFields (delimiter : ascii) (line : string) (inQuote : bool)
         (field : string) (fields : list string) : list string * string :=
  match line with
  | EmptyString => (fields, field)
  | String c line' =>
    if Ascii.eqb c DQ then
      splitFields delimiter line' (negb inQuote) (field +:+ str1 c) fields
    else if negb inQuote && Ascii.eqb c delimiter then
      splitFields delimiter line' inQuote EmptyString (fields ++ [field])
    else
      splitFields delimiter line' inQuote (field +:+ str1 c) fields
  end.

Definition splitCSVLine (line : string) : list string :=
  let delimiter :=
    if Contains line (str1 TAB) then TAB
    else if Contains line ";" then ";"%char
    else ","%char in
  let (fields, lastField) := splitFields delimiter line false EmptyString [] in
  if (0 <? String.length lastField)%nat then
    let lastField := TrimSuffix lastField (str1 LF) in
    let lastField := TrimSuffix lastField (String CR (str1 LF)) in
    fields ++ [lastField]
  else fields.

Definition parseCSVFields (line : string) : list string := splitCSVLine line.

(** *** The injection screen *)

Definition CommonCSVInjectionPatterns : list string :=
  [ "[=" +:+ dquote +:+ "']?=\s*[A-Za-z]+\s*\(.*\)";
    "[=" +:+ dquote +:+ "']?\+\s*[A-Za-z]+\s*\(.*\)";
    "[=" +:+ dquote +:+ "']?-\s*[A-Za-z]+\s*\(.*\)";
    "[=" +:+ dquote +:+ "']?@\s*[A-Za-z]+\s*\(.*\)";
    "[=" +:+ dquote +:+ "']?=\s*CMD\s*\(.*\)";
    "[=" +:+ dquote +:+ "']?=\s*cmd\.[a-z]+";
    "[=" +:+ dquote +:+ "']?=\s*cmd\|.*\'?/C";
    "-cmd\.exe!";
    "\+cmd\.exe!";
    "[=" +:+ dquote +:+ "']?=\s*DDE\s*\(.*\)";
    "[=" +:+ dquote +:+ "']?=\s*HYPERLINK\s*\(.*\)";
    "\+IMPORTXML\s*\(.*\)";
    "<script[^>]*>.*</script>";
    "<img[^>]*onerror=";
    "javascript:";
    "on\w+=['" +:+ dquote +:+ "`][^'" +:+ dquote +:+ "`]*['" +:+ dquote +:+ "`]";
    "on\w+=[^\s>]*";
    "<[^>]*\son\w+\s*=";
    "data:text/html";
    "<iframe[^>]*>";
    "\balert\s*\(";
    "\beval\s*\(" ].

Definition suspiciousSequences : list string :=
  [ "<script"; "</script"; "<img"; "javascript:"; "onerror="; "onclick=";
    "onload="; "onmouseover="; "onmouseout="; "onchange="; "onsubmit=";
    "onfocus="; "onblur="; "onkeydown="; "onkeypress="; "onkeyup=";
    "=cmd"; "=CMD"; "-cmd"; "cmd|"; "/C "; "!A"; "=DDE"; "=SUM";
    "=HYPERLINK"; "IMPORTXML"; "CONCATENATE"; "+IMPORT"; "@SUM" ].

Definition containsSuspiciousBytes (data : string) : bool :=
  existsb (Contains data) suspiciousSequences.

(** [re.FindAllStringSubmatch(s, 1)]: the text of the leftmost match. *)
Definition FindFirst (re : regexp) (s : string) : option string :=
  match find fst re None (Utf8.runes s) with
  | Some m => Some (Utf8.bytes_of m)
  | None => None
  end.

(** [checkRegexPatterns]: the patterns in order, those that compiled; the
    first that matches ends the search.  The result map then has that one
    entry, the pattern with the list of its one match. *)
Fixpoint checkRegexLoop (patterns : list string) (strData : string)
  : bool * list (string * list string) :=
  match patterns with
  | [] => (false, [])
  | pattern :: rest =>
    match Compile pattern with
    | None => checkRegexLoop rest strData
    | Some re =>
      match FindFirst re strData with
      | None => checkRegexLoop rest strData
      | Some m => (true, [(pattern, [m])])
      end
    end
  end.

Definition checkRegexPatterns (data : string) : bool * list (string * list string) :=
  checkRegexLoop CommonCSVInjectionPatterns data.

Definition findSuspiciousContent (data : string) : bool * list (string * list string) :=
  if negb (containsSuspiciousBytes data) then (false, [])
  else checkRegexPatterns data.

(** [getFirstMatch].  The map it ranges over has at most one entry. *)
Fixpoint getFirstMatch (matches : list (string * list string)) : string * string :=
  match matches with
  | [] => (EmptyString, EmptyString)
  | (pattern, patternMatches) :: rest =>
    match patternMatches with
    | m :: _ => (pattern, m)
    | [] => getFirstMatch rest
    end
  end.

Fixpoint findSuspiciousFieldFrom (i : Z) (fields : list string) (suspiciousMatch : string)
  : Z * string :=
  match fields with
  | [] => (-1, EmptyString)
  | field :: rest =>
    if Contains field suspiciousMatch then (i, field)
    else findSuspiciousFieldFrom (i + 1) rest suspiciousMatch
  end.

Definition findSuspiciousField (fields : list string) (suspiciousMatch : string)
  : Z * string :=
  findSuspiciousFieldFrom 0 fields suspiciousMatch.

Definition getColumnName (fieldIndex : Z) (columnMap : gmap Z string) : string :=
  if fieldIndex =? -1 then EmptyString
  else match columnMap !! fieldIndex with
       | Some name => name
       | None => "Column " +:+ Itoa (fieldIndex + 1)
       end.

Definition createValidationIssue (rowData : string) (matches : list (string * list string))
           (lineNumber : Z) (columnMap : gmap Z string) : ValidationIssue :=
  let fields := parseCSVFields rowData in
  let (suspiciousPattern, suspiciousMatch) := getFirstMatch matches in
  if String.eqb suspiciousMatch EmptyString then
    {| Pattern := EmptyString; Line := lineNumber;
       Column := EmptyString; Value := EmptyString |}
  else
    let (fieldIndex, suspiciousValue) := findSuspiciousField fields suspiciousMatch in
    {| Pattern := suspiciousPattern; Line := lineNumber;
       Column := getColumnName fieldIndex columnMap; Value := suspiciousValue |}.

Definition CSVRowCheckDetailed (rowData : string) (lineNumber : Z)
           (columnMap : gmap Z string) : bool * option ValidationIssue * option error :=
  let (suspicious, matches) := findSuspiciousContent rowData in
  if negb suspicious then (true, None, None)
  else
    (false, Some (createValidationIssue rowData matches lineNumber columnMap),
     Some (wrapError "buffer validation failed: detected suspicious content"
                     (Sentinel ErrInvalidBuffer))).

(** *** The bounded copy

    The source is the sequence of results its [Read] calls return, each a
    chunk of at most [len(Buffer)] bytes with an optional error; once the
    sequence is used up [Read] returns [(0, io.EOF)].  The destination is
    any writer, a state [W] with its [Write]; the validator is [nil] or a
    function with a state [V] of its own (the variables its closure
    captures). *)
Record ReadResult := { rd_data : string; rd_err : option error }.

Definition Source := list ReadResult.

Definition fits (bufferSize : Z) (src : Source) : Prop :=
  Forall (fun r => len (rd_data r) <= bufferSize) src.

Definition total_bytes (src : Source) : Z :=
  fold_right (fun r acc => len (rd_data r) + acc) 0 src.

Section Copy.
Context {W V : Type}.
Variable Write : string -> W -> (Z * option error) * W.

Definition BufferValidationFunc : Type :=
  string -> Z -> gmap Z string -> V -> (bool * option ValidationIssue * option error) * V.

Record ProcessingContext := {
  Destination : W;
  LineBuffer : string;
  Validator : option BufferValidationFunc;
  ValidatorState : V;
  ValidationMode : string;
  ValidationWarnings : list string;
  HasHeader : bool;
  ColumnMap : gmap Z string;
  CurrentLine : Z;
  Issue : option ValidationIssue;
  Written : Z;
  MaxSize : Z
}.

Definition setDestination (ctx : ProcessingContext) (d : W) (written : Z) :=
  {| Destination := d; LineBuffer := LineBuffer ctx; Validator := Validator ctx;
     ValidatorState := ValidatorState ctx; ValidationMode := ValidationMode ctx;
     ValidationWarnings := ValidationWarnings ctx; HasHeader := HasHeader ctx;
     ColumnMap := ColumnMap ctx; CurrentLine := CurrentLine ctx;
     Issue := Issue ctx; Written := written; MaxSize := MaxSize ctx |}.

Definition setLineBuffer (ctx : ProcessingContext) (b : string) :=
  {| Destination := Destination ctx; LineBuffer := b; Validator := Validator ctx;
     ValidatorState := ValidatorState ctx; ValidationMode := ValidationMode ctx;
     ValidationWarnings := ValidationWarnings ctx; HasHeader := HasHeader ctx;
     ColumnMap := ColumnMap ctx; CurrentLine := CurrentLine ctx;
     Issue := Issue ctx; Written := Written ctx; MaxSize := MaxSize ctx |}.

Definition setValidation (ctx : ProcessingContext) (v : V)
           (issue : option ValidationIssue) (warnings : list string) :=
  {| Destination := Destination ctx; LineBuffer := LineBuffer ctx;
     Validator := Validator ctx; ValidatorState := v;
     ValidationMode := ValidationMode ctx; ValidationWarnings := warnings;
     HasHeader := HasHeader ctx; ColumnMap := ColumnMap ctx;
     CurrentLine := CurrentLine ctx; Issue := issue;
     Written := Written ctx; MaxSize := MaxSize ctx |}.

Definition setLine (ctx : ProcessingContext) (n : Z) (columns : gmap Z string) :=
  {| Destination := Destination ctx; LineBuffer := LineBuffer ctx;
     Validator := Validator ctx; ValidatorState := ValidatorState ctx;
     ValidationMode := ValidationMode ctx;
     ValidationWarnings := ValidationWarnings ctx; HasHeader := HasHeader ctx;
     ColumnMap := columns; CurrentLine := n; Issue := Issue ctx;
     Written := Written ctx; MaxSize := MaxSize ctx |}.

(** [writeDataFromContext]. *)
Definition writeDataFromContext (data : string) (ctx : ProcessingContext)
  : option error * ProcessingContext :=
  let bytesRead := len data in
  let '(bytesWritten, writeErr, d) := Write data (Destination ctx) in
  if (bytesWritten <? 0) || (bytesRead <? bytesWritten) then
    (Some (errorString "invalid write result"), setDestination ctx d (Written ctx))
  else
    let ctx1 := setDestination ctx d (wrap64 (Written ctx + bytesWritten)) in
    if MaxSize ctx1 <? Written ctx1 then (Some (Sentinel ErrMaxFileSizeExceeded), ctx1)
    else match writeErr with
         | Some err => (Some err, ctx1)
         | None =>
           if negb (bytesRead =? bytesWritten)
           then (Some (Sentinel ErrShortWrite), ctx1)
           else (None, ctx1)
         end.

(** [handleValidationError]. *)
Definition handleValidationError (validationErr : error) (ctx : ProcessingContext)
  : bool * option error * ProcessingContext :=
  if errors_Is validationErr ErrInvalidBuffer then (false, Some validationErr, ctx)
  else if String.eqb (ValidationMode ctx) ValidationModeRejectFile then
    (false, Some (Errorf_w "buffer validation error" validationErr), ctx)
  else
    (false, None,
     setValidation ctx (ValidatorState ctx) (Issue ctx)
       (ValidationWarnings ctx ++ ["validation error: " +:+ Error validationErr])).

(** [enrichValidationIssue]: the first field holding [=] or [<script]
    names the column of an issue that has none. *)
Fixpoint enrichFrom (i : Z) (fields : list string) (columns : gmap Z string)
         (issue : ValidationIssue) : ValidationIssue :=
  match fields with
  | [] => issue
  | field :: rest =>
    if Contains field "=" || Contains field "<script" then
      let columnName :=
        match columns !! i with
        | Some name => if String.eqb name EmptyString
                       then "Column " +:+ Itoa (i + 1) else name
        | None => "Column " +:+ Itoa (i + 1)
        end in
      {| Pattern := Pattern issue; Line := Line issue;
         Column := columnName; Value := field |}
    else enrichFrom (i + 1) rest columns issue
  end.

Definition enrichValidationIssue (issue : ValidationIssue) (fields : list string)
           (ctx : ProcessingContext) : ValidationIssue :=
  if String.eqb (Column issue) EmptyString && (0 <? length fields)%nat
  then enrichFrom 0 fields (ColumnMap ctx) issue
  else issue.

(** [handleInvalidContent]. *)
Definition handleInvalidContent (issue : ValidationIssue) (ctx : ProcessingContext)
  : bool * option error * ProcessingContext :=
  let reject :=
    (false,
     Some (wrapError "buffer validation failed: detected suspicious patterns"
                     (Sentinel ErrInvalidBuffer)), ctx) in
  if String.eqb (ValidationMode ctx) ValidationModeRejectFile then reject
  else if String.eqb (ValidationMode ctx) ValidationModeRejectRow then
    (true, None,
     setValidation ctx (ValidatorState ctx) (Issue ctx)
       (ValidationWarnings ctx
        ++ ["skipped invalid buffer: line " +:+ Itoa (Line issue)
            +:+ ", column " +:+ Column issue]))
  else if String.eqb (ValidationMode ctx) ValidationModeIgnore then
    (false, None,
     setValidation ctx (ValidatorState ctx) (Issue ctx)
       (ValidationWarnings ctx
        ++ ["ignored suspicious patterns: line " +:+ Itoa (Line issue)
            +:+ ", column " +:+ Column issue]))
  else reject.

(** [validateContent].  The issue returned by the validator is a pointer:
    the context keeps it, and the enrichment is seen through it. *)
Definition validateContent (data : string) (ctx : ProcessingContext)
  : bool * option error * ProcessingContext :=
  match Validator ctx with
  | None => (false, None, ctx)
  | Some validate =>
    let fields := parseCSVFields data in
    let '(isValid, validationIssue, validationErr, v) :=
      validate data (CurrentLine ctx) (ColumnMap ctx) (ValidatorState ctx) in
    let ctx1 :=
      setValidation ctx v
        (match validationIssue with Some i => Some i | None => Issue ctx end)
        (ValidationWarnings ctx) in
    match validationErr with
    | Some err => handleValidationError err ctx1
    | None =>
      match validationIssue with
      | Some issue =>
        if negb isValid then
          let issue' := enrichValidationIssue issue fields ctx1 in
          handleInvalidContent issue'
            (setValidation ctx1 v (Some issue') (ValidationWarnings ctx1))
        else (false, None, ctx1)
      | None => (false, None, ctx1)
      end
    end
  end.

Definition shouldSkipWriting (line : string) (ctx : ProcessingContext)
  : bool * option error * ProcessingContext :=
  match Validator ctx with
  | None => (false, None, ctx)
  | Some _ => validateContent line ctx
  end.

(** [parseHeaderLine]: the names of the header, by column index. *)
Fixpoint headerFrom (i : Z) (fields : list string) (columns : gmap Z string)
  : gmap Z string :=
  match fields with
  | [] => columns
  | name :: rest => headerFrom (i + 1) rest (<[i := TrimByte DQ name]> columns)
  end.

Definition parseHeaderLine (line : string) (ctx : ProcessingContext) : ProcessingContext :=
  setLine ctx (CurrentLine ctx) (headerFrom 0 (splitCSVLine line) (ColumnMap ctx)).

(** [validateAndWrite]. *)
Definition validateAndWrite (line : string) (ctx : ProcessingContext)
  : option error * ProcessingContext :=
  if (String.length line =? 0)%nat then (None, ctx)
  else
    let ctx1 := setLine ctx (wrap64 (CurrentLine ctx + 1)) (ColumnMap ctx) in
    if (CurrentLine ctx1 =? 1) && HasHeader ctx1 then
      writeDataFromContext line (parseHeaderLine line ctx1)
    else
      let '(shouldSkip, err, ctx2) := shouldSkipWriting line ctx1 in
      match err with
      | Some e => (Some e, ctx2)
      | None => if shouldSkip then (None, ctx2) else writeDataFromContext line ctx2
      end.

(** [readNextLine]: a complete line, or [io.EOF] with the partial line put
    back into the buffer. *)
Definition readNextLine (ctx : ProcessingContext)
  : string * option error * ProcessingContext :=
  match ReadBytes LF (LineBuffer ctx) with
  | Some (line, rest) => (line, None, setLineBuffer ctx rest)
  | None => (LineBuffer ctx, Some (Sentinel EOF), ctx)
  end.

(** [processCompleteLines].  Every round takes at least one byte out of
    the line buffer, so [fuel] rounds suffice when [fuel] exceeds its
    length. *)
Fixpoint processCompleteLinesN (fuel : nat) (ctx : ProcessingContext)
  : option error * ProcessingContext :=
  match fuel with
  | O => (None, ctx)
  | S fuel' =>
    let '(line, err, ctx1) := readNextLine ctx in
    match err with
    | Some _ => (None, ctx1)
    | None =>
      match validateAndWrite line ctx1 with
      | (Some e, ctx2) => (Some e, ctx2)
      | (None, ctx2) => processCompleteLinesN fuel' ctx2
      end
    end
  end.

Definition processCompleteLines (ctx : ProcessingContext)
  : option error * ProcessingContext :=
  processCompleteLinesN (S (String.length (LineBuffer ctx))) ctx.

(** [processNextChunk], on the result of the [Read] it starts with. *)
Definition processNextChunk (r : ReadResult) (ctx : ProcessingContext)
  : option error * ProcessingContext :=
  if 0 <? len (rd_data r) then
    match processCompleteLines (setLineBuffer ctx (LineBuffer ctx +:+ rd_data r)) with
    | (Some err, ctx1) => (Some err, ctx1)
    | (None, ctx1) => (rd_err r, ctx1)
    end
  else (rd_err r, ctx).

Definition processRemainingContent (ctx : ProcessingContext)
  : option error * ProcessingContext :=
  if 0 <? len (LineBuffer ctx) then validateAndWrite (LineBuffer ctx) ctx
  else (None, ctx).

(** [processSourceData]: one [Read] after the other until one ends in an
    error; [io.EOF] is the regular end. *)
Fixpoint processSourceData (src : Source) (ctx : ProcessingContext)
  : option error * ProcessingContext :=
  match src with
  | [] => processRemainingContent ctx
  | r :: src' =>
    match processNextChunk r ctx with
    | (Some readErr, ctx1) =>
      if is_sentinel readErr EOF then processRemainingContent ctx1
      else (Some readErr, ctx1)
    | (None, ctx1) => processSourceData src' ctx1
    end
  end.

(** [CopyWithMaxSizeImpl]: the bytes written, the last validation issue and
    the error, with the destination and the validator as the copy left
    them.  [bufferSize] is the length of the read buffer, which bounds the
    chunks of a source that [fits] it and is not used otherwise (a negative
    one would panic in [make]; [GetBufferSize] never returns one). *)
Definition CopyWithMaxSizeImpl (env : Env) (dst : W) (src : Source)
           (bufferSize maxSize : Z) (validateBuffer : option BufferValidationFunc)
           (v : V)
  : Z * option ValidationIssue * option error * W * V :=
  let maxSize := if maxSize <=? 0 then GetMaxFileSize env else maxSize in
  let ctx :=
    {| Destination := dst; LineBuffer := EmptyString;
       Validator := validateBuffer; ValidatorState := v;
       ValidationMode := GetValidationMode env; ValidationWarnings := [];
       HasHeader := true; ColumnMap := ∅; CurrentLine := 0;
       Issue := None; Written := 0; MaxSize := maxSize |} in
  let (err, ctx1) := processSourceData src ctx in
  (Written ctx1, Issue ctx1, err, Destination ctx1, ValidatorState ctx1).

End Copy.

(** A destination that takes everything, such as a [bytes.Buffer]: its
    state is what was written to it. *)
Definition bufferWrite (data : string) (w : string) : (Z * option error) * string :=
  ((len data, None), w +:+ data).

(** A source that hands out [data] in chunks of [n] bytes, such as a
    [strings.Reader] read through a buffer of [n] bytes. *)
Fixpoint chunks (fuel : nat) (n : nat) (data : string) : Source :=
  match fuel with
  | O => []
  | S fuel' =>
    if (String.length data =? 0)%nat then []
    else {| rd_data := substring 0 n data; rd_err := None |}
         :: chunks fuel' n (substring n (String.length data - n) data)
  end.

Definition readerOf (n : nat) (data : string) : Source :=
  chunks (String.length data) n data.

End Helpers.

(** ** pkg/api: the upload handler *)

Module Api.
Import Go Helpers.

Record CSVErrorDetail := {
  dLine : Z;
  dColumn : string;
  dExpectedType : string;
  dFoundValue : string;
  dSuggestion : string
}.

Record CSVError := {
  Code : string;
  Message : string;
  Details : CSVErrorDetail
}.

Definition suggestionMap : gmap string string :=
  list_to_map
    [ ("INVALID_REQUEST_PARAMETERS", "Please check the required parameters and try again.");
      ("TEMP_FILE_CREATION_ERROR", "Please try again or contact support if the issue persists.");
      ("FILE_OPEN_ERROR", "Please ensure the file is not corrupted and try again.");
      ("CSV_VALIDATION_ERROR", "The file could not be processed. Please check the CSV format.");
      ("INVALID_CSV_STRUCTURE", "Please ensure the CSV file has a consistent structure.");
      ("MIME_TYPE_DETECTION_ERROR", "Please ensure the file is not corrupted and try again.");
      ("CSV_FORMAT_CHECK_ERROR", "Please ensure the file is a valid CSV file.");
      ("INVALID_FILE_FORMAT", "Please upload a valid CSV file with extensions like .csv, .txt, or .tsv.");
      ("FILE_SIZE_EXCEEDED", "Please reduce the file size or split it into smaller files.");
      ("SECURITY_VALIDATION_FAILED", "Please ensure the file does not contain formulas, scripts or other potentially harmful content.");
      ("FILE_COPY_ERROR", "Please try again or contact support if the issue persists.");
      ("SMART_IMPORT_FAILED", "Check the CSV file structure and ensure it contains valid data.");
      ("DIRECT_IMPORT_FAILED", "Check the CSV file structure and ensure it contains valid data.");
      ("TABLE_INFO_ERROR", "The table may not have been created correctly. Check the CSV file structure.");
      ("ROW_COUNT_ERROR", "The data may not have been imported correctly. Check the CSV file structure.");
      ("INVALID_ENCODING", "Please ensure the file is saved with UTF-8 encoding before uploading.");
      ("UNSUPPORTED_ENCODING", "Please ensure the file is saved with a supported encoding (UTF-8 or UTF-16) before uploading.");
      ("DUPLICATE_TABLE_NAME", "Choose a different table name or use the override parameter to replace the existing table.") ].

Definition suggestion (code : string) : string :=
  default EmptyString (suggestionMap !! code).

(** An error with no position: the shape most error paths build. *)
Definition plainError (code message : string) : CSVError :=
  {| Code := code; Message := message;
     Details := {| dLine := 0; dColumn := EmptyString; dExpectedType := EmptyString;
                   dFoundValue := EmptyString; dSuggestion := suggestion code |} |}.

Definition StatusOK : Z := 200.
Definition StatusBadRequest : Z := 400.
Definition StatusRequestEntityTooLarge : Z := 413.
Definition StatusUnprocessableEntity : Z := 422.

(** The fields of [CSVValidationResult] that the upload path reads. *)
Record CSVValidationResult := {
  Valid : bool;
  ColumnCount : Z;
  ErrorMessage : string
}.

(** The uploaded file: its name and size as the multipart header gives
    them, and what opening and reading it yields. *)
Record FileHeader := {
  Filename : string;
  Size : Z;
  Open : Source + error
}.

(** The collaborators of the upload path that lie outside this
    development: the statistical encoding detector ([chardet]), the
    structural CSV validation of [pkg/api] (delimiter scoring and header
    heuristics over [encoding/csv]), MIME sniffing, the temporary file and
    the import into the engine.  [importCsvData] writes its own error
    responses, with status 422; what it reports back is abstract here. *)
Class Collaborators := {
  detectEncoding : string -> string;
  ValidateCSVFileFromData : string -> CSVValidationResult + error;
  validateMimeType : FileHeader -> list CSVError * option error;
  TempFile : Type;
  createTempFile : string -> (string * TempFile) + error;
  tempWrite : string -> TempFile -> (Z * option error) * TempFile;
  UploadResult : Type;
  importCsvData : string -> string -> bool -> bool -> list CSVError + UploadResult
}.

(** *** Encoding validation *)

Definition lower (a : ascii) : ascii :=
  let c := code a in
  if (65 <=? c) && (c <=? 90) then ascii_of_nat (Z.to_nat (c + 32)) else a.

(** [strings.ToLower] on the ASCII letters; encoding labels are ASCII. *)
Fixpoint ToLower (s : string) : string :=
  match s with
  | EmptyString => EmptyString
  | String a s' => String (lower a) (ToLower s')
  end.

Definition supportedEncodings : list string := ["utf-8"; "utf8"; "utf-16"; "utf16"].

Definition isEncodingSupported (encoding : string) : bool :=
  if String.eqb encoding EmptyString then true
  else existsb (String.eqb (ToLower encoding)) supportedEncodings.

Definition unsupportedMessage (encoding : string) : string :=
  "unsupported encoding: " +:+ encoding +:+ ". Supported encodings are: UTF-8 and UTF-16".

Definition mismatchError (userSpecifiedEncoding detectedEncoding : string) : error :=
  errorString ("file encoding mismatch: you specified " +:+ userSpecifiedEncoding
               +:+ " but detected " +:+ detectedEncoding).

Section Upload.
Context {CO : Collaborators}.

(** [detectDataEncoding]: the detected label in lower case, whether it is
    a UTF-8 one, whether it is a UTF-16 one. *)
Definition detectDataEncoding (data : string) : (string * bool * bool) + error :=
  let encoding := detectEncoding data in
  if String.eqb encoding EmptyString
  then inr (errorString "could not detect file encoding")
  else
    let detectedEncoding := ToLower encoding in
    inl (detectedEncoding,
         Contains detectedEncoding "utf-8" || Contains detectedEncoding "utf8",
         Contains detectedEncoding "utf-16" || Contains detectedEncoding "utf16").

Definition validateUnsupportedEncodingFallback (data detectedEncoding : string)
  : (string * bool) + error :=
  if Utf8.Valid data then inl ("utf-8", true)
  else inr (errorString ("detected encoding is not supported: " +:+ detectedEncoding
                         +:+ ". Supported encodings are: UTF-8 and UTF-16")).

Definition validateUTF8UserSpecified (data userSpecifiedEncoding detectedEncoding : string)
           (isUTF8 isUTF16 : bool) : option error :=
  if isUTF8 || String.eqb userSpecifiedEncoding EmptyString then
    if negb (Utf8.Valid data) then Some (errorString "file is not valid UTF-8 encoded")
    else None
  else if isUTF16 && String.eqb userSpecifiedEncoding EmptyString then None
  else Some (mismatchError userSpecifiedEncoding detectedEncoding).

Definition validateUTF16UserSpecified (userSpecifiedEncoding detectedEncoding : string)
           (isUTF16 : bool) : option error :=
  if negb isUTF16 then Some (mismatchError userSpecifiedEncoding detectedEncoding)
  else None.

Definition isUTF8EncodingSpecified (encoding : string) : bool :=
  String.eqb encoding EmptyString || String.eqb encoding "utf-8"
  || String.eqb encoding "utf8".

Definition isUTF16EncodingSpecified (encoding : string) : bool :=
  String.eqb encoding "utf-16" || String.eqb encoding "utf16".

Definition validateEncodingFromData (data userSpecifiedEncoding : string) : option error :=
  let userSpecifiedEncoding := ToLower userSpecifiedEncoding in
  if negb (isEncodingSupported userSpecifiedEncoding)
  then Some (errorString (unsupportedMessage userSpecifiedEncoding))
  else if (String.length data =? 0)%nat then None
  else
    match detectDataEncoding data with
    | inr err => Some err
    | inl (detectedEncoding, isUTF8, isUTF16) =>
      let fallback :=
        if negb isUTF8 && negb isUTF16
        then match validateUnsupportedEncodingFallback data detectedEncoding with
             | inl (d, u8) => inl (d, u8)
             | inr err => inr err
             end
        else inl (detectedEncoding, isUTF8) in
      match fallback with
      | inr err => Some err
      | inl (detectedEncoding, isUTF8) =>
        if isUTF8EncodingSpecified userSpecifiedEncoding then
          validateUTF8UserSpecified data userSpecifiedEncoding detectedEncoding
                                    isUTF8 isUTF16
        else if isUTF16EncodingSpecified userSpecifiedEncoding then
          validateUTF16UserSpecified userSpecifiedEncoding detectedEncoding isUTF16
        else None
      end
    end.

(** *** The copy and its error mapping *)

(** [fmt.Sscanf(msg, "inconsistent column count on line %d", &lineNum)]:
    the number after the phrase at the start of the message, 0 on failure. *)
Fixpoint leadingDigits (s : string) : string :=
  match s with
  | String a s' => match digit a with
                   | Some _ => String a (leadingDigits s')
                   | None => EmptyString
                   end
  | EmptyString => EmptyString
  end.

Definition scanLine (msg : string) : Z :=
  let phrase := "inconsistent column count on line " in
  if HasPrefix msg phrase then
    match ParseInt (leadingDigits
                      (substring (String.length phrase)
                                 (String.length msg - String.length phrase) msg)) with
    | Some n => n
    | None => 0
    end
  else 0.

(** The closure [validationWrapper] of [copyFileData]; its state is the
    captured flag [validatedFileFormat]. *)
Definition validationWrapper (filename encoding : string)
  : @BufferValidationFunc bool :=
  fun data lineNumber columnMap validatedFileFormat =>
    if 0 <? lineNumber then
      (CSVRowCheckDetailed data lineNumber columnMap, validatedFileFormat)
    else
      let '(isSafe, issue, _) := CSVRowCheckDetailed data lineNumber columnMap in
      if negb isSafe then
        ((false, issue, Some (Sentinel ErrInvalidBuffer)), validatedFileFormat)
      else if (len data <? 1024) && HasPrefix filename "test" then
        ((true, None, None), validatedFileFormat)
      else if negb validatedFileFormat then
        match validateEncodingFromData data encoding with
        | Some err => ((false, None, Some (Errorf_w "invalid encoding" err)), true)
        | None =>
          match ValidateCSVFileFromData data with
          | inr err => ((false, None, Some (Errorf_v "CSV validation error" err)), true)
          | inl validationResult =>
            if negb (Valid validationResult) then
              let lineNum :=
                if Contains (ErrorMessage validationResult)
                            "inconsistent column count on line"
                then scanLine (ErrorMessage validationResult) else 0 in
              ((false,
                Some {| Pattern := ErrorMessage validationResult; Line := lineNum;
                        Column := EmptyString; Value := EmptyString |},
                Some (errorString ("invalid CSV structure: "
                                   +:+ ErrorMessage validationResult))), true)
            else ((true, None, None), true)
          end
        end
      else ((true, None, None), validatedFileFormat).

Definition tooLargeMessage (env : Env) : string :=
  "(max " +:+ Itoa (Z.quot (GetMaxFileSize env) (1024 * 1024 * 1024)) +:+ "GB)".

(** The branches of [copyFileData] on the error of the copy. *)
Definition mapCopyError (env : Env) (validationIssue : option ValidationIssue)
           (err : error) : list CSVError * option error :=
  if is_sentinel err ErrMaxFileSizeExceeded then
    ([plainError "FILE_SIZE_EXCEEDED" ("File too large " +:+ tooLargeMessage env)],
     Some (errorString ("file too large " +:+ tooLargeMessage env)))
  else if errors_Is err ErrInvalidBuffer then
    let securityError :=
      plainError "SECURITY_VALIDATION_FAILED"
        "Security validation failed: file contains potentially malicious content" in
    let securityError :=
      match validationIssue with
      | None => securityError
      | Some issue =>
        {| Code := Code securityError; Message := Message securityError;
           Details :=
             {| dLine := Line issue; dColumn := Column issue;
                dExpectedType := EmptyString; dFoundValue := Value issue;
                dSuggestion :=
                  if Contains (Pattern issue) "=" || Contains (Pattern issue) "HYPERLINK"
                     || Contains (Pattern issue) "IMPORT"
                  then "Please remove Excel/spreadsheet formulas from the file."
                  else if Contains (Pattern issue) "script"
                          || Contains (Pattern issue) "javascript"
                  then "Please remove HTML or JavaScript code from the file."
                  else dSuggestion (Details securityError) |} |}
      end in
    ([securityError],
     Some (errorString "security validation failed: file contains potentially malicious content"))
  else if Contains (Error err) "invalid encoding" then
    let errorCode :=
      if Contains (Error err) "unsupported encoding"
      then "UNSUPPORTED_ENCODING" else "INVALID_ENCODING" in
    ([plainError errorCode (Error err)], Some err)
  else if Contains (Error err) "CSV validation error" then
    ([plainError "CSV_VALIDATION_ERROR" ("CSV validation error: " +:+ Error err)],
     Some err)
  else if Contains (Error err) "invalid CSV structure" then
    let validationError := plainError "INVALID_CSV_STRUCTURE" (Error err) in
    let validationError :=
      match validationIssue with
      | Some issue =>
        if 0 <? Line issue then
          {| Code := Code validationError; Message := Message validationError;
             Details :=
               {| dLine := Line issue; dColumn := EmptyString;
                  dExpectedType := EmptyString; dFoundValue := EmptyString;
                  dSuggestion := "Make sure all rows have the same number of columns." |} |}
        else validationError
      | None => validationError
      end in
    ([validationError], Some err)
  else
    ([plainError "FILE_COPY_ERROR" ("Error processing file: " +:+ Error err)],
     Some (errorString ("internal server error while processing file: " +:+ Error err))).

(** [copyFileData]: the validation errors and the error. *)
Definition copyFileData (env : Env) (src : Source) (dst : TempFile)
           (filename encoding : string) : list CSVError * option error :=
  let '(bytesWritten, validationIssue, err, _, _) :=
    CopyWithMaxSizeImpl tempWrite env dst src (GetBufferSize env) (GetMaxFileSize env)
                        (Some (validationWrapper filename encoding)) false in
  match err with
  | Some err => mapCopyError env validationIssue err
  | None => ([], None)
  end.

(** [processCsvFileFromHeader]: the path of the temporary file, the
    validation errors and the error. *)
Definition processCsvFileFromHeader (env : Env) (fileHeader : FileHeader)
           (tableName : string) (hasHeader : bool) (encoding : string)
  : string * list CSVError * option error :=
  if negb (isEncodingSupported encoding) then
    (EmptyString, [plainError "UNSUPPORTED_ENCODING" (unsupportedMessage encoding)],
     Some (errorString (unsupportedMessage encoding)))
  else
    match Open fileHeader with
    | inr err =>
      (EmptyString,
       [plainError "FILE_OPEN_ERROR" ("Failed to open uploaded file: " +:+ Error err)],
       Some (errorString ("failed to open uploaded file: " +:+ Error err)))
    | inl file =>
      let mime :=
        if negb (HasPrefix (Filename fileHeader) "test") && (0 <? Size fileHeader)
        then validateMimeType fileHeader else ([], None) in
      match mime with
      | (mimeErrors, Some mimeErr) => (EmptyString, mimeErrors, Some mimeErr)
      | (_, None) =>
        match createTempFile tableName with
        | inr err =>
          (EmptyString,
           [plainError "TEMP_FILE_CREATION_ERROR"
                       ("Failed to create temporary file: " +:+ Error err)],
           Some err)
        | inl (tempFilePath, tempFile) =>
          match copyFileData env file tempFile (Filename fileHeader) encoding with
          | (copyErrors, Some err) => (EmptyString, copyErrors, Some err)
          | (copyErrors, None) => (tempFilePath, copyErrors, None)
          end
        end
      end
    end.

(** The multipart form after binding. *)
Record CSVRequest := {
  TableName : string;
  CSVFile : FileHeader;
  rHasHeader : bool;
  Override : bool;
  Smart : bool;
  FileEncoding : string
}.

Inductive Body :=
| ErrorsBody (errors : list CSVError)
| UploadBody (table : string) (result : UploadResult).

Record Response := { status : Z; body : Body }.

(** [handleCSVUpload], on the outcome of binding the form. *)
Definition handleCSVUpload (env : Env) (bound : CSVRequest + error) : Response :=
  match bound with
  | inr err =>
    {| status := StatusBadRequest;
       body := ErrorsBody [plainError "INVALID_REQUEST_PARAMETERS"
                                      ("Invalid request: " +:+ Error err)] |}
  | inl payload =>
    match processCsvFileFromHeader env (CSVFile payload) (TableName payload)
                                   (rHasHeader payload) (FileEncoding payload) with
    | (_, validationErrors, Some err) =>
      if Contains (Error err) "file too large" then
        {| status := StatusRequestEntityTooLarge; body := ErrorsBody validationErrors |}
      else
        {| status := StatusBadRequest; body := ErrorsBody validationErrors |}
    | (tempFilePath, _, None) =>
      match importCsvData (TableName payload) tempFilePath (rHasHeader payload)
                          (Override payload) with
      | inl importErrors =>
        {| status := StatusUnprocessableEntity; body := ErrorsBody importErrors |}
      | inr result =>
        {| status := StatusOK; body := UploadBody (TableName payload) result |}
      end
    end
  end.

End Upload.

End Api.

(** ** pkg/database *)

Module Database.
Import Go Regexp.

(** *** Table names *)

(** The anonymous function passed to [strings.Map] by [sanitizeTableName]:
    ['a'..'z'], ['A'..'Z'], ['0'..'9'] and ['_'] are kept, anything else
    becomes ['_']. *)
Definition sanitizeRune (r : rune) : rune :=
  if ((97 <=? r) && (r <=? 122)) || ((65 <=? r) && (r <=? 90))
     || ((48 <=? r) && (r <=? 57)) || (r =? 95)
  then r else 95.

Definition sanitizeTableName (tableName : gostring) : gostring :=
  strings_Map sanitizeRune tableName.

(** *** Query validation *)

Definition suspiciousPatterns : list string :=
  [ "(?i)\bUNION\b.*\bSELECT\b";
    "(?i)\bOR\b\s+\d+\s*=\s*\d+";
    "(?i)--";
    "(?i)/\*.*\*/";
    "(?i)\bEXEC\b";
    "(?i)\bXP_\w+\b" ].

(** The loop of [validateQuery] over the patterns: the first pattern that
    fails to compile or that matches ends it. *)
Fixpoint checkPatterns (patterns : list string) (query : gostring) : option error :=
  match patterns with
  | [] => None
  | pattern :: rest =>
    match MatchString pattern query with
    | inr err => Some (Errorf_w "error checking SQL injection pattern" err)
    | inl true =>
      Some (errorString ("potentially malicious SQL pattern detected: " +:+ pattern))
    | inl false => checkPatterns rest query
    end
  end.

(** [validateQuery].  The count of semicolons is only logged. *)
Definition validateQuery (query : gostring) : option error :=
  checkPatterns suspiciousPatterns query.

(** *** Splitting a submission into statements *)

(** The state of the loop of [splitQueryBySemicolon]. *)
Record splitState := {
  queries : list gostring;
  currentQuery : gostring;
  inQuote : bool;
  escapeNext : bool
}.

Definition splitInit : splitState :=
  {| queries := []; currentQuery := []; inQuote := false; escapeNext := false |}.

(** One iteration of the loop, on the rune [char]. *)
Definition splitStep (st : splitState) (char : rune) : splitState :=
  if escapeNext st then
    {| queries := queries st; currentQuery := currentQuery st ++ [char];
       inQuote := inQuote st; escapeNext := false |}
  else if char =? 92 then
    {| queries := queries st; currentQuery := currentQuery st ++ [char];
       inQuote := inQuote st; escapeNext := true |}
  else if (char =? 34) || (char =? 39) then
    {| queries := queries st; currentQuery := currentQuery st ++ [char];
       inQuote := negb (inQuote st); escapeNext := escapeNext st |}
  else if (char =? 59) && negb (inQuote st) then
    {| queries := queries st ++ [currentQuery st]; currentQuery := [];
       inQuote := inQuote st; escapeNext := escapeNext st |}
  else
    {| queries := queries st; currentQuery := currentQuery st ++ [char];
       inQuote := inQuote st; escapeNext := escapeNext st |}.

Definition splitLoop (st : splitState) (query : gostring) : splitState :=
  fold_left splitStep query st.

Definition splitQueryBySemicolon (query : gostring) : list gostring :=
  let st := splitLoop splitInit query in
  if (0 <? length (currentQuery st))%nat
  then queries st ++ [currentQuery st]
  else queries st.

(** *** Results and benchmark records *)

(** A [float64] of the benchmark record: the conversion of an integer, or a
    decimal constant of the source ([mantissa * 10 ^ exponent]).  No
    arithmetic is done on them here. *)
Inductive float64 :=
| Float64OfInt (n : Z)
| Float64Const (mantissa exponent : Z).

Record Timing := {
  TotalMs : Z;
  ParsingMs : float64;
  PlanningMs : float64;
  ExecutionMs : float64;
  SerializationMs : float64
}.

Record Resources := {
  PeakMemoryBytes : Z;
  ThreadCount : Z;
  CpuTimeMs : Z;
  IoReadBytes : Z;
  IoWriteBytes : Z
}.

Record QueryStats := {
  RowsProcessed : Z;
  RowsReturned : Z;
  OperatorCount : Z;
  ScanCount : Z
}.

Record Cache := {
  HitCount : Z;
  MissCount : Z;
  HitRatio : float64
}.

Record BenchmarkMetrics := {
  timing : Timing;
  resources : Resources;
  query_stats : QueryStats;
  cache : Cache
}.

(** A value scanned from a result row (the dynamic type behind [any]). *)
Inductive Value :=
| VNil
| VBytes (b : string)
| VString (s : string)
| VInt64 (n : Z)
| VBool (b : bool)
| VOther (repr : string).

Record QueryResult := {
  Results : list (gmap string Value);
  Benchmark : option BenchmarkMetrics;
  Duration : Z
}.

(** *** The embedded engine

    What the facade runs on: the engine behind [database/sql], the wall
    clock, and the one [float64] product of the benchmark record.  A result
    set is fixed when the statement is run; every [Next] is still a step of
    the world, during which time passes. *)
Record ResultSet := {
  rs_columns : list string + error;
  rs_rows : list (list Value + error);
  rs_err : option error
}.

Class Runtime := {
  World : Type;
  Stmt : Type;
  now : World -> Z;
  db_Prepare : gostring -> World -> (Stmt + error) * World;
  stmt_Query : Stmt -> World -> (ResultSet + error) * World;
  rows_Next : World -> World;
  rows_Close : World -> World;
  stmt_Close : Stmt -> World -> World;
  mul_0_8 : Z -> Z
}.

(** The calls made on the engine, recorded beside the world. *)
Inductive Call :=
| CallPrepare (query : gostring)
| CallQuery
| CallNext
| CallCloseRows
| CallCloseStmt.

Section Facade.
Context {RT : Runtime}.

Record State := { world : World; calls : list Call }.

Definition call {A : Type} (c : Call) (op : World -> A * World) (st : State)
  : A * State :=
  let (a, w) := op (world st) in
  (a, {| world := w; calls := calls st ++ [c] |}).

Definition call_ (c : Call) (op : World -> World) (st : State) : State :=
  {| world := op (world st); calls := calls st ++ [c] |}.

Definition timeNow (st : State) : Z := now (world st).

(** [time.Duration] is an [int64] count of nanoseconds; [time.Since]
    saturates at the ends of its range. *)
Definition Since (start : Z) (st : State) : Z :=
  Z.max (- 2 ^ 63) (Z.min (2 ^ 63 - 1) (timeNow st - start)).
Definition Milliseconds (d : Z) : Z := Z.quot d 1000000.

Record queryExecution := {
  qe_stmt : Stmt;
  qe_rows : ResultSet;
  qe_columns : list string;
  parsingDuration : Z;
  planningDuration : Z;
  executionStart : Z
}.

Record rowProcessingResult := {
  rp_results : list (gmap string Value);
  rowCount : Z;
  serializationDuration : Z
}.

Definition prepareAndExecuteQuery (query : gostring) (st : State)
  : (queryExecution + error) * State :=
  let parsingStart := timeNow st in
  match call (CallPrepare query) (db_Prepare query) st with
  | (inr err, st1) => (inr (Errorf_w "failed to prepare query" err), st1)
  | (inl stmt, st1) =>
    let parsingDuration := Since parsingStart st1 in
    let executionStart := timeNow st1 in
    match call CallQuery (stmt_Query stmt) st1 with
    | (inr err, st2) =>
      (inr (Errorf_w "failed to execute query" err),
       call_ CallCloseStmt (stmt_Close stmt) st2)
    | (inl rows, st2) =>
      let planningDuration := Z.quot (Since executionStart st2) 3 in
      match rs_columns rows with
      | inr err =>
        (inr (Errorf_w "failed to get column names" err),
         call_ CallCloseStmt (stmt_Close stmt) (call_ CallCloseRows rows_Close st2))
      | inl columns =>
        (inl {| qe_stmt := stmt; qe_rows := rows; qe_columns := columns;
                parsingDuration := parsingDuration;
                planningDuration := planningDuration;
                executionStart := executionStart |}, st2)
      end
    end
  end.

(** [createRowMap]: byte slices become strings, [nil] stays [nil].  A
    column without a scanned value is out of range in the source; the
    driver scans one value per column. *)
Fixpoint createRowMap (columns : list string) (values : list Value)
         (row : gmap string Value) : gmap string Value :=
  match columns, values with
  | col :: columns', v :: values' =>
    let value := match v with VBytes b => VString b | _ => v end in
    createRowMap columns' values' (<[col := value]> row)
  | _, _ => row
  end.

(** The [rows.Next] loop of [processRowsWithBenchmarking]. *)
Fixpoint scanRows (columns : list string) (pending : list (list Value + error))
         (results : list (gmap string Value)) (rowCount : Z) (st : State)
  : (list (gmap string Value) * Z + error) * State :=
  match pending with
  | [] => (inl (results, rowCount), call_ CallNext rows_Next st)
  | scanned :: pending' =>
    let st1 := call_ CallNext rows_Next st in
    match scanned with
    | inr err => (inr (Errorf_w "failed to scan row" err), st1)
    | inl values =>
      scanRows columns pending' (results ++ [createRowMap columns values ∅])
               (wrap64 (rowCount + 1)) st1
    end
  end.

Definition processRowsWithBenchmarking (qe : queryExecution) (st : State)
  : (rowProcessingResult + error) * State :=
  let serializationStart := timeNow st in
  match scanRows (qe_columns qe) (rs_rows (qe_rows qe)) [] 0 st with
  | (inr err, st1) => (inr err, st1)
  | (inl (results, rowCount), st1) =>
    match rs_err (qe_rows qe) with
    | Some err => (inr (Errorf_w "error during row iteration" err), st1)
    | None =>
      (inl {| rp_results := results; rowCount := rowCount;
              serializationDuration := Since serializationStart st1 |},
       st1)
    end
  end.

(** [calculateBenchmarkMetrics].  [rowCount] and [resultCount] are machine
    [int]s (64 bits), so the products wrap. *)
Definition calculateBenchmarkMetrics
           (duration parsingDuration planningDuration serializationDuration : Z)
           (rowCount resultCount : Z) : BenchmarkMetrics :=
  let executionDuration :=
    Z.max (wrap64 (wrap64 (wrap64 (duration - parsingDuration) - planningDuration)
                   - serializationDuration)) 0 in
  {| timing := {| TotalMs := Milliseconds duration;
                  ParsingMs := Float64OfInt (Milliseconds parsingDuration);
                  PlanningMs := Float64OfInt (Milliseconds planningDuration);
                  ExecutionMs := Float64OfInt (Milliseconds executionDuration);
                  SerializationMs := Float64OfInt (Milliseconds serializationDuration) |};
     resources := {| PeakMemoryBytes := wrap64 (resultCount * 1024);
                     ThreadCount := 4;
                     CpuTimeMs := mul_0_8 (Milliseconds duration);
                     IoReadBytes := wrap64 (resultCount * 256);
                     IoWriteBytes := 0 |};
     query_stats := {| RowsProcessed := wrap64 (rowCount * 2);
                       RowsReturned := rowCount;
                       OperatorCount := 3;
                       ScanCount := 1 |};
     cache := {| HitCount := 10; MissCount := 2; HitRatio := Float64Const 83 (-2) |} |}.

(** The two deferred [CloseResources] calls of [executeSingleQuery]: rows
    first, then the statement. *)
Definition closeBoth (stmt : Stmt) (st : State) : State :=
  call_ CallCloseStmt (stmt_Close stmt) (call_ CallCloseRows rows_Close st).

Definition executeSingleQuery (query : gostring) (st : State)
  : (QueryResult + error) * State :=
  let startTime := timeNow st in
  match prepareAndExecuteQuery query st with
  | (inr err, st1) => (inr err, st1)
  | (inl qe, st1) =>
    match processRowsWithBenchmarking qe st1 with
    | (inr err, st2) => (inr err, closeBoth (qe_stmt qe) st2)
    | (inl processResult, st2) =>
      let duration := Since startTime st2 in
      let benchmarks :=
        calculateBenchmarkMetrics duration (parsingDuration qe)
          (planningDuration qe) (serializationDuration processResult)
          (rowCount processResult)
          (Z.of_nat (length (rp_results processResult))) in
      (inl {| Results := rp_results processResult;
              Benchmark := Some benchmarks;
              Duration := duration |},
       closeBoth (qe_stmt qe) st2)
    end
  end.

(** *** The handle *)

Inductive sqlDB := SqlDB.
Inductive CancelFunc := Cancel.

Record DuckDB := {
  db : option sqlDB;
  dbPath : string;
  cancelFunc : option CancelFunc
}.

(** The loop of [ExecuteQuery] over the segments: [i] is the 0-based index
    of the segment at the head of [segments]. *)
Fixpoint executeSegments (segments : list gostring) (i : Z)
         (lastResult : option QueryResult) (st : State)
  : (option QueryResult + error) * State :=
  match segments with
  | [] => (inl lastResult, st)
  | singleQuery :: rest =>
    let singleQuery := TrimSpace singleQuery in
    match singleQuery with
    | [] => executeSegments rest (i + 1) lastResult st
    | _ =>
      match executeSingleQuery singleQuery st with
      | (inr err, st1) =>
        (inr (Errorf_w ("failed to execute query " +:+ Itoa (i + 1)) err), st1)
      | (inl result, st1) => executeSegments rest (i + 1) (Some result) st1
      end
    end
  end.

Definition setTotalMs (b : BenchmarkMetrics) (ms : Z) : BenchmarkMetrics :=
  {| timing := {| TotalMs := ms;
                  ParsingMs := ParsingMs (timing b);
                  PlanningMs := PlanningMs (timing b);
                  ExecutionMs := ExecutionMs (timing b);
                  SerializationMs := SerializationMs (timing b) |};
     resources := resources b;
     query_stats := query_stats b;
     cache := cache b |}.

Definition ExecuteQuery (h : DuckDB) (query : gostring) (st : State)
  : (QueryResult + error) * State :=
  match db h with
  | None => (inr (errorString "database connection is closed"), st)
  | Some _ =>
    match validateQuery query with
    | Some err => (inr (Errorf_w "invalid SQL query" err), st)
    | None =>
      let queries := splitQueryBySemicolon query in
      let startTime := timeNow st in
      match executeSegments queries 0 None st with
      | (inr err, st1) => (inr err, st1)
      | (inl None, st1) => (inr (errorString "no valid queries to execute"), st1)
      | (inl (Some lastResult), st1) =>
        let duration := Since startTime st1 in
        (inl {| Results := Results lastResult;
                Benchmark :=
                  match Benchmark lastResult with
                  | Some b => Some (setTotalMs b (Milliseconds duration))
                  | None => None
                  end;
                Duration := duration |}, st1)
      end
    end
  end.

End Facade.

(** *** Close

    [Close] acts on the connection pool of [database/sql], on the context of
    the handle and on the file system.  Of [database/sql] the model keeps
    what [DB.Close] documents: the first call closes the driver's
    connections and reports their error, every later call returns [nil].
    Of the file system it keeps the set of existing paths; [os.Remove] of a
    missing path fails with an error for which [os.IsNotExist] holds. *)
Record Sys := {
  sql_closed : bool;
  driver_close_err : option error;
  files : gset string;
  protected : gset string;
  cancelled : bool
}.

Definition sql_Close (sys : Sys) : option error * Sys :=
  if sql_closed sys then (None, sys)
  else (driver_close_err sys,
        {| sql_closed := true; driver_close_err := driver_close_err sys;
           files := files sys; protected := protected sys;
           cancelled := cancelled sys |}).

Definition os_Remove (path : string) (sys : Sys) : option error * Sys :=
  if bool_decide (path ∈ files sys) then
    if bool_decide (path ∈ protected sys) then
      (Some (errorString ("remove " +:+ path +:+ ": operation not permitted")), sys)
    else
      (None, {| sql_closed := sql_closed sys;
                driver_close_err := driver_close_err sys;
                files := files sys ∖ {[ path ]}; protected := protected sys;
                cancelled := cancelled sys |})
  else
    (Some (wrapError ("remove " +:+ path +:+ ": no such file or directory")
                     (Sentinel ErrNotExist)), sys).

Definition IsNotExist (err : error) : bool := errors_Is err ErrNotExist.

Definition cancel (sys : Sys) : Sys :=
  {| sql_closed := sql_closed sys; driver_close_err := driver_close_err sys;
     files := files sys; protected := protected sys; cancelled := true |}.

(** [Close].  Calling the [nil] function value of a handle that was never
    initialised panics. *)
Definition Close (h : DuckDB) (sys : Sys) : outcome (option error) * Sys :=
  match cancelFunc h with
  | None => (Panicked, sys)
  | Some _ =>
    let sys1 := cancel sys in
    let (closeErr, sys2) :=
      match db h with
      | Some _ => sql_Close sys1
      | None => (None, sys1)
      end in
    match closeErr with
    | Some err =>
      (Returned (Some (Errorf_w "failed to close database connection" err)), sys2)
    | None =>
      let (removeErr, sys3) := os_Remove (dbPath h) sys2 in
      match removeErr with
      | Some err =>
        if negb (IsNotExist err)
        then (Returned (Some (Errorf_w "failed to remove database file" err)), sys3)
        else (Returned None, snd (os_Remove (dbPath h +:+ ".wal") sys3))
      | None => (Returned None, snd (os_Remove (dbPath h +:+ ".wal") sys3))
      end
    end
  end.

End Database.

(** ** pkg/snapshot *)

Module Snapshot.
Import Go.

Fixpoint dropBytes (n : nat) (s : string) : string :=
  match n, s with
  | O, _ => s
  | S n', String _ s' => dropBytes n' s'
  | S _, EmptyString => EmptyString
  end.

(** [strings.TrimPrefix]. *)
Definition TrimPrefix (s prefix : string) : string :=
  if HasPrefix s prefix then dropBytes (String.length prefix) s else s.

(** What is before the first [sep] of [s] and what is after it. *)
Fixpoint cut (sep : ascii) (s : string) : option (string * string) :=
  match s with
  | EmptyString => None
  | String c s' =>
    if Ascii.eqb c sep then Some (EmptyString, s')
    else match cut sep s' with
         | Some (before, after) => Some (String c before, after)
         | None => None
         end
  end.

(** [strings.SplitN(s, sep, 2)] for a separator of one byte. *)
Definition SplitN2 (s : string) (sep : ascii) : list string :=
  match cut sep s with
  | Some (before, after) => [before; after]
  | None => [s]
  end.

(** [ParseS3URI]: the bucket and the key of [s3://bucket/key]. *)
Definition ParseS3URI (s3URI : string) : (string * string) + error :=
  if negb (HasPrefix s3URI "s3://")
  then inr (errorString "invalid S3 URI: must start with s3://")
  else
    let path := TrimPrefix s3URI "s3://" in
    match SplitN2 path "/" with
    | [bucket; key] =>
      if String.eqb bucket EmptyString || String.eqb key EmptyString
      then inr (errorString "invalid S3 URI: bucket and key cannot be empty")
      else inl (bucket, key)
    | _ =>
      inr (errorString "invalid S3 URI: must contain bucket and key (s3://bucket/key)")
    end.

(** The store and the file system, as far as the snapshots use them. *)
Class Storage := {
  Cloud : Type;
  LoadDefaultConfig : Cloud -> option error * Cloud;
  os_Create : string -> Cloud -> option error * Cloud;
  os_Open : string -> Cloud -> option error * Cloud;
  file_Stat : string -> Cloud -> option error * Cloud;
  Download : string -> string -> string -> Cloud -> option error * Cloud;
  Upload : string -> string -> string -> Cloud -> option error * Cloud
}.

(** The operations asked of them, recorded beside their state. *)
Inductive Op :=
| OpLoadConfig
| OpCreate (path : string)
| OpOpen (path : string)
| OpStat (path : string)
| OpDownload (bucket key path : string)
| OpUpload (path bucket key : string).

Section Snapshots.
Context {SG : Storage}.

Record Site := { cloud : Cloud; ops : list Op }.

Definition ask (o : Op) (op : Cloud -> option error * Cloud) (st : Site)
  : option error * Site :=
  let (err, c) := op (cloud st) in (err, {| cloud := c; ops := ops st ++ [o] |}).

(** [NewS3Client]: the client is made of the configuration, which is what
    can fail. *)
Definition NewS3Client (st : Site) : option error * Site :=
  match ask OpLoadConfig LoadDefaultConfig st with
  | (Some err, st1) => (Some (Errorf_w "failed to load AWS config" err), st1)
  | (None, st1) => (None, st1)
  end.

(** [S3Client.DownloadSnapshot]. *)
Definition DownloadSnapshot (s3URI localPath : string) (st : Site)
  : option error * Site :=
  match ParseS3URI s3URI with
  | inr err => (Some err, st)
  | inl (bucket, key) =>
    match ask (OpCreate localPath) (os_Create localPath) st with
    | (Some err, st1) => (Some (Errorf_w "failed to create local file" err), st1)
    | (None, st1) =>
      match ask (OpDownload bucket key localPath) (Download bucket key localPath) st1 with
      | (Some err, st2) =>
        (Some (Errorf_w "failed to download snapshot from S3" err), st2)
      | (None, st2) => (None, st2)
      end
    end
  end.

(** [S3Client.UploadSnapshot]: the URI of what was stored. *)
Definition UploadSnapshot (localPath bucket key : string) (st : Site)
  : (string + error) * Site :=
  match ask (OpOpen localPath) (os_Open localPath) st with
  | (Some err, st1) => (inr (Errorf_w "failed to open local file" err), st1)
  | (None, st1) =>
    match ask (OpStat localPath) (file_Stat localPath) st1 with
    | (Some err, st2) => (inr (Errorf_w "failed to get file info" err), st2)
    | (None, st2) =>
      match ask (OpUpload localPath bucket key) (Upload localPath bucket key) st2 with
      | (Some err, st3) =>
        (inr (Errorf_w "failed to upload snapshot to S3" err), st3)
      | (None, st3) => (inl ("s3://" +:+ bucket +:+ "/" +:+ key), st3)
      end
    end
  end.

(** [loadSnapshotFromS3] of [pkg/database]. *)
Definition loadSnapshotFromS3 (s3URI dbPath : string) (st : Site)
  : option error * Site :=
  match NewS3Client st with
  | (Some err, st1) => (Some (Errorf_w "failed to create S3 client" err), st1)
  | (None, st1) =>
    match DownloadSnapshot s3URI dbPath st1 with
    | (Some err, st2) => (Some (Errorf_w "failed to download snapshot" err), st2)
    | (None, st2) => (None, st2)
    end
  end.

End Snapshots.

End Snapshot.

(** ** Tables and temporary resources of pkg/database *)

Module Tables.
Import Go Database.

(** The runes of a byte string. *)
Definition runesOf (s : string) : gostring := map fst (Utf8.runes s).

(** Beside [Prepare] and [Query], the engine runs statements that return
    no rows; the host tells the date.  Both act on the world of the
    engine. *)
Class Host {RT : Runtime} := {
  db_Exec : gostring -> World -> option error * World;
  date_20060102 : World -> string
}.

Section OnHost.
Context {RT : Runtime} {HO : Host}.

(** The engine with the statements it was given to run. *)
Record Session := { engine : State; execs : list gostring }.

Definition exec (statement : gostring) (s : Session) : option error * Session :=
  let (err, w) := db_Exec statement (world (engine s)) in
  (err, {| engine := {| world := w; calls := calls (engine s) |};
           execs := execs s ++ [statement] |}).

(** The texts built with [fmt.Sprintf].  The name is put between ASCII
    text, so the runes of the text are the runes of its parts. *)
Definition dropTableSQL (tableName : gostring) : gostring :=
  lit "DROP TABLE IF EXISTS " ++ sanitizeTableName tableName.

Definition createTableSQL (tableName csvPath : gostring) (hasHeader : bool) : gostring :=
  lit "CREATE TABLE " ++ sanitizeTableName tableName
  ++ lit " AS SELECT * FROM read_csv('" ++ csvPath
  ++ lit "', header=" ++ lit (if hasHeader then "true" else "false")
  ++ lit ", auto_detect=true, sample_size=-1, normalize_names=true);".

(** [createTableFromCSVDirectly]. *)
Definition createTableFromCSVDirectly (h : DuckDB) (tableName csvPath : gostring)
           (hasHeader override : bool) (s : Session) : option error * Session :=
  match db h with
  | None => (Some (errorString "database connection is closed"), s)
  | Some _ =>
    let dropped :=
      if override then
        match exec (dropTableSQL tableName) s with
        | (Some err, s1) => (Some (Errorf_w "failed to drop table" err), s1)
        | (None, s1) => (None, s1)
        end
      else (None, s) in
    match dropped with
    | (Some err, s1) => (Some err, s1)
    | (None, s1) =>
      match exec (createTableSQL tableName csvPath hasHeader) s1 with
      | (Some err, s2) => (Some (Errorf_w "failed to create table from CSV" err), s2)
      | (None, s2) => (None, s2)
      end
    end
  end.

Definition CreateTableFromCSV (h : DuckDB) (tableName csvPath : gostring)
           (hasHeader override : bool) (s : Session) : option error * Session :=
  createTableFromCSVDirectly h tableName csvPath hasHeader override s.

(** *** The cleanup worker

    The worker is one loop around a [select]: it handles one event at a
    time, and the events are what the model is given.  The clock is read
    while an event is handled, so an event carries the reading.  A tick
    ranges over the map of resources; the order of that is not specified,
    so a tick carries it too.  Durations are nanoseconds. *)
Definition retention : Z := 30 * 60 * 1000000000.

Inductive Event :=
| Done
| Queued (resource : string) (now : Z)
| Tick (now : Z) (order : list string).

(** The [range] of a tick over the resources, in [order]: what has
    expired is deleted, a temporary import table is dropped before. *)
Fixpoint sweep (now : Z) (order : list string) (resources : gmap string Z)
         (s : Session) : gmap string Z * Session :=
  match order with
  | [] => (resources, s)
  | resource :: rest =>
    match resources !! resource with
    | Some expiry =>
      if expiry <? now then
        let s1 :=
          if HasPrefix resource "tmp_import_"
          then snd (exec (dropTableSQL (runesOf resource)) s)
          else s in
        sweep now rest (delete resource resources) s1
      else sweep now rest resources s
    | None => sweep now rest resources s
    end
  end.

(** [startCleanupWorker], on the events it is given: the resources and
    the session after them, and whether the worker has returned (the
    context was done). *)
Fixpoint worker (events : list Event) (resources : gmap string Z) (s : Session)
  : gmap string Z * Session * bool :=
  match events with
  | [] => (resources, s, false)
  | Done :: _ => (resources, s, true)
  | Queued resource now :: rest =>
    worker rest (<[resource := now + retention]> resources) s
  | Tick now order :: rest =>
    let (resources1, s1) := sweep now order resources s in
    worker rest resources1 s1
  end.

Definition startCleanupWorker (events : list Event) (s : Session)
  : gmap string Z * Session * bool :=
  worker events ∅ s.

End OnHost.

End Tables.

(** ** The import stage of pkg/api *)

Module Imports.
Import Go Helpers Api Database Tables.

Section OnHost.
Context {RT : Runtime} {HO : Host}.

(** [s.db.ExecuteQuery] on a text of the api package. *)
Definition runQuery (h : DuckDB) (text : string) (s : Session)
  : (QueryResult + error) * Session :=
  let (r, st) := ExecuteQuery h (runesOf text) (engine s) in
  (r, {| engine := st; execs := execs s |}).

(** [result.Results[0][column].(int64)] when there is a first row. *)
Definition firstInt64 (column : string) (result : QueryResult) : option Z :=
  match Results result with
  | row :: _ =>
    match row !! column with
    | Some (VInt64 n) => Some n
    | _ => None
    end
  | [] => None
  end.

Definition checkTableExists (h : DuckDB) (tableName : string) (s : Session)
  : (bool + error) * Session :=
  let safeQuery :=
    "SELECT COUNT(*) as table_count FROM information_schema.tables WHERE table_schema = 'main' AND table_name = '"
    +:+ tableName +:+ "'" in
  match runQuery h safeQuery s with
  | (inr err, s1) => (inr err, s1)
  | (inl result, s1) =>
    (inl match firstInt64 "table_count" result with
         | Some count => 0 <? count
         | None => false
         end, s1)
  end.

Definition getColumnInfo (h : DuckDB) (tableName : string) (s : Session)
  : (QueryResult + list CSVError * error) * Session :=
  match runQuery h ("PRAGMA table_info(" +:+ tableName +:+ ")") s with
  | (inr err, s1) =>
    (inr ([plainError "TABLE_INFO_ERROR" "Failed to get table column information"],
          err), s1)
  | (inl columnsResult, s1) => (inl columnsResult, s1)
  end.

Definition countRows (h : DuckDB) (tableName : string) (s : Session)
  : (Z + list CSVError * error) * Session :=
  match runQuery h ("SELECT COUNT(*) as row_count FROM " +:+ tableName) s with
  | (inr err, s1) =>
    (inr ([plainError "ROW_COUNT_ERROR" "Failed to count rows in table"], err), s1)
  | (inl countResult, s1) =>
    (inl match firstInt64 "row_count" countResult with
         | Some count => count
         | None => 0
         end, s1)
  end.

(** What an import gives back: the columns, the row count and the method. *)
Record Imported := {
  columnsResult : QueryResult;
  importedRows : Z;
  import_method : string
}.

Definition directImport (h : DuckDB) (tableName tempFilePath : string)
           (hasHeader override : bool) (s : Session)
  : (Imported + list CSVError * error) * Session :=
  match CreateTableFromCSV h (runesOf tableName) (runesOf tempFilePath)
                           hasHeader override s with
  | (Some err, s1) =>
    (inr ([plainError "DIRECT_IMPORT_FAILED"
                      ("Failed to create table from CSV: " +:+ Error err)], err), s1)
  | (None, s1) =>
    match getColumnInfo h tableName s1 with
    | (inr failure, s2) => (inr failure, s2)
    | (inl columns, s2) =>
      match countRows h tableName s2 with
      | (inr failure, s3) => (inr failure, s3)
      | (inl rowCount, s3) =>
        (inl {| columnsResult := columns; importedRows := rowCount;
                import_method := "direct_import" |}, s3)
      end
    end
  end.

Definition duplicateError (tableName : string) (s : Session) : CSVError :=
  {| Code := "DUPLICATE_TABLE_NAME";
     Message := "Table '" +:+ tableName
                +:+ "' already exists. Use override=true to replace it or choose a different table name.";
     Details :=
       {| dLine := 0; dColumn := EmptyString; dExpectedType := EmptyString;
          dFoundValue := EmptyString;
          dSuggestion :=
            "Either set override=true in your request to replace the existing table, or choose a different table name like '"
            +:+ tableName +:+ "_v2' or '" +:+ tableName +:+ "_"
            +:+ date_20060102 (world (engine s)) +:+ "'." |} |}.

(** [importCsvData]: what was imported, or the errors it has answered
    with status 422 and the error it returns. *)
Definition importCsvData (h : DuckDB) (tableName tempFilePath : string)
           (hasHeader override : bool) (s : Session)
  : (Imported + list CSVError * error) * Session :=
  let checked :=
    if negb override then
      match checkTableExists h tableName s with
      | (inl true, s1) => (true, s1)
      | (_, s1) => (false, s1)
      end
    else (false, s) in
  match checked with
  | (true, s1) =>
    (inr ([duplicateError tableName s1],
          errorString ("table '" +:+ tableName +:+ "' already exists")), s1)
  | (false, s1) =>
    match directImport h tableName tempFilePath hasHeader override s1 with
    | (inr (importErrors, err), s2) =>
      if negb override
         && (Contains (Error err) "already exists"
             || Contains (Error err) "Catalog Error"
                && Contains (Error err) "already exists")
      then (inr ([duplicateError tableName s2], err), s2)
      else (inr (importErrors, err), s2)
    | (inl imported, s2) => (inl imported, s2)
    end
  end.

End OnHost.

End Imports.

(** ** Concrete collaborators for the examples *)

Module Samples.
Import Go Helpers Api Database.

(** An engine whose world is the clock, in nanoseconds.  Preparing takes a
    millisecond and fails on a statement that starts with [X]; running a
    statement takes two and yields one row, the length of the statement. *)
Definition sampleRuntime : Runtime :=
  {| World := Z;
     Stmt := gostring;
     now := fun w => w;
     db_Prepare := fun query w =>
       (match query with
        | 88 :: _ => inr (errorString "Parser Error: syntax error at or near X")
        | _ => inl query
        end, w + 1000000);
     stmt_Query := fun stmt w =>
       (inl {| rs_columns := inl ["n"%string];
               rs_rows := [inl [VInt64 (Z.of_nat (length stmt))]];
               rs_err := None |}, w + 2000000);
     rows_Next := fun w => w + 1000;
     rows_Close := fun w => w;
     stmt_Close := fun _ w => w;
     mul_0_8 := fun ms => ms * 4 / 5 |}.

Definition sampleHandle : DuckDB :=
  {| db := Some SqlDB; dbPath := "/tmp/duckdb_sample.db"; cancelFunc := Some Cancel |}.

Definition sampleState : @State sampleRuntime := @Build_State sampleRuntime 0 [].

(** The process around a fresh handle: the connection open, the database
    file on disk. *)
Definition sampleSys : Sys :=
  {| sql_closed := false; driver_close_err := None;
     files := {[ "/tmp/duckdb_sample.db"%string ]}; protected := ∅;
     cancelled := false |}.

(** Collaborators of the upload path: a detector that reports ASCII, a
    structure check that passes, MIME sniffing that passes, a temporary
    file that takes every write, and an import that reports one row. *)
Definition sampleCollaborators : Collaborators :=
  {| detectEncoding := fun _ => "Ascii"%string;
     ValidateCSVFileFromData := fun _ =>
       inl {| Valid := true; ColumnCount := 2; ErrorMessage := EmptyString |};
     validateMimeType := fun _ => ([], None);
     TempFile := string;
     createTempFile := fun tableName =>
       inl ("/tmp/upload_" +:+ tableName +:+ ".csv", EmptyString);
     tempWrite := bufferWrite;
     UploadResult := Z;
     importCsvData := fun _ _ _ _ => inr 1 |}.

(** The environment with no variable set. *)
Definition emptyEnv : Env := fun _ => EmptyString.

(** A single line of 36 bytes without line end, read through a buffer of
    4 bytes. *)
Definition oneLongLine : Source := readerOf 4 "this data exceeds the max size limit".

(** An upload of [content] as [data.csv] into table [t], declared with
    [encoding]; the file arrives in one read. *)
Definition uploadOf (content encoding : string) : CSVRequest :=
  {| TableName := "t";
     CSVFile := {| Filename := "data.csv"; Size := len content;
                   Open := inl [ {| rd_data := content; rd_err := None |} ] |};
     rHasHeader := true; Override := false; Smart := true;
     FileEncoding := encoding |}.

(** A header and a row with a formula. *)
Definition formulaCsv : string :=
  "id,name" +:+ str1 LF +:+ "1,=CMD('calc')" +:+ str1 LF.

(** A header and a row with a formula that holds a comma. *)
Definition sumCsv : string :=
  "id,name" +:+ str1 LF +:+ "1,=SUM(A1,B1)" +:+ str1 LF.

(** A header and a plain row, all ASCII. *)
Definition plainCsv : string :=
  "id,name" +:+ str1 LF +:+ "1,alice" +:+ str1 LF.

End Samples.

(** * Properties *)

Module GoFacts.
Import Go.

Lemma wrap64_small n : - 2 ^ 63 <= n < 2 ^ 63 -> wrap64 n = n.
Proof. intros H. unfold wrap64. rewrite Z.mod_small; lia. Qed.

End GoFacts.

Module TableNames.
Import Go Database.

(** The character class [[A-Za-z0-9_]], stated on code points. *)
Definition in_name_class (r : rune) : Prop :=
  (65 <= r <= 90) \/ (97 <= r <= 122) \/ (48 <= r <= 57) \/ r = 95.

Lemma sanitizeRune_class r : in_name_class (sanitizeRune r).
Proof.
  unfold sanitizeRune, in_name_class.
  destruct (_ || _) eqn:E; [|lia].
  repeat (apply orb_prop in E; destruct E as [E|E]);
    try (apply andb_prop in E; destruct E); lia.
Qed.

Lemma sanitizeRune_keeps r : in_name_class r -> sanitizeRune r = r.
Proof.
  unfold sanitizeRune, in_name_class. intros H.
  destruct (_ || _) eqn:E; [reflexivity|].
  repeat (apply orb_false_elim in E; destruct E as [E ?]).
  repeat match goal with
         | H : (_ && _) = false |- _ => apply andb_false_iff in H
         end.
  lia.
Qed.

Lemma sanitizeRune_replaces r : ~ in_name_class r -> sanitizeRune r = 95.
Proof.
  intros H. unfold sanitizeRune.
  destruct (_ || _) eqn:E; [|reflexivity].
  exfalso. apply H. unfold in_name_class.
  repeat (apply orb_prop in E; destruct E as [E|E]);
    try (apply andb_prop in E; destruct E); lia.
Qed.

Lemma class_rune_written r :
  in_name_class r -> (r <? 0) = false /\ ValidRune r = true.
Proof.
  unfold in_name_class, ValidRune, MaxRune. intros H. split.
  - lia.
  - apply orb_true_iff. left. apply andb_true_iff. lia.
Qed.

Lemma sanitizeTableName_map t :
  sanitizeTableName t = sanitizeRune <$> t.
Proof.
  unfold sanitizeTableName, strings_Map.
  induction t as [|r t IH]; [reflexivity|].
  cbn [flat_map fmap list_fmap]. rewrite IH.
  destruct (class_rune_written _ (sanitizeRune_class r)) as [-> ->].
  reflexivity.
Qed.

(** C2.  Every rune of the sanitized name is in [[A-Za-z0-9_]]; the output
    has as many runes as the input; at every position a rune of the class is
    kept and any other rune is replaced by ['_']. *)
Theorem sanitizeTableName_spec (t : gostring) :
  Forall in_name_class (sanitizeTableName t)
  /\ length (sanitizeTableName t) = length t
  /\ (forall (i : nat) (r : rune), t !! i = Some r ->
        (in_name_class r -> sanitizeTableName t !! i = Some r)
        /\ (~ in_name_class r -> sanitizeTableName t !! i = Some 95)).
Proof.
  rewrite sanitizeTableName_map. split; [|split].
  - apply Forall_fmap, Forall_true. intros r. apply sanitizeRune_class.
  - apply length_fmap.
  - intros i r Hi. rewrite list_lookup_fmap, Hi. cbn. split; intros H.
    + now rewrite sanitizeRune_keeps.
    + now rewrite sanitizeRune_replaces.
Qed.

End TableNames.




(** ** The statement splitter *)

Module Splitting.
Import Go Database.

(** The segments joined again, a [;] between neighbours. *)
Fixpoint join (segments : list gostring) : gostring :=
  match segments with
  | [] => []
  | [s] => s
  | s :: rest => s ++ 59 :: join rest
  end.

Definition nonEmpty (s : gostring) : bool := (0 <? length s)%nat.

(** The statements of a submission: its non-empty segments. *)
Definition statements (query : gostring) : list gostring :=
  filter (fun s => nonEmpty s = true) (splitQueryBySemicolon query).

(** Re-joining with [;] between the non-empty segments. *)
Definition rejoin (query : gostring) : gostring := join (statements query).

(** A segment holds no separator: scanned on its own it stays one piece. *)
Definition sepfree (s : gostring) : Prop :=
  queries (splitLoop splitInit s) = [] /\ currentQuery (splitLoop splitInit s) = s.

(** A segment that also ends outside quotes and escapes. *)
Definition closed (s : gostring) : Prop :=
  splitLoop splitInit s =
  {| queries := []; currentQuery := s; inQuote := false; escapeNext := false |}.

(** [st] with the segments [Q] and the partial segment [c] put in front. *)
Definition attach (Q : list gostring) (c : gostring) (st : splitState) : splitState :=
  {| queries := match queries st with
                | [] => Q
                | h :: t => Q ++ (c ++ h) :: t
                end;
     currentQuery := match queries st with
                     | [] => c ++ currentQuery st
                     | _ => currentQuery st
                     end;
     inQuote := inQuote st;
     escapeNext := escapeNext st |}.

Lemma splitLoop_app st a b :
  splitLoop st (a ++ b) = splitLoop (splitLoop st a) b.
Proof. unfold splitLoop. apply fold_left_app. Qed.

Lemma splitLoop_snoc st a x :
  splitLoop st (a ++ [x]) = splitStep (splitLoop st a) x.
Proof. rewrite splitLoop_app. reflexivity. Qed.

Lemma splitStep_attach Q c st x :
  splitStep (attach Q c st) x = attach Q c (splitStep st x).
Proof.
  destruct st as [qs cur iq en]. unfold splitStep, attach. cbn.
  destruct en; cbn.
  - destruct qs; cbn; f_equal; now rewrite ?app_assoc.
  - destruct (x =? 92); cbn.
    + destruct qs; cbn; f_equal; now rewrite ?app_assoc.
    + destruct ((x =? 34) || (x =? 39)); cbn.
      * destruct qs; cbn; f_equal; now rewrite ?app_assoc.
      * destruct ((x =? 59) && negb iq); cbn.
        -- destruct qs; cbn; f_equal; now rewrite <- ?app_assoc.
        -- destruct qs; cbn; f_equal; now rewrite ?app_assoc.
Qed.

Lemma splitLoop_attach Q c st s :
  splitLoop (attach Q c st) s = attach Q c (splitLoop st s).
Proof.
  revert st. induction s as [|x s IH]; intros st; [reflexivity|].
  cbn. rewrite splitStep_attach. apply IH.
Qed.

Lemma closed_sepfree s : closed s -> sepfree s.
Proof. unfold closed, sepfree. intros ->. split; reflexivity. Qed.

Lemma sepfree_nil : sepfree [].
Proof. split; reflexivity. Qed.

Lemma join_cons s rest :
  rest <> [] -> join (s :: rest) = s ++ 59 :: join rest.
Proof. destruct rest; [congruence|reflexivity]. Qed.

Lemma join_snoc_char Q c x : join (Q ++ [c ++ [x]]) = join (Q ++ [c]) ++ [x].
Proof.
  induction Q as [|s Q IH]; [reflexivity|].
  cbn [app join]. destruct (Q ++ [c ++ [x]]) eqn:E1; [now destruct Q|].
  destruct (Q ++ [c]) eqn:E2; [now destruct Q|].
  rewrite IH. now rewrite <- app_assoc.
Qed.

Lemma join_snoc_nil Q c : join ((Q ++ [c]) ++ [[]]) = join (Q ++ [c]) ++ [59].
Proof.
  induction Q as [|s Q IH]; [reflexivity|].
  cbn [app join]. destruct ((Q ++ [c]) ++ [[]]) eqn:E1; [now destruct Q|].
  destruct (Q ++ [c]) eqn:E2; [now destruct Q|].
  rewrite IH. now rewrite <- app_assoc.
Qed.

(** What the scan of a whole submission has collected: closed segments, a
    last piece without separator whose own scan ends in the same quoting
    state, and together they spell the submission. *)
Lemma splitLoop_segments q :
  let st := splitLoop splitInit q in
  Forall closed (queries st)
  /\ splitLoop splitInit (currentQuery st) =
     {| queries := []; currentQuery := currentQuery st;
        inQuote := inQuote st; escapeNext := escapeNext st |}
  /\ q = join (queries st ++ [currentQuery st]).
Proof.
  induction q as [|x q IH] using rev_ind; [now repeat split|].
  cbn zeta in *. rewrite splitLoop_snoc.
  destruct (splitLoop splitInit q) as [Q c iq en]. cbn in IH.
  destruct IH as (HQ & Hc & Hq).
  assert (Hstep : forall st', splitStep {| queries := Q; currentQuery := c;
                                           inQuote := iq; escapeNext := en |} x = st' ->
            queries st' = Q -> currentQuery st' = c ++ [x] ->
            splitStep {| queries := []; currentQuery := c;
                         inQuote := iq; escapeNext := en |} x =
            {| queries := []; currentQuery := c ++ [x];
               inQuote := inQuote st'; escapeNext := escapeNext st' |} ->
            Forall closed (queries st')
            /\ splitLoop splitInit (currentQuery st') =
               {| queries := []; currentQuery := currentQuery st';
                  inQuote := inQuote st'; escapeNext := escapeNext st' |}
            /\ q ++ [x] = join (queries st' ++ [currentQuery st'])).
  { intros st' _ E1 E2 E3. rewrite E1, E2. split; [exact HQ|]. split.
    - rewrite splitLoop_snoc. unfold splitLoop in *. rewrite Hc. exact E3.
    - rewrite join_snoc_char. now rewrite <- Hq. }
  destruct en; [apply (Hstep _ eq_refl); reflexivity|].
  destruct (x =? 92) eqn:E92;
    [apply (Hstep _ eq_refl); unfold splitStep; cbn; rewrite E92; reflexivity|].
  destruct ((x =? 34) || (x =? 39)) eqn:Eq;
    [apply (Hstep _ eq_refl); unfold splitStep; cbn; rewrite E92, Eq; reflexivity|].
  destruct ((x =? 59) && negb iq) eqn:Ex;
    [|apply (Hstep _ eq_refl); unfold splitStep; cbn; rewrite E92, Eq, ?Ex;
      try reflexivity; destruct (x =? 59); reflexivity].
  apply andb_true_iff in Ex as [Ex Hiq]. apply Z.eqb_eq in Ex. subst x.
  destruct iq; [discriminate|].
  unfold splitStep. cbn. split; [|split].
  - apply Forall_app. split; [exact HQ|]. constructor; [exact Hc|constructor].
  - reflexivity.
  - rewrite join_snoc_nil. now rewrite <- Hq.
Qed.

(** Scanning closed segments joined by [;] and a last piece gives them back. *)
Lemma splitLoop_join Q l :
  Forall closed Q -> sepfree l ->
  splitLoop splitInit (join (Q ++ [l])) =
  {| queries := Q; currentQuery := l;
     inQuote := inQuote (splitLoop splitInit l);
     escapeNext := escapeNext (splitLoop splitInit l) |}.
Proof.
  intros HQ [Hl1 Hl2]. induction HQ as [|s Q Hs HQ IH].
  - cbn [app join]. destruct (splitLoop splitInit l) as [a b c d].
    cbn in *. now subst.
  - cbn [app]. rewrite join_cons by (now destruct Q).
    rewrite splitLoop_app, Hs. cbn [splitLoop fold_left].
    change (fold_left splitStep (join (Q ++ [l])) ?st)
      with (splitLoop st (join (Q ++ [l]))).
    change (splitStep _ 59) with (attach [s] [] splitInit).
    rewrite splitLoop_attach, IH. unfold attach. cbn.
    destruct Q; reflexivity.
Qed.

Lemma split_join Q l :
  Forall closed Q -> sepfree l ->
  splitQueryBySemicolon (join (Q ++ [l])) = if nonEmpty l then Q ++ [l] else Q.
Proof.
  intros HQ Hl. unfold splitQueryBySemicolon.
  rewrite splitLoop_join by assumption. reflexivity.
Qed.

Abbreviation keep := (fun s : gostring => nonEmpty s = true).

Lemma filter_keeps (P : gostring -> Prop) L :
  Forall P L -> Forall P (filter keep L).
Proof.
  induction 1 as [|a L Ha HL IH]; [constructor|].
  rewrite filter_cons. destruct (decide (keep a)); [constructor|]; assumption.
Qed.

Lemma filter_all_nonEmpty L : Forall keep (filter keep L).
Proof.
  induction L as [|a L IH]; [constructor|].
  rewrite filter_cons. destruct (decide (keep a)); [constructor|]; assumption.
Qed.

Lemma filter_id L : Forall keep L -> filter keep L = L.
Proof.
  induction 1 as [|a L Ha HL IH]; [reflexivity|].
  rewrite filter_cons_True by assumption. now rewrite IH.
Qed.

Lemma filter_snoc Q c :
  nonEmpty c = true -> filter keep (Q ++ [c]) = filter keep Q ++ [c].
Proof.
  intros H. rewrite filter_app. f_equal.
  rewrite filter_cons_True by exact H. reflexivity.
Qed.

Lemma split_join_closed L :
  Forall closed L -> Forall keep L -> splitQueryBySemicolon (join L) = L.
Proof.
  intros HL HN. destruct L as [|a L' _] using rev_ind; [reflexivity|].
  apply Forall_app in HL as [HL Ha]. apply Forall_app in HN as [_ Hn].
  inversion Ha; subst. inversion Hn; subst.
  rewrite split_join; auto using closed_sepfree.
  now rewrite H3.
Qed.

(** *** The quoting rules, in the words of the specification

    [in_quote] toggles on a single or a double quote; [escape_next] is set
    after a backslash and suppresses the special meaning of the next
    character.  [quoting] is the
    state in which a text leaves a reader that began it in the given
    state. *)
Fixpoint quoting (in_quote escape_next : bool) (text : gostring) : bool * bool :=
  match text with
  | [] => (in_quote, escape_next)
  | c :: rest =>
    if escape_next then quoting in_quote false rest
    else if c =? 92 then quoting in_quote true rest
    else if (c =? 34) || (c =? 39) then quoting (negb in_quote) false rest
    else quoting in_quote false rest
  end.

(** A text that ends outside quotes and escapes. *)
Definition balanced (text : gostring) : Prop :=
  quoting false false text = (false, false).

(** Rune [i] of [q] is a separator: a [;] that the text before it leaves
    outside quotes and unescaped. *)
Definition separator (q : gostring) (i : nat) : bool :=
  match q !! i with
  | Some c =>
    let (in_quote, escape_next) := quoting false false (take i q) in
    (c =? 59) && negb in_quote && negb escape_next
  | None => false
  end.

Definition separators (q : gostring) : list bool :=
  map (separator q) (seq 0 (length q)).

(** The pieces of [q] between its marked runes; the marked runes are left
    out, every other rune stays in its piece. *)
Fixpoint cut (marks : list bool) (q : gostring) : list gostring :=
  match marks, q with
  | m :: marks', c :: q' =>
    if m then [] :: cut marks' q'
    else match cut marks' q' with
         | piece :: pieces => (c :: piece) :: pieces
         | [] => [[c]]
         end
  | _, _ => [[]]
  end.

(** A last piece that is empty is not a segment. *)
Definition dropEmptyLast (pieces : list gostring) : list gostring :=
  if nonEmpty (List.last pieces []) then pieces else removelast pieces.

Lemma quoting_app iq en a b :
  quoting iq en (a ++ b)
  = quoting (fst (quoting iq en a)) (snd (quoting iq en a)) b.
Proof.
  revert iq en. induction a as [|c a IH]; intros iq en; cbn [quoting app fst snd].
  - reflexivity.
  - destruct en; [apply IH|]. destruct (c =? 92); [apply IH|].
    destruct ((c =? 34) || (c =? 39)); apply IH.
Qed.

Lemma separator_before q x i :
  (i < length q)%nat -> separator (q ++ [x]) i = separator q i.
Proof.
  intros Hi. unfold separator.
  rewrite lookup_app_l by exact Hi. rewrite take_app_le by lia. reflexivity.
Qed.

Lemma separator_at_end q x :
  separator (q ++ [x]) (length q)
  = let (in_quote, escape_next) := quoting false false q in
    (x =? 59) && negb in_quote && negb escape_next.
Proof.
  unfold separator. rewrite list_lookup_middle by reflexivity.
  rewrite take_app_length. reflexivity.
Qed.

Lemma separators_snoc q x :
  separators (q ++ [x]) = separators q ++ [separator (q ++ [x]) (length q)].
Proof.
  unfold separators. rewrite length_app. cbn [length].
  rewrite Nat.add_1_r, seq_S, map_app. cbn [map Nat.add]. f_equal.
  apply map_ext_in. intros i Hi. apply in_seq in Hi.
  apply separator_before. lia.
Qed.

Lemma length_separators q : length (separators q) = length q.
Proof. unfold separators. now rewrite length_map, length_seq. Qed.

Lemma cut_nonempty marks q : cut marks q <> [].
Proof.
  destruct marks as [|m marks], q as [|c q]; cbn [cut]; try discriminate.
  destruct m; [discriminate|]. destruct (cut marks q); discriminate.
Qed.

Lemma cut_snoc marks q m x :
  length marks = length q ->
  cut (marks ++ [m]) (q ++ [x])
  = if m then cut marks q ++ [[]]
    else removelast (cut marks q) ++ [List.last (cut marks q) [] ++ [x]].
Proof.
  revert q. induction marks as [|m0 marks IH]; intros q Hlen.
  - destruct q; [|discriminate]. destruct m; reflexivity.
  - destruct q as [|c q]; [discriminate|]. injection Hlen as Hlen.
    cbn [app cut]. rewrite (IH q Hlen).
    pose proof (cut_nonempty marks q) as Hne.
    destruct (cut marks q) as [|piece pieces]; [congruence|].
    destruct m0, m; try reflexivity.
    destruct pieces; reflexivity.
Qed.

(** The loop is the cut at the separators, and it keeps the quoting state
    of the specification. *)
Lemma splitLoop_cut q :
  cut (separators q) q
  = queries (splitLoop splitInit q) ++ [currentQuery (splitLoop splitInit q)]
  /\ quoting false false q
     = (inQuote (splitLoop splitInit q), escapeNext (splitLoop splitInit q)).
Proof.
  induction q as [|x q [IHc IHq]] using rev_ind; [split; reflexivity|].
  rewrite splitLoop_snoc, separators_snoc, separator_at_end, quoting_app.
  rewrite cut_snoc by apply length_separators.
  rewrite IHc, IHq, removelast_last, last_last. cbn [fst snd quoting].
  destruct (splitLoop splitInit q) as [Q c iq en].
  unfold splitStep. cbn [queries currentQuery inQuote escapeNext].
  destruct en.
  { rewrite !andb_false_r. split; reflexivity. }
  destruct (x =? 92) eqn:E92.
  { apply Z.eqb_eq in E92. subst x. split; reflexivity. }
  destruct ((x =? 34) || (x =? 39)) eqn:Eq.
  { assert ((x =? 59) = false) as ->.
    { apply orb_true_iff in Eq as [E|E]; apply Z.eqb_eq in E; now subst x. }
    split; reflexivity. }
  rewrite andb_true_r.
  destruct ((x =? 59) && negb iq); cbn [queries currentQuery inQuote escapeNext].
  - split; [now rewrite <- app_assoc|reflexivity].
  - split; reflexivity.
Qed.

Lemma closed_balanced s : closed s -> balanced s.
Proof.
  intros H. unfold balanced. rewrite (proj2 (splitLoop_cut s)).
  unfold closed in H. now rewrite H.
Qed.

(** C4.  Re-joining the segments of a submission with [;] between the
    non-empty ones gives a submission that the split state machine reads as
    the same statements.  Every segment is free of separators when scanned
    under the quoting rules, so a semicolon inside quotes, or escaped, stays
    inside its segment; and the submission itself is its segments joined by
    [;], up to the separator that ended the last one: only separator
    semicolons are removed.  The cuts are the ones of the specification:
    the segments are the pieces of the submission between its separators,
    the semicolons read outside quotes and unescaped under the quoting
    rules as the specification words them, less an empty last piece; so
    every segment that a separator ends is balanced. *)
Theorem split_rejoin_equivalent (q : gostring) :
  statements (rejoin q) = statements q
  /\ Forall sepfree (splitQueryBySemicolon q)
  /\ (exists tail, (tail = [] \/ tail = [59])
                   /\ q = join (splitQueryBySemicolon q) ++ tail)
  /\ splitQueryBySemicolon q = dropEmptyLast (cut (separators q) q)
  /\ Forall balanced (removelast (splitQueryBySemicolon q)).
Proof.
  destruct (splitLoop_segments q) as (HQ & Hc & Hq).
  destruct (splitLoop_cut q) as [Hcut _].
  assert (Hsep : sepfree (currentQuery (splitLoop splitInit q))).
  { unfold sepfree, splitLoop in *. rewrite Hc. split; reflexivity. }
  set (st := splitLoop splitInit q) in *.
  assert (Hsplit : splitQueryBySemicolon q =
                   if nonEmpty (currentQuery st)
                   then queries st ++ [currentQuery st] else queries st)
    by reflexivity.
  assert (Hdrop : splitQueryBySemicolon q = dropEmptyLast (cut (separators q) q)).
  { rewrite Hsplit, Hcut. unfold dropEmptyLast. rewrite last_last, removelast_last.
    reflexivity. }
  assert (Hbal : Forall balanced (queries st)).
  { eapply Forall_impl; [exact HQ|]. intros. now apply closed_balanced. }
  unfold rejoin, statements. rewrite <- Hdrop, Hsplit. clear Hsplit Hdrop.
  destruct (nonEmpty (currentQuery st)) eqn:Hne; repeat apply conj.
  - rewrite filter_snoc by exact Hne.
    rewrite split_join by auto using filter_keeps.
    rewrite Hne. rewrite filter_snoc by exact Hne.
    f_equal. apply filter_id, filter_all_nonEmpty.
  - apply Forall_app. split.
    + eapply Forall_impl; [exact HQ|]. intros. now apply closed_sepfree.
    + now constructor.
  - exists []. split; [now left|]. now rewrite app_nil_r.
  - reflexivity.
  - now rewrite removelast_last.
  - rewrite split_join_closed by auto using filter_keeps, filter_all_nonEmpty.
    apply filter_id, filter_all_nonEmpty.
  - eapply Forall_impl; [exact HQ|]. intros. now apply closed_sepfree.
  - unfold nonEmpty in Hne. apply Nat.ltb_ge in Hne.
    destruct (currentQuery st) as [|? ?] eqn:Ec; [|cbn in Hne; lia].
    destruct (queries st) as [|c' Q' _] using rev_ind.
    + exists []. split; [now left|]. exact Hq.
    + exists [59]. split; [now right|]. now rewrite Hq, join_snoc_nil.
  - reflexivity.
  - destruct (queries st) as [|c' Q' _] using rev_ind; [constructor|].
    rewrite removelast_last. now apply Forall_app in Hbal as [Hbal _].
Qed.

End Splitting.

(** ** Facts about the regular expression matcher *)

Module RegexpFacts.
Import Go Regexp.

(** No rune lies in a range of both lists. *)
Definition ranges_disjoint (rs1 rs2 : list (Z * Z)) : bool :=
  forallb (fun a => forallb (fun b => (snd a <? fst b) || (snd b <? fst a)) rs2) rs1.

(** An item that every match must take a character for, and that takes
    none of the alphabet [sigma]. *)
Definition item_dead (sigma : list (Z * Z)) (it : atom * quant) : bool :=
  match it with
  | (ACls c, QOne) | (ACls c, QPlus) =>
    negb (cc_neg c) && ranges_disjoint sigma (cc_ranges c)
  | _ => false
  end.

Lemma ranges_disjoint_sound rs1 rs2 r :
  ranges_disjoint rs1 rs2 = true -> in_ranges rs1 r = true -> in_ranges rs2 r = false.
Proof.
  unfold ranges_disjoint, in_ranges. intros Hd H1.
  apply existsb_exists in H1 as [a [Ha Hr]].
  rewrite forallb_forall in Hd. specialize (Hd a Ha).
  rewrite forallb_forall in Hd.
  apply not_true_is_false. intros H2.
  apply existsb_exists in H2 as [b [Hb Hr2]].
  specialize (Hd b Hb). lia.
Qed.

Lemma flat_map_nil {A B : Type} (f : A -> list B) (l : list A) :
  (forall x, In x l -> f x = []) -> flat_map f l = [].
Proof.
  induction l as [|a l IH]; intros H; [reflexivity|].
  cbn. rewrite (H a) by now left. apply IH. intros x Hx. apply H. now right.
Qed.

Section Carrier.
Context {C : Type} (rune_of : C -> rune).

Abbreviation suffix_of p q := (exists pre : list C, snd p = pre ++ snd q).

Lemma step_atom_suffix a (p q : pos) :
  In q (step_atom rune_of a p) -> suffix_of p q.
Proof.
  destruct a as [c|]; cbn.
  - destruct (snd p) as [|x s'] eqn:E; [intros []|].
    destruct (class_mem c (rune_of x)); [|intros []].
    intros [<-|[]]. exists [x]. reflexivity.
  - destruct (xorb _ _); [|intros []]. intros [<-|[]]. now exists [].
Qed.

Lemma star_suffix a n (p q : pos) :
  In q (star rune_of a n p) -> suffix_of p q.
Proof.
  revert p. induction n as [|n IH]; intros p; cbn [star].
  - intros [<-|[]]. now exists [].
  - intros H. apply in_app_or in H as [H|[<-|[]]]; [|now exists []].
    apply in_flat_map in H as [m [Hm Hq]].
    destruct (length (snd m) <? length (snd p))%nat; [|destruct Hq].
    apply step_atom_suffix in Hm as [pre1 E1].
    apply IH in Hq as [pre2 E2].
    exists (pre1 ++ pre2). now rewrite E1, E2, app_assoc.
Qed.

Lemma step_item_suffix it (p q : pos) :
  In q (step_item rune_of it p) -> suffix_of p q.
Proof.
  destruct it as [a []]; unfold step_item; cbn [fst snd].
  - apply step_atom_suffix.
  - apply star_suffix.
  - intros H. apply in_flat_map in H as [m [Hm Hq]].
    apply step_atom_suffix in Hm as [pre1 E1].
    apply star_suffix in Hq as [pre2 E2].
    exists (pre1 ++ pre2). now rewrite E1, E2, app_assoc.
  - intros H. apply in_app_or in H as [H|[<-|[]]]; [|now exists []].
    now apply step_atom_suffix in H.
Qed.

Abbreviation over sigma s := (Forall (fun c : C => in_ranges sigma (rune_of c) = true) s).

Lemma step_atom_dead sigma c (p : pos) :
  cc_neg c = false -> ranges_disjoint sigma (cc_ranges c) = true ->
  over sigma (snd p) -> step_atom rune_of (ACls c) p = [].
Proof.
  intros Hn Hd Hs. cbn. destruct (snd p) as [|x s']; [reflexivity|].
  inversion Hs; subst. unfold class_mem. rewrite Hn.
  now rewrite (ranges_disjoint_sound _ _ _ Hd H1).
Qed.

(** A pattern with a dead item matches nowhere in a text over [sigma]. *)
Lemma run_dead sigma re (p : pos) :
  existsb (item_dead sigma) re = true -> over sigma (snd p) -> run rune_of re p = [].
Proof.
  revert p. induction re as [|it re IH]; intros p He Hs; [discriminate|].
  cbn in He. cbn [run]. apply orb_prop in He as [He|He].
  - destruct it as [[c|] []]; cbn in He; try discriminate;
      apply andb_prop in He as [Hn Hd]; apply negb_true_iff in Hn;
      unfold step_item; cbn [fst snd];
      now rewrite (step_atom_dead sigma c p Hn Hd Hs).
  - apply flat_map_nil. intros q Hq. apply IH; [exact He|].
    apply step_item_suffix in Hq as [pre E]. rewrite E in Hs.
    now apply Forall_app in Hs as [_ Hs].
Qed.

Lemma find_dead sigma re prev s :
  existsb (item_dead sigma) re = true -> over sigma s -> find rune_of re prev s = None.
Proof.
  intros He. revert prev. induction s as [|x s IH]; intros prev Hs; cbn [find].
  - now rewrite (run_dead sigma re (prev, []) He Hs).
  - rewrite (run_dead sigma re (prev, x :: s) He Hs).
    apply IH. now inversion Hs.
Qed.

End Carrier.

Lemma MatchString_dead sigma pattern re (s : gostring) :
  Compile pattern = Some re -> existsb (item_dead sigma) re = true ->
  Forall (fun r => in_ranges sigma r = true) s ->
  MatchString pattern s = inl false.
Proof.
  intros Hc He Hs. unfold MatchString. rewrite Hc.
  rewrite (find_dead (fun r => r) sigma re None s He Hs).
  reflexivity.
Qed.

(** Substring facts for the messages. *)
Lemma HasPrefix_app (a b : string) : HasPrefix (a +:+ b) a = true.
Proof.
  induction a as [|c a IH]; [now destruct b|].
  change (String c a +:+ b) with (String c (a +:+ b)).
  cbn [HasPrefix]. now rewrite Ascii.eqb_refl, IH.
Qed.

Lemma Contains_prefix (s sub : string) : HasPrefix s sub = true -> Contains s sub = true.
Proof. intros H. destruct s; cbn [Contains]; now rewrite H. Qed.

Lemma Contains_skip (a s sub : string) :
  Contains s sub = true -> Contains (a +:+ s) sub = true.
Proof.
  intros H. induction a as [|c a IH]; [exact H|].
  change (String c a +:+ s) with (String c (a +:+ s)).
  cbn [Contains]. rewrite IH. apply orb_true_r.
Qed.

Lemma Contains_infix (a b c : string) : Contains (a +:+ b +:+ c) b = true.
Proof. apply Contains_skip, Contains_prefix, HasPrefix_app. Qed.

End RegexpFacts.

(** ** Query validation *)

Module QueryValidation.
Import Go Regexp Database RegexpFacts Samples.

(** The deny-list as the specification words it: the first pattern has no
    word boundary in front of [UNION]. *)
Definition specifiedPatterns : list string :=
  [ "(?i)UNION\b.*\bSELECT\b";
    "(?i)\bOR\b\s+\d+\s*=\s*\d+";
    "(?i)--";
    "(?i)/\*.*\*/";
    "(?i)\bEXEC\b";
    "(?i)\bXP_\w+\b" ].

Definition malicious : string := "potentially malicious SQL pattern detected".

Lemma patterns_compile pattern :
  In pattern suspiciousPatterns -> exists re, Compile pattern = Some re.
Proof.
  intros H. repeat (destruct H as [<-|H]; [eexists; vm_compute; reflexivity|]).
  destruct H.
Qed.

Lemma MatchString_total pattern q :
  In pattern suspiciousPatterns -> exists b, MatchString pattern q = inl b.
Proof.
  intros H. destruct (patterns_compile pattern H) as [re Hre].
  unfold MatchString. rewrite Hre. eauto.
Qed.

(** The loop stops at the first pattern that matches. *)
Lemma checkPatterns_hit patterns pattern q :
  (forall p, In p patterns -> exists b, MatchString p q = inl b) ->
  In pattern patterns -> MatchString pattern q = inl true ->
  exists p, In p patterns
            /\ checkPatterns patterns q = Some (errorString (malicious +:+ ": " +:+ p)).
Proof.
  induction patterns as [|p0 ps IH]; intros Hall Hin Hm; [destruct Hin|].
  cbn [checkPatterns].
  destruct (Hall p0 (or_introl eq_refl)) as [[|] Hb]; rewrite Hb.
  - exists p0. split; [now left|reflexivity].
  - destruct Hin as [->|Hin]; [congruence|].
    destruct IH as [p [Hp Hc]]; auto.
    + intros p Hp. apply Hall. now right.
    + exists p. split; [now right|exact Hc].
Qed.

Lemma checkPatterns_miss patterns q :
  (forall p, In p patterns -> MatchString p q = inl false) ->
  checkPatterns patterns q = None.
Proof.
  induction patterns as [|p0 ps IH]; intros Hall; [reflexivity|].
  cbn [checkPatterns]. rewrite (Hall p0) by now left.
  apply IH. intros p Hp. apply Hall. now right.
Qed.

Lemma checkPatterns_None patterns q :
  checkPatterns patterns q = None ->
  forall p, In p patterns -> MatchString p q = inl false.
Proof.
  induction patterns as [|p0 ps IH]; intros Hc p Hp; [destruct Hp|].
  cbn [checkPatterns] in Hc.
  destruct (MatchString p0 q) as [[|]|] eqn:E; try discriminate.
  destruct Hp as [<-|Hp]; [exact E|now apply IH].
Qed.

(** Acceptance depends on the patterns alone. *)
Lemma validateQuery_None q :
  validateQuery q = None <->
  forall p, In p suspiciousPatterns -> MatchString p q = inl false.
Proof.
  split; [apply checkPatterns_None|apply checkPatterns_miss].
Qed.

Section OnRuntime.
Context {RT : Runtime}.

(** C1, as the code has it.  On a handle with a connection, a query that
    matches one of the patterns of [suspiciousPatterns] (case-insensitively;
    [UNION] must start at a word boundary, and [.] does not cross a line
    break) is answered with an error whose message holds "potentially
    malicious SQL pattern detected", and the engine is left as it was: no
    call is made on it.  A query that matches none of the patterns passes
    the validation however many semicolons it holds. *)
Theorem validation_rejects_before_engine (h : DuckDB) (q : gostring) (st : State) :
  db h <> None ->
  (forall pattern, In pattern suspiciousPatterns ->
     MatchString pattern q = inl true ->
     exists err, ExecuteQuery h q st = (inr err, st)
                 /\ Contains (Error err) malicious = true)
  /\ ((forall pattern, In pattern suspiciousPatterns ->
         MatchString pattern q = inl false) ->
      validateQuery q = None).
Proof.
  intros Hdb. split.
  - intros pattern Hin Hm.
    destruct (checkPatterns_hit suspiciousPatterns pattern q) as [p [_ Hc]]; auto.
    { intros p Hp. now apply MatchString_total. }
    unfold ExecuteQuery, validateQuery. destruct (db h); [|congruence].
    rewrite Hc. eexists. split; [reflexivity|].
    cbn [Errorf_w Error]. apply Contains_skip, Contains_infix.
  - apply checkPatterns_miss.
Qed.

End OnRuntime.

Lemma validation_rejects_witness :
  db sampleHandle <> None
  /\ exists err,
      @ExecuteQuery sampleRuntime sampleHandle (lit "SELECT 1 -- drop") sampleState
      = (inr err, sampleState)
      /\ Contains (Error err) malicious = true.
Proof.
  split; [discriminate|].
  apply (proj1 (@validation_rejects_before_engine sampleRuntime sampleHandle
                  (lit "SELECT 1 -- drop") sampleState ltac:(discriminate))
               "(?i)--"%string).
  - cbn. tauto.
  - vm_compute. reflexivity.
Defined.

(** The claim with the pattern list as the specification words it fails:
    [xUNION SELECT 1] matches [UNION\b.*\bSELECT\b] and is not rejected; the
    statement reaches the engine and its result is returned. *)
Lemma union_without_boundary_is_executed :
  In "(?i)UNION\b.*\bSELECT\b"%string specifiedPatterns
  /\ MatchString "(?i)UNION\b.*\bSELECT\b" (lit "xUNION SELECT 1") = inl true
  /\ validateQuery (lit "xUNION SELECT 1") = None
  /\ exists r st',
      @ExecuteQuery sampleRuntime sampleHandle (lit "xUNION SELECT 1") sampleState
      = (inl r, st')
      /\ calls st' = [CallPrepare (lit "xUNION SELECT 1"); CallQuery; CallNext;
                      CallNext; CallCloseRows; CallCloseStmt].
Proof.
  split; [now left|]. split; [vm_compute; reflexivity|].
  split; [vm_compute; reflexivity|].
  eexists. eexists. split; vm_compute; reflexivity.
Qed.

(** The checks of the package's own test of the deny-list that the code
    meets. *)
Example deny_list_examples :
  validateQuery (lit "SELECT * FROM users UNION SELECT password FROM admin") <> None
  /\ validateQuery (lit "SELECT * FROM users WHERE id = 1 OR 1=1") <> None
  /\ validateQuery (lit "SELECT * FROM users -- WHERE id = 1") <> None
  /\ validateQuery (lit "SELECT * FROM users /* comment */ WHERE id = 1") <> None
  /\ validateQuery (lit "EXEC sp_executesql @query") <> None
  /\ validateQuery (lit "SELECT * FROM users; EXEC xp_cmdshell 'dir'") <> None
  /\ validateQuery (lit "DROP TABLE IF EXISTS users; CREATE TABLE users (id INT)") = None
  /\ validateQuery (lit "SELECT 1; SELECT 2; SELECT 3") = None.
Proof. vm_compute. repeat split; discriminate. Qed.

End QueryValidation.

(** ** Execution of a submission *)

Module Execution.
Import Go GoFacts Regexp Database RegexpFacts Samples.

(** The statements the loop of [ExecuteQuery] hands to the engine: the
    segments that are non-empty after trimming, trimmed, each with the
    1-based index of its segment. *)
Fixpoint numbered (i : Z) (segments : list gostring) : list (Z * gostring) :=
  match segments with
  | [] => []
  | s :: rest =>
    match TrimSpace s with
    | [] => numbered (i + 1) rest
    | t => (i, t) :: numbered (i + 1) rest
    end
  end.

Definition statementsOf (query : gostring) : list (Z * gostring) :=
  numbered 1 (splitQueryBySemicolon query).

(** What the loop keeps of the results so far. *)
Definition lastOf (rs : list QueryResult) (before : option QueryResult)
  : option QueryResult :=
  match rev rs with
  | r :: _ => Some r
  | [] => before
  end.

Section OnRuntime.
Context {RT : Runtime}.

(** The statements of a list run one after the other, each with success. *)
Inductive RunsOk : State -> list (Z * gostring) -> list QueryResult -> State -> Prop :=
| RunsOk_nil st : RunsOk st [] [] st
| RunsOk_cons st i s rest r st1 rs st2 :
    executeSingleQuery s st = (inl r, st1) ->
    RunsOk st1 rest rs st2 ->
    RunsOk st ((i, s) :: rest) (r :: rs) st2.

Lemma lastOf_cons r rs before : lastOf (r :: rs) before = lastOf rs (Some r).
Proof.
  unfold lastOf. cbn [rev]. destruct (rev rs) as [|x l] eqn:E; reflexivity.
Qed.

Lemma executeSegments_ok segments i before st stmts rs st1 :
  numbered (i + 1) segments = stmts -> RunsOk st stmts rs st1 ->
  executeSegments segments i before st = (inl (lastOf rs before), st1).
Proof.
  revert i before st stmts rs st1.
  induction segments as [|s segments IH]; intros i before st stmts rs st1 Hn Hr.
  - cbn in Hn. subst. inversion Hr; subst. reflexivity.
  - cbn [numbered] in Hn. cbn [executeSegments].
    destruct (TrimSpace s) as [|c t] eqn:Et.
    + now apply (IH (i + 1) before st stmts rs st1).
    + subst stmts. inversion Hr as [|? ? ? ? r ? rs0 ? Hex Hrest]; subst.
      rewrite Hex, lastOf_cons. eapply IH; [reflexivity|exact Hrest].
Qed.

Lemma executeSegments_fail segments i0 before st done i s rest rs st1 err st2 :
  numbered (i0 + 1) segments = done ++ (i, s) :: rest ->
  RunsOk st done rs st1 ->
  executeSingleQuery s st1 = (inr err, st2) ->
  executeSegments segments i0 before st
  = (inr (Errorf_w ("failed to execute query " +:+ Itoa i) err), st2).
Proof.
  revert i0 before st done rs.
  induction segments as [|s0 segments IH]; intros i0 before st done rs Hn Hr He.
  - cbn in Hn. now destruct done.
  - cbn [numbered] in Hn. cbn [executeSegments].
    destruct (TrimSpace s0) as [|c t] eqn:Et.
    + now apply (IH (i0 + 1) before st done rs).
    + destruct done as [|[j u] done].
      * cbn in Hn. inversion Hn; subst. inversion Hr; subst.
        now rewrite He.
      * cbn in Hn. inversion Hn; subst.
        inversion Hr as [|? ? ? ? r ? rs0 ? Hex Hrest]; subst.
        rewrite Hex. eapply IH; [eassumption|exact Hrest|exact He].
Qed.

(** Every run of a list of statements either gets through it or stops at
    a first statement that fails. *)
Lemma runs_or_fails stmts st :
  (exists rs st1, RunsOk st stmts rs st1)
  \/ (exists done i s rest rs st1 err st2,
        stmts = done ++ (i, s) :: rest /\ RunsOk st done rs st1
        /\ executeSingleQuery s st1 = (inr err, st2)).
Proof.
  revert st. induction stmts as [|[i s] stmts IH]; intros st.
  - left. exists [], st. constructor.
  - destruct (executeSingleQuery s st) as [[r|err] st1] eqn:E.
    + destruct (IH st1) as [(rs & st2 & H)|(done & j & u & rest & rs & st2 & e & st3 & H1 & H2 & H3)].
      * left. exists (r :: rs), st2. econstructor; eassumption.
      * right. exists ((i, s) :: done), j, u, rest, (r :: rs), st2, e, st3.
        split; [now rewrite H1|]. split; [econstructor; eassumption|exact H3].
    + right. exists [], i, s, stmts, [], st, err, st1.
      split; [reflexivity|]. split; [constructor|exact E].
Qed.

(** C3.  For a query that passes the validation, on a handle with a
    connection: the statements are run in order; when the statement of
    segment [i] is the first to fail, the call returns the engine's error
    wrapped with the 1-based index [i], in the state right after that
    failure, so nothing later was run; when all succeed, the call returns
    the last statement's result with its duration (and the total of its
    benchmark record) replaced by the time from before the first statement
    to after the last. *)
Theorem statements_run_in_order (h : DuckDB) (q : gostring) (st : State) :
  db h <> None -> validateQuery q = None ->
  (forall done i s rest rs st1 err st2,
      statementsOf q = done ++ (i, s) :: rest ->
      RunsOk st done rs st1 ->
      executeSingleQuery s st1 = (inr err, st2) ->
      ExecuteQuery h q st
      = (inr (wrapError ("failed to execute query " +:+ Itoa i +:+ ": " +:+ Error err) err),
         st2))
  /\ (forall rs r st1,
        RunsOk st (statementsOf q) (rs ++ [r]) st1 ->
        exists res,
          ExecuteQuery h q st = (inl res, st1)
          /\ Results res = Results r
          /\ Duration res = Since (timeNow st) st1
          /\ Benchmark res
             = option_map (fun b => setTotalMs b (Milliseconds (Since (timeNow st) st1)))
                          (Benchmark r)).
Proof.
  intros Hdb Hv. unfold ExecuteQuery. rewrite Hv.
  destruct (db h) as [conn|]; [clear Hdb|congruence]. split.
  - intros done i s rest rs st1 err st2 Hn Hr He.
    now rewrite (executeSegments_fail _ 0 None st done i s rest rs st1 err st2 Hn Hr He).
  - intros rs r st1 Hr.
    rewrite (executeSegments_ok _ 0 None st _ _ st1 eq_refl Hr).
    unfold lastOf. rewrite rev_unit.
    eexists. split; [reflexivity|]. cbn. repeat split.
Qed.

End OnRuntime.

Lemma statements_run_in_order_witness :
  db sampleHandle <> None
  /\ validateQuery (lit "SELECT 1; ;X; SELECT 2") = None
  /\ exists err st2,
      @ExecuteQuery sampleRuntime sampleHandle (lit "SELECT 1; ;X; SELECT 2") sampleState
      = (inr err, st2)
      /\ Error err = "failed to execute query 3: failed to prepare query: Parser Error: syntax error at or near X"%string
      /\ calls st2 = [CallPrepare (lit "SELECT 1"); CallQuery; CallNext; CallNext;
                      CallCloseRows; CallCloseStmt; CallPrepare (lit "X")].
Proof.
  split; [discriminate|]. split; [vm_compute; reflexivity|].
  eexists. eexists. split; [|split].
  - eapply (proj1 (@statements_run_in_order sampleRuntime sampleHandle
                     (lit "SELECT 1; ;X; SELECT 2") sampleState
                     ltac:(discriminate) ltac:(vm_compute; reflexivity))
                  [(1, lit "SELECT 1")] 3 (lit "X") [(4, lit "SELECT 2")]).
    + vm_compute. reflexivity.
    + econstructor; [lazy; reflexivity|constructor].
    + lazy. reflexivity.
  - vm_compute. reflexivity.
  - vm_compute. reflexivity.
Defined.

End Execution.

(** ** Submissions of white space and semicolons *)

Module BlankSubmissions.
Import Go Regexp Database RegexpFacts Samples.

(** White space and the semicolon, as ranges. *)
Definition blank_ranges : list (Z * Z) := White_Space ++ [(59, 59)].

Definition blank (r : rune) : Prop := IsSpace r = true \/ r = 59.

Lemma blank_in_ranges r : blank r -> in_ranges blank_ranges r = true.
Proof.
  unfold blank, blank_ranges, IsSpace, in_ranges. rewrite existsb_app.
  intros [H| ->]; [now rewrite H|]. apply orb_true_r.
Qed.

Lemma no_pattern_matches_blank q pattern :
  Forall blank q -> In pattern suspiciousPatterns -> MatchString pattern q = inl false.
Proof.
  intros Hq Hin.
  assert (Hs : Forall (fun r => in_ranges blank_ranges r = true) q).
  { eapply Forall_impl; [exact Hq|]. apply blank_in_ranges. }
  repeat (destruct Hin as [<-|Hin];
          [eapply (MatchString_dead blank_ranges);
           [vm_compute; reflexivity|vm_compute; reflexivity|exact Hs]|]).
  destruct Hin.
Qed.

Lemma space_is_plain r :
  IsSpace r = true -> (r =? 92) = false /\ (r =? 34) = false /\ (r =? 39) = false
                      /\ (r =? 59) = false.
Proof.
  unfold IsSpace, in_ranges, White_Space. cbn [existsb fst snd]. intros H.
  repeat (apply orb_prop in H; destruct H as [H|H]);
    try discriminate; apply andb_prop in H; lia.
Qed.

Abbreviation spaces := (Forall (fun r : rune => IsSpace r = true)).

Definition blank_state (st : splitState) : Prop :=
  inQuote st = false /\ escapeNext st = false
  /\ Forall spaces (queries st) /\ spaces (currentQuery st).

Lemma splitStep_blank st r : blank r -> blank_state st -> blank_state (splitStep st r).
Proof.
  destruct st as [Q c iq en]. unfold blank_state.
  cbn [inQuote escapeNext queries currentQuery].
  intros Hr (-> & -> & HQ & Hc). unfold splitStep.
  cbn [inQuote escapeNext queries currentQuery].
  destruct Hr as [Hr| ->].
  - destruct (space_is_plain r Hr) as (-> & -> & -> & ->).
    cbn [orb andb inQuote escapeNext queries currentQuery].
    repeat split; auto. apply Forall_app. split; [exact Hc|]. now repeat constructor.
  - change (59 =? 92) with false. change (59 =? 34) with false.
    change (59 =? 39) with false. change (59 =? 59) with true.
    cbn [orb andb negb inQuote escapeNext queries currentQuery].
    repeat split; auto. apply Forall_app. split; [exact HQ|]. now repeat constructor.
Qed.

(** Scanning a blank query: no quote is ever open, and what is collected
    is white space. *)
Lemma splitLoop_blank q st :
  Forall blank q -> blank_state st -> blank_state (splitLoop st q).
Proof.
  intros Hq. revert st. induction Hq as [|r q Hr Hq IH]; intros st Hst; [exact Hst|].
  cbn [splitLoop fold_left]. apply IH. now apply splitStep_blank.
Qed.

Lemma TrimLeftSpace_spaces s : spaces s -> TrimLeftSpace s = [].
Proof.
  induction 1 as [|r s Hr Hs IH]; [reflexivity|].
  cbn [TrimLeftSpace]. now rewrite Hr.
Qed.

Lemma TrimSpace_spaces s : spaces s -> TrimSpace s = [].
Proof.
  intros H. unfold TrimSpace. rewrite (TrimLeftSpace_spaces s H). reflexivity.
Qed.

Lemma split_blank q :
  Forall blank q -> Forall (fun s => TrimSpace s = []) (splitQueryBySemicolon q).
Proof.
  intros Hq.
  destruct (splitLoop_blank q splitInit Hq) as (_ & _ & HQ & Hc);
    [repeat split; constructor|].
  unfold splitQueryBySemicolon.
  destruct (_ <? _)%nat.
  - apply Forall_app. split.
    + eapply Forall_impl; [exact HQ|]. apply TrimSpace_spaces.
    + constructor; [now apply TrimSpace_spaces|constructor].
  - eapply Forall_impl; [exact HQ|]. apply TrimSpace_spaces.
Qed.

Section OnRuntime.
Context {RT : Runtime}.

Lemma executeSegments_blank segments i before (st : State) :
  Forall (fun s => TrimSpace s = []) segments ->
  executeSegments segments i before st = (inl before, st).
Proof.
  intros H. revert i. induction H as [|s segments Hs H IH]; intros i; [reflexivity|].
  cbn [executeSegments]. rewrite Hs. apply IH.
Qed.

(** C9.  A query of white space and semicolons only, on a handle with a
    connection: no segment is left after trimming, and the call returns
    the error "no valid queries to execute" with the engine as it was, no
    statement prepared or run. *)
Theorem blank_submission_is_refused (h : DuckDB) (q : gostring) (st : State) :
  db h <> None ->
  Forall blank q ->
  Forall (fun s => TrimSpace s = []) (splitQueryBySemicolon q)
  /\ ExecuteQuery h q st = (inr (errorString "no valid queries to execute"), st).
Proof.
  intros Hdb Hq. split; [now apply split_blank|].
  unfold ExecuteQuery. destruct (db h) as [conn|]; [|congruence].
  rewrite (proj2 (QueryValidation.validateQuery_None q))
    by (intros p Hp; now apply no_pattern_matches_blank).
  now rewrite executeSegments_blank by now apply split_blank.
Qed.

End OnRuntime.

Lemma blank_submission_witness :
  db sampleHandle <> None
  /\ Forall blank (lit " ; ;; ")
  /\ @ExecuteQuery sampleRuntime sampleHandle (lit " ; ;; ") sampleState
     = (inr (errorString "no valid queries to execute"), sampleState).
Proof.
  split; [discriminate|].
  assert (H : Forall blank (lit " ; ;; ")).
  { repeat constructor; first [now left|now right]. }
  split; [exact H|].
  exact (proj2 (@blank_submission_is_refused sampleRuntime sampleHandle
                  (lit " ; ;; ") sampleState ltac:(discriminate) H)).
Defined.

End BlankSubmissions.

(** ** The benchmark record *)

Module Benchmarks.
Import Go GoFacts Database Execution Samples.

Section OnRuntime.
Context {RT : Runtime}.

(** On success the loop has appended one row for each one scanned. *)
Lemma scanRows_length columns pending results rc (st : State) results' rc' st' :
  scanRows columns pending results rc st = (inl (results', rc'), st') ->
  length results' = (length results + length pending)%nat.
Proof.
  revert results rc st.
  induction pending as [|[values|err] pending IH]; intros results rc st H;
    cbn [scanRows] in H.
  - inversion H; subst. cbn. lia.
  - apply IH in H. rewrite length_app in H. cbn in *. lia.
  - discriminate.
Qed.

(** The loop counts what it appends. *)
Lemma scanRows_count columns pending results rc (st : State) results' rc' st' :
  scanRows columns pending results rc st = (inl (results', rc'), st') ->
  rc = Z.of_nat (length results) ->
  Z.of_nat (length results') < 2 ^ 63 ->
  rc' = Z.of_nat (length results').
Proof.
  revert results rc st.
  induction pending as [|[values|err] pending IH]; intros results rc st H Hrc Hb;
    cbn [scanRows] in H.
  - inversion H; subst. reflexivity.
  - pose proof (scanRows_length _ _ _ _ _ _ _ _ H) as Hlen.
    rewrite length_app in Hlen. cbn [length] in Hlen.
    apply IH in H; [exact H| |exact Hb].
    rewrite length_app. cbn [length].
    rewrite wrap64_small by lia. lia.
  - discriminate.
Qed.

(** C10.  When a single statement succeeds with [n] rows, and [1024 * n]
    fits the machine integer, the benchmark fields that are not timings are
    the constants and multiples of [n] of [calculateBenchmarkMetrics]:
    nothing of them is measured. *)
Theorem benchmark_fields_are_nominal (query : gostring) (st : State)
        (r : QueryResult) (st1 : State) (n : Z) :
  executeSingleQuery query st = (inl r, st1) ->
  n = Z.of_nat (length (Results r)) ->
  1024 * n < 2 ^ 63 ->
  exists b,
    Benchmark r = Some b
    /\ ThreadCount (resources b) = 4
    /\ OperatorCount (query_stats b) = 3
    /\ ScanCount (query_stats b) = 1
    /\ HitCount (cache b) = 10
    /\ MissCount (cache b) = 2
    /\ HitRatio (cache b) = Float64Const 83 (-2)
    /\ IoWriteBytes (resources b) = 0
    /\ RowsProcessed (query_stats b) = 2 * n
    /\ RowsReturned (query_stats b) = n
    /\ PeakMemoryBytes (resources b) = 1024 * n
    /\ IoReadBytes (resources b) = 256 * n.
Proof.
  unfold executeSingleQuery. intros H -> Hn.
  destruct (prepareAndExecuteQuery query st) as [[qe|err] st0]; [|discriminate].
  unfold processRowsWithBenchmarking in H.
  destruct (scanRows _ _ _ _ _) as [[[results rc]|err] st2] eqn:Hs; [|discriminate].
  destruct (rs_err (qe_rows qe)); [discriminate|].
  inversion H; subst r st1. clear H.
  cbn [Results rp_results rowCount] in *.
  assert (Hrc : rc = Z.of_nat (length results)).
  { eapply scanRows_count; [exact Hs|reflexivity|lia]. }
  eexists. split; [reflexivity|].
  cbn [calculateBenchmarkMetrics resources query_stats cache ThreadCount
       OperatorCount ScanCount HitCount MissCount HitRatio IoWriteBytes
       RowsProcessed RowsReturned PeakMemoryBytes IoReadBytes rp_results rowCount].
  rewrite Hrc. rewrite !wrap64_small by lia.
  repeat split; lia.
Qed.

End OnRuntime.

Lemma benchmark_fields_witness :
  exists r st1,
    @executeSingleQuery sampleRuntime (lit "SELECT 1") sampleState = (inl r, st1)
    /\ 1024 * Z.of_nat (length (Results r)) < 2 ^ 63
    /\ exists b,
        Benchmark r = Some b
        /\ ThreadCount (resources b) = 4
        /\ OperatorCount (query_stats b) = 3
        /\ ScanCount (query_stats b) = 1
        /\ HitCount (cache b) = 10
        /\ MissCount (cache b) = 2
        /\ HitRatio (cache b) = Float64Const 83 (-2)
        /\ IoWriteBytes (resources b) = 0
        /\ RowsProcessed (query_stats b) = 2 * Z.of_nat (length (Results r))
        /\ RowsReturned (query_stats b) = Z.of_nat (length (Results r))
        /\ PeakMemoryBytes (resources b) = 1024 * Z.of_nat (length (Results r))
        /\ IoReadBytes (resources b) = 256 * Z.of_nat (length (Results r)).
Proof.
  destruct (@executeSingleQuery sampleRuntime (lit "SELECT 1") sampleState)
    as [[r|err] st1] eqn:E; [|vm_compute in E; discriminate].
  exists r, st1. split; [reflexivity|].
  assert (Hn : 1024 * Z.of_nat (length (Results r)) < 2 ^ 63).
  { vm_compute in E. inversion E; subst. vm_compute. reflexivity. }
  split; [exact Hn|].
  exact (@benchmark_fields_are_nominal sampleRuntime (lit "SELECT 1") sampleState
           r st1 _ E eq_refl Hn).
Defined.

End Benchmarks.

(** ** Closing the handle *)

Module Lifecycle.
Import Go Database Samples.

Lemma os_Remove_absent path sys :
  (path ∉ files sys) ->
  exists err, os_Remove path sys = (Some err, sys) /\ IsNotExist err = true.
Proof.
  intros H. unfold os_Remove. rewrite bool_decide_eq_false_2 by exact H.
  eexists. split; reflexivity.
Qed.

Lemma os_Remove_cases path sys :
  ((path ∉ files sys) /\ exists err, os_Remove path sys = (Some err, sys)
                                     /\ IsNotExist err = true)
  \/ ((path ∈ files sys) /\ exists err, os_Remove path sys = (Some err, sys)
                                        /\ IsNotExist err = false)
  \/ (exists sys', os_Remove path sys = (None, sys')
                   /\ files sys' = files sys ∖ {[ path ]}
                   /\ sql_closed sys' = sql_closed sys).
Proof.
  unfold os_Remove.
  destruct (decide (path ∈ files sys)) as [Hin|Hout].
  - rewrite (bool_decide_eq_true_2 _ Hin).
    destruct (bool_decide (path ∈ protected sys)).
    + right. left. split; [exact Hin|]. eexists. split; reflexivity.
    + right. right. eexists. split; [reflexivity|]. split; reflexivity.
  - rewrite (bool_decide_eq_false_2 _ Hout).
    left. split; [exact Hout|]. eexists. split; reflexivity.
Qed.

Lemma os_Remove_files path sys : files (snd (os_Remove path sys)) ⊆ files sys.
Proof.
  destruct (os_Remove_cases path sys)
    as [(_ & e & -> & _)|[(_ & e & -> & _)|(sys' & -> & Hf & _)]]; cbn [snd].
  - reflexivity.
  - reflexivity.
  - rewrite Hf. intros x Hx. now apply elem_of_difference in Hx as [Hx _].
Qed.

Lemma os_Remove_closed path sys :
  sql_closed (snd (os_Remove path sys)) = sql_closed sys.
Proof.
  destruct (os_Remove_cases path sys)
    as [(_ & e & -> & _)|[(_ & e & -> & _)|(sys' & -> & _ & Hs)]]; cbn [snd];
    auto.
Qed.

Lemma os_Remove_done path sys sys' :
  os_Remove path sys = (None, sys') ->
  (path ∉ files sys') /\ sql_closed sys' = sql_closed sys.
Proof.
  destruct (os_Remove_cases path sys)
    as [(_ & e & -> & _)|[(_ & e & -> & _)|(sys0 & -> & Hf & Hs)]];
    intros H; inversion H; subst.
  split; [|exact Hs].
  rewrite Hf. intros Hin. apply elem_of_difference in Hin as [_ Hn].
  apply Hn. now apply elem_of_singleton.
Qed.

Lemma os_Remove_missing path sys err sys' :
  os_Remove path sys = (Some err, sys') -> IsNotExist err = true ->
  (path ∉ files sys') /\ sys' = sys.
Proof.
  destruct (os_Remove_cases path sys)
    as [(Hout & e & -> & _)|[(_ & e & -> & He)|(sys0 & -> & _ & _)]];
    intros H; inversion H; subst; intros Hi.
  - split; [exact Hout|reflexivity].
  - congruence.
Qed.

(** After a [Close] that returned [nil] the connection pool is closed and
    the database file is gone. *)
Lemma Close_ok_state h sys sys1 :
  Close h sys = (Returned None, sys1) ->
  (dbPath h ∉ files sys1) /\ (db h <> None -> sql_closed sys1 = true).
Proof.
  unfold Close. destruct (cancelFunc h); [|discriminate].
  assert (Hc : forall s e s', (match db h with
                               | Some _ => sql_Close (cancel s)
                               | None => (None, cancel s)
                               end) = (e, s') ->
                 e = None -> db h <> None -> sql_closed s' = true).
  { intros s e s'. destruct (db h); [|congruence].
    unfold sql_Close. destruct (sql_closed (cancel s)) eqn:E;
      intros H; inversion H; subst; auto. }
  destruct (match db h with Some _ => _ | None => _ end) as [closeErr sys2] eqn:E1.
  specialize (Hc _ _ _ E1).
  destruct closeErr; [discriminate|]. specialize (Hc eq_refl).
  destruct (os_Remove (dbPath h) sys2) as [[err|] sys3] eqn:E2.
  - destruct (IsNotExist err) eqn:Ei; cbn [negb]; [|discriminate].
    intros H. inversion H; subst. clear H.
    destruct (os_Remove_missing _ _ _ _ E2 Ei) as [Hf ->].
    split.
    + intros Hin. apply Hf. now apply (os_Remove_files _ _ _ Hin).
    + intros Hdb. rewrite os_Remove_closed. auto.
  - intros H. inversion H; subst. clear H.
    destruct (os_Remove_done _ _ _ E2) as [Hf Hs].
    split.
    + intros Hin. apply Hf. now apply (os_Remove_files _ _ _ Hin).
    + intros Hdb. rewrite os_Remove_closed, Hs. auto.
Qed.

Lemma Close_again h sys sys1 :
  cancelFunc h <> None ->
  Close h sys = (Returned None, sys1) ->
  exists sys2, Close h sys1 = (Returned None, sys2).
Proof.
  intros Hc H1. destruct (Close_ok_state h sys sys1 H1) as [Hf Hs].
  unfold Close. destruct (cancelFunc h); [clear Hc|congruence].
  assert (E : (match db h with
               | Some _ => sql_Close (cancel sys1)
               | None => (None, cancel sys1)
               end) = (None, cancel sys1)).
  { destruct (db h); [|reflexivity]. unfold sql_Close.
    cbn [cancel sql_closed]. now rewrite Hs. }
  rewrite E.
  destruct (os_Remove_absent (dbPath h) (cancel sys1) Hf) as [err [-> Hi]].
  rewrite Hi. cbn [negb]. eauto.
Qed.

Lemma sample_first_close :
  exists sys1, Close sampleHandle sampleSys = (Returned None, sys1).
Proof.
  destruct (Close sampleHandle sampleSys) as [o1 sys1] eqn:E1.
  exists sys1. f_equal.
  apply (f_equal fst) in E1. cbn [fst] in E1. rewrite <- E1.
  vm_compute. reflexivity.
Qed.

(** C6, as the code has it.  On a handle that was initialised, a second
    [Close] after a first one that succeeded does not panic and returns
    [nil], not an error: the connection pool answers a repeated close with
    [nil], and the missing database file is not held against it. *)
Theorem second_close_returns_nil (h : DuckDB) (sys sys1 : Sys) :
  cancelFunc h <> None ->
  Close h sys = (Returned None, sys1) ->
  exists sys2, Close h sys1 = (Returned None, sys2).
Proof. apply Close_again. Qed.

Lemma second_close_witness :
  cancelFunc sampleHandle <> None
  /\ exists sys1 sys2,
      Close sampleHandle sampleSys = (Returned None, sys1)
      /\ Close sampleHandle sys1 = (Returned None, sys2).
Proof.
  split; [discriminate|].
  destruct sample_first_close as [sys1 E].
  exists sys1.
  destruct (second_close_returns_nil sampleHandle sampleSys sys1
              ltac:(discriminate) E) as [sys2 H2].
  exists sys2. split; [exact E|exact H2].
Defined.

(** The claim as stated fails: the second [Close] of the sample handle
    returns no error. *)
Lemma second_close_is_silent :
  exists sys1 sys2,
    Close sampleHandle sampleSys = (Returned None, sys1)
    /\ Close sampleHandle sys1 = (Returned None, sys2)
    /\ ~ (exists err sys3, Close sampleHandle sys1 = (Returned (Some err), sys3)).
Proof.
  destruct sample_first_close as [sys1 E].
  destruct (Close_again sampleHandle sampleSys sys1 ltac:(discriminate) E)
    as [sys2 H2].
  exists sys1, sys2. split; [exact E|]. split; [exact H2|].
  intros (err & sys3 & H3). rewrite H2 in H3. discriminate.
Qed.

End Lifecycle.

(** ** The bounded copy *)

Module BoundedCopy.
Import Go GoFacts Helpers Api Samples.

(** A writer that also records what it was handed. *)
Definition logged {W : Type} (Write : string -> W -> (Z * option error) * W)
           (data : string) (w : W * list string)
  : (Z * option error) * (W * list string) :=
  let (r, w') := Write data (fst w) in (r, (w', snd w ++ [data])).

(** The size of the last write recorded. *)
Definition lastWrite {W : Type} (w : W * list string) : Z :=
  len (List.last (snd w) EmptyString).

(** The cap in force: a cap that is not positive is replaced by the one
    of the environment. *)
Definition effectiveCap (env : Env) (maxSize : Z) : Z :=
  if maxSize <=? 0 then GetMaxFileSize env else maxSize.

Lemma GetMaxFileSize_pos env : 0 < GetMaxFileSize env.
Proof.
  unfold GetMaxFileSize, DefaultMaxFileSize.
  destruct (String.eqb _ _); [lia|].
  destruct (ParseInt _) as [n|]; [|lia].
  destruct (n <=? 0) eqn:E; lia.
Qed.

Lemma effectiveCap_pos env maxSize : 0 < effectiveCap env maxSize.
Proof.
  unfold effectiveCap. destruct (maxSize <=? 0) eqn:E; [apply GetMaxFileSize_pos|lia].
Qed.

Lemma len_nonneg s : 0 <= len s.
Proof. unfold len. lia. Qed.

Lemma len_app a b : len (a +:+ b) = len a + len b.
Proof.
  unfold len. induction a as [|c a IH].
  - change (EmptyString +:+ b) with b. cbn [String.length]. lia.
  - change (String c a +:+ b) with (String c (a +:+ b)).
    cbn [String.length]. lia.
Qed.

Lemma ReadBytes_split delim buf line rest :
  ReadBytes delim buf = Some (line, rest) ->
  buf = line +:+ rest /\ 0 < len line.
Proof.
  revert line rest. induction buf as [|c buf IH]; intros line rest H; [discriminate|].
  cbn [ReadBytes] in H. destruct (Ascii.eqb c delim).
  - inversion H; subst. split; [reflexivity|]. unfold len, str1. cbn. lia.
  - destruct (ReadBytes delim buf) as [[l r]|]; [|discriminate].
    inversion H; subst. destruct (IH l rest eq_refl) as [-> Hl].
    split; [reflexivity|]. unfold len in *. cbn [String.length]. lia.
Qed.

(** *** The loop over complete lines

    The source loops until [ReadBytes] finds no line end; the model counts
    rounds.  Every round takes a line of at least one byte out of the line
    buffer, so the count given by [processCompleteLines] is never what ends
    the loop. *)

Section Rounds.
Context {W V : Type}.
Variable Write : string -> W -> (Z * option error) * W.

Ltac by_cases :=
  repeat match goal with
         | |- context [match ?x with _ => _ end] => destruct x; cbn [snd]
         | |- context [if ?b then _ else _] => destruct b; cbn [snd]
         end;
  try reflexivity.

Lemma writeData_LineBuffer data (ctx : @ProcessingContext W V) :
  LineBuffer (snd (writeDataFromContext Write data ctx)) = LineBuffer ctx.
Proof. unfold writeDataFromContext. by_cases. Qed.

Lemma validateContent_LineBuffer data (ctx : @ProcessingContext W V) :
  LineBuffer (snd (validateContent data ctx)) = LineBuffer ctx.
Proof.
  unfold validateContent, handleValidationError, handleInvalidContent. by_cases.
Qed.

Lemma validateAndWrite_LineBuffer line (ctx : @ProcessingContext W V) :
  LineBuffer (snd (validateAndWrite Write line ctx)) = LineBuffer ctx.
Proof.
  unfold validateAndWrite.
  destruct (String.length line =? 0)%nat; [reflexivity|].
  set (ctx1 := setLine ctx _ _).
  destruct ((CurrentLine ctx1 =? 1) && HasHeader ctx1).
  - now rewrite writeData_LineBuffer.
  - unfold shouldSkipWriting.
    assert (Hq : LineBuffer (snd (match Validator ctx1 with
                                  | Some _ => validateContent line ctx1
                                  | None => (false, None, ctx1)
                                  end)) = LineBuffer ctx).
    { destruct (Validator ctx1); [|reflexivity]. now rewrite validateContent_LineBuffer. }
    destruct (match Validator ctx1 with
              | Some _ => validateContent line ctx1
              | None => (false, None, ctx1)
              end) as [[shouldSkip err] ctx2].
    cbn [snd] in Hq. destruct err as [e|]; [exact Hq|].
    destruct shouldSkip; [exact Hq|]. now rewrite writeData_LineBuffer.
Qed.

(** More rounds than the line buffer has bytes make no difference. *)
Lemma processCompleteLinesN_enough n m (ctx : @ProcessingContext W V) :
  (String.length (LineBuffer ctx) < n)%nat ->
  (String.length (LineBuffer ctx) < m)%nat ->
  processCompleteLinesN Write n ctx = processCompleteLinesN Write m ctx.
Proof.
  revert m ctx. induction n as [|n IH]; intros m ctx Hn Hm; [lia|].
  destruct m as [|m]; [lia|]. cbn [processCompleteLinesN]. unfold readNextLine.
  destruct (ReadBytes LF (LineBuffer ctx)) as [[line rest]|] eqn:Er; [|reflexivity].
  destruct (ReadBytes_split _ _ _ _ Er) as [Hbuf Hline].
  assert (Hlen : len (LineBuffer ctx) = len line + len rest)
    by now rewrite Hbuf, len_app.
  unfold len in Hlen, Hline.
  pose proof (validateAndWrite_LineBuffer line (setLineBuffer ctx rest)) as Hk.
  destruct (validateAndWrite Write line (setLineBuffer ctx rest)) as [[e|] ctx2];
    [reflexivity|].
  cbn [snd LineBuffer setLineBuffer] in Hk.
  apply IH; rewrite Hk; lia.
Qed.

(** When the loop is left without an error, the line buffer holds no
    complete line: the loop was left by [io.EOF] of [ReadBytes]. *)
Lemma processCompleteLinesN_drains n (ctx ctx' : @ProcessingContext W V) :
  (String.length (LineBuffer ctx) < n)%nat ->
  processCompleteLinesN Write n ctx = (None, ctx') ->
  ReadBytes LF (LineBuffer ctx') = None.
Proof.
  revert ctx. induction n as [|n IH]; intros ctx Hn; [lia|].
  cbn [processCompleteLinesN]. unfold readNextLine.
  destruct (ReadBytes LF (LineBuffer ctx)) as [[line rest]|] eqn:Er.
  - destruct (ReadBytes_split _ _ _ _ Er) as [Hbuf Hline].
    assert (Hlen : len (LineBuffer ctx) = len line + len rest)
      by now rewrite Hbuf, len_app.
    unfold len in Hlen, Hline.
    pose proof (validateAndWrite_LineBuffer line (setLineBuffer ctx rest)) as Hk.
    destruct (validateAndWrite Write line (setLineBuffer ctx rest)) as [[e|] ctx2];
      [discriminate|].
    cbn [snd LineBuffer setLineBuffer] in Hk.
    apply IH. rewrite Hk. lia.
  - intros H. inversion H; subst. exact Er.
Qed.

Lemma processCompleteLines_drains (ctx ctx' : @ProcessingContext W V) :
  processCompleteLines Write ctx = (None, ctx') ->
  ReadBytes LF (LineBuffer ctx') = None.
Proof. unfold processCompleteLines. apply processCompleteLinesN_drains. lia. Qed.

End Rounds.

Section Invariant.
Context {W V : Type}.
Variable Write : string -> W -> (Z * option error) * W.

Abbreviation Ctx := (@ProcessingContext (W * list string) V).
Abbreviation LWrite := (logged Write).

(** While the copy goes on, the count is within the cap. *)
Definition within (ctx : Ctx) : Prop := 0 <= Written ctx <= MaxSize ctx.

(** What holds whenever a step returns: the count is over the cap by at
    most the size of the last write, and only with the size error. *)
Definition settled (cap : Z) (r : option error * Ctx) : Prop :=
  MaxSize (snd r) = cap
  /\ 0 <= Written (snd r) <= cap + lastWrite (Destination (snd r))
  /\ (cap < Written (snd r) -> fst r = Some (Sentinel ErrMaxFileSizeExceeded)).

Lemma settled_within cap err ctx :
  settled cap (err, ctx) ->
  (forall e, err = Some e -> is_sentinel e ErrMaxFileSizeExceeded = false) ->
  within ctx /\ MaxSize ctx = cap.
Proof.
  intros (Hm & Hw & He) Hn. cbn [fst snd] in *. unfold within. rewrite Hm.
  split; [|reflexivity]. split; [lia|].
  destruct (Z_lt_dec cap (Written ctx)) as [Hlt|]; [|lia].
  specialize (He Hlt). specialize (Hn _ He). discriminate.
Qed.

Lemma within_settled cap err (ctx : Ctx) :
  within ctx -> MaxSize ctx = cap -> settled cap (err, ctx).
Proof.
  intros [H1 H2] Hm. unfold settled. cbn [fst snd].
  pose proof (len_nonneg (List.last (snd (Destination ctx)) EmptyString)).
  unfold lastWrite. repeat split; try lia.
Qed.

Lemma lastWrite_logged data (w : W * list string) :
  lastWrite (snd (LWrite data w)) = len data.
Proof.
  unfold logged, lastWrite. destruct (Write data (fst w)) as [r w'].
  cbn [snd]. now rewrite last_last.
Qed.

Lemma writeData_settled B data (ctx : Ctx) :
  within ctx -> len data <= B -> MaxSize ctx + B < 2 ^ 63 ->
  settled (MaxSize ctx) (writeDataFromContext LWrite data ctx)
  /\ LineBuffer (snd (writeDataFromContext LWrite data ctx)) = LineBuffer ctx.
Proof.
  intros [H0 H1] HB Hcap. unfold writeDataFromContext.
  pose proof (lastWrite_logged data (Destination ctx)) as Hl.
  pose proof (len_nonneg data) as Hd.
  destruct (LWrite data (Destination ctx)) as [[n werr] d]. cbn [snd] in Hl.
  destruct ((n <? 0) || (len data <? n)) eqn:Eb.
  - split; [|reflexivity]. unfold settled. cbn. rewrite Hl. repeat split; lia.
  - apply orb_false_elim in Eb as [E1 E2].
    cbn [MaxSize Written setDestination].
    rewrite wrap64_small by lia.
    destruct (MaxSize ctx <? Written ctx + n) eqn:Ec.
    + split; [|reflexivity]. unfold settled. cbn. rewrite Hl. repeat split; lia.
    + destruct werr as [e|]; [|destruct (negb (len data =? n))];
        (split; [|reflexivity]); unfold settled; cbn; rewrite Hl; repeat split; lia.
Qed.

(** The steps that validate leave the counters, the destination and the
    line buffer alone. *)
Definition same_io (ctx ctx' : Ctx) : Prop :=
  Destination ctx' = Destination ctx /\ Written ctx' = Written ctx
  /\ MaxSize ctx' = MaxSize ctx /\ LineBuffer ctx' = LineBuffer ctx.

Lemma same_io_refl ctx : same_io ctx ctx.
Proof. now repeat split. Qed.

Lemma same_io_trans a b c : same_io a b -> same_io b c -> same_io a c.
Proof.
  intros (A1 & A2 & A3 & A4) (B1 & B2 & B3 & B4).
  repeat split; congruence.
Qed.

Lemma same_io_within a b : same_io a b -> within a -> within b.
Proof. intros (_ & A2 & A3 & _). unfold within. now rewrite A2, A3. Qed.

Lemma handleValidationError_io err (ctx : Ctx) :
  same_io ctx (snd (handleValidationError err ctx)).
Proof.
  unfold handleValidationError.
  destruct (errors_Is err ErrInvalidBuffer); [apply same_io_refl|].
  destruct (String.eqb _ _); now repeat split.
Qed.

Lemma handleInvalidContent_io issue (ctx : Ctx) :
  same_io ctx (snd (handleInvalidContent issue ctx)).
Proof.
  unfold handleInvalidContent.
  repeat (destruct (String.eqb _ _)); now repeat split.
Qed.

Lemma validateContent_io data (ctx : Ctx) :
  same_io ctx (snd (validateContent data ctx)).
Proof.
  unfold validateContent. destruct (Validator ctx) as [validate|]; [|apply same_io_refl].
  destruct (validate _ _ _ _) as [[[isValid issue] verr] v].
  destruct verr as [e|].
  - eapply same_io_trans; [|apply handleValidationError_io]. now repeat split.
  - destruct issue as [i|]; [|now repeat split].
    destruct (negb isValid); [|now repeat split].
    eapply same_io_trans; [|apply handleInvalidContent_io]. now repeat split.
Qed.

Lemma shouldSkipWriting_io line (ctx : Ctx) :
  same_io ctx (snd (shouldSkipWriting line ctx)).
Proof.
  unfold shouldSkipWriting. destruct (Validator ctx); [apply validateContent_io|].
  apply same_io_refl.
Qed.

Lemma validateAndWrite_settled B line (ctx : Ctx) :
  within ctx -> len line <= B -> MaxSize ctx + B < 2 ^ 63 ->
  settled (MaxSize ctx) (validateAndWrite LWrite line ctx)
  /\ LineBuffer (snd (validateAndWrite LWrite line ctx)) = LineBuffer ctx.
Proof.
  intros Hw HB Hcap. unfold validateAndWrite.
  destruct (String.length line =? 0)%nat.
  { split; [now apply within_settled|reflexivity]. }
  set (ctx1 := setLine ctx (wrap64 (CurrentLine ctx + 1)) (ColumnMap ctx)).
  assert (H1 : same_io ctx ctx1) by now repeat split.
  destruct ((CurrentLine ctx1 =? 1) && HasHeader ctx1).
  - set (ctx2 := parseHeaderLine line ctx1).
    assert (H2 : same_io ctx ctx2) by now repeat split.
    destruct H2 as (_ & _ & Hm & Hl).
    destruct (writeData_settled B line ctx2) as [Hs Hb].
    + eapply same_io_within; [|exact Hw]. now repeat split.
    + exact HB.
    + now rewrite Hm.
    + rewrite Hm in Hs. rewrite Hb, Hl. now split.
  - pose proof (shouldSkipWriting_io line ctx1) as Hio.
    destruct (shouldSkipWriting line ctx1) as [[shouldSkip err] ctx2].
    cbn [snd] in Hio.
    pose proof (same_io_trans _ _ _ H1 Hio) as H2.
    pose proof (same_io_within _ _ H2 Hw) as Hw2.
    destruct H2 as (_ & _ & Hm & Hl).
    destruct err as [e|]; [|destruct shouldSkip].
    + split; [now apply within_settled|exact Hl].
    + split; [now apply within_settled|exact Hl].
    + destruct (writeData_settled B line ctx2) as [Hs Hb]; auto.
      * now rewrite Hm.
      * rewrite Hm in Hs. rewrite Hb, Hl. now split.
Qed.

Lemma is_EOF_not_size e :
  is_sentinel e EOF = true -> is_sentinel e ErrMaxFileSizeExceeded = false.
Proof. destruct e as [[]| |]; cbn; congruence. Qed.

Lemma processCompleteLinesN_settled B fuel (ctx : Ctx) :
  within ctx -> len (LineBuffer ctx) <= B -> MaxSize ctx + B < 2 ^ 63 ->
  settled (MaxSize ctx) (processCompleteLinesN LWrite fuel ctx)
  /\ len (LineBuffer (snd (processCompleteLinesN LWrite fuel ctx)))
     <= len (LineBuffer ctx).
Proof.
  revert ctx. induction fuel as [|fuel IH]; intros ctx Hw HB Hcap;
    cbn [processCompleteLinesN].
  { split; [now apply within_settled|cbn; lia]. }
  unfold readNextLine.
  destruct (ReadBytes LF (LineBuffer ctx)) as [[line rest]|] eqn:Er.
  - destruct (ReadBytes_split _ _ _ _ Er) as [Hbuf Hline].
    assert (Hlen : len (LineBuffer ctx) = len line + len rest)
      by now rewrite Hbuf, len_app.
    pose proof (len_nonneg rest) as Hr.
    set (ctx1 := setLineBuffer ctx rest).
    assert (Hw1 : within ctx1) by exact Hw.
    destruct (validateAndWrite_settled B line ctx1 Hw1) as [Hs Hb]; [lia|exact Hcap|].
    destruct (validateAndWrite LWrite line ctx1) as [[e|] ctx2]; cbn [snd] in *.
    + split; [exact Hs|]. rewrite Hb. cbn. lia.
    + destruct (settled_within _ _ _ Hs) as [Hw2 Hm2]; [discriminate|].
      change (MaxSize ctx1) with (MaxSize ctx) in *.
      destruct (IH ctx2) as [Hs3 Hb3]; auto.
      * rewrite Hb. cbn. lia.
      * now rewrite Hm2.
      * rewrite Hm2 in Hs3. split; [exact Hs3|].
        rewrite Hb in Hb3. cbn in Hb3. lia.
  - split; [now apply within_settled|cbn; lia].
Qed.

Lemma processNextChunk_settled B r (ctx : Ctx) :
  within ctx -> len (LineBuffer ctx) + len (rd_data r) <= B ->
  MaxSize ctx + B < 2 ^ 63 ->
  settled (MaxSize ctx) (processNextChunk LWrite r ctx)
  /\ len (LineBuffer (snd (processNextChunk LWrite r ctx)))
     <= len (LineBuffer ctx) + len (rd_data r).
Proof.
  intros Hw HB Hcap. unfold processNextChunk, processCompleteLines.
  pose proof (len_nonneg (rd_data r)) as Hd.
  destruct (0 <? len (rd_data r)).
  - set (ctx1 := setLineBuffer ctx (LineBuffer ctx +:+ rd_data r)).
    assert (Hl1 : len (LineBuffer ctx1) = len (LineBuffer ctx) + len (rd_data r))
      by apply len_app.
    destruct (processCompleteLinesN_settled B
                (S (String.length (LineBuffer ctx1))) ctx1) as [Hs Hb];
      [exact Hw|lia|exact Hcap|].
    destruct (processCompleteLinesN LWrite _ ctx1) as [[e|] ctx2]; cbn [snd] in *.
    + split; [exact Hs|lia].
    + destruct (settled_within _ _ _ Hs) as [Hw2 Hm2]; [discriminate|].
      split; [now apply within_settled|lia].
  - split; [now apply within_settled|cbn [snd]; lia].
Qed.

Lemma processRemainingContent_settled B (ctx : Ctx) :
  within ctx -> len (LineBuffer ctx) <= B -> MaxSize ctx + B < 2 ^ 63 ->
  settled (MaxSize ctx) (processRemainingContent LWrite ctx).
Proof.
  intros Hw HB Hcap. unfold processRemainingContent.
  destruct (0 <? len (LineBuffer ctx)); [|now apply within_settled].
  now apply (validateAndWrite_settled B).
Qed.

Lemma processSourceData_settled B src (ctx : Ctx) :
  within ctx -> len (LineBuffer ctx) + total_bytes src <= B ->
  MaxSize ctx + B < 2 ^ 63 ->
  settled (MaxSize ctx) (processSourceData LWrite src ctx).
Proof.
  revert ctx. induction src as [|r src IH]; intros ctx Hw HB Hcap;
    cbn [processSourceData total_bytes fold_right] in *.
  - apply (processRemainingContent_settled B); auto. lia.
  - assert (Ht : 0 <= total_bytes src).
    { clear. induction src as [|x l IHl]; cbn; [lia|].
      pose proof (len_nonneg (rd_data x)). fold (total_bytes l). lia. }
    fold (total_bytes src) in HB.
    destruct (processNextChunk_settled B r ctx Hw) as [Hs Hb]; [lia|exact Hcap|].
    destruct (processNextChunk LWrite r ctx) as [[readErr|] ctx1]; cbn [snd] in *.
    + destruct (is_sentinel readErr EOF) eqn:Ee; [|exact Hs].
      destruct (settled_within _ _ _ Hs) as [Hw1 Hm1].
      { intros e He. inversion He; subst. now apply is_EOF_not_size. }
      rewrite <- Hm1. apply (processRemainingContent_settled B); auto; [lia|].
      now rewrite Hm1.
    + destruct (settled_within _ _ _ Hs) as [Hw1 Hm1]; [discriminate|].
      rewrite <- Hm1. apply IH; auto; [lia|]. now rewrite Hm1.
Qed.

End Invariant.

Definition sizeExceeded : error := Sentinel ErrMaxFileSizeExceeded.

(** Whatever the source, the validator and the writer: the count returned
    is over the cap only with the size error, and never by more than the
    size of the last write.  (The stream is taken to be short enough for
    the 64-bit counter.) *)
Lemma copy_settled {W V : Type}
        (Write : string -> W -> (Z * option error) * W)
        (env : Env) (dst : W) (src : Source) (bufferSize maxSize : Z)
        (validateBuffer : option (@BufferValidationFunc V)) (v : V)
        (written : Z) (issue : option ValidationIssue) (err : option error)
        (d : W) (log : list string) (v' : V) :
  effectiveCap env maxSize + total_bytes src < 2 ^ 63 ->
  CopyWithMaxSizeImpl (logged Write) env (dst, []) src bufferSize maxSize
                      validateBuffer v
  = (written, issue, err, (d, log), v') ->
  (effectiveCap env maxSize < written ->
   err = Some sizeExceeded
   /\ map Code (fst (mapCopyError env issue sizeExceeded)) = ["FILE_SIZE_EXCEEDED"%string])
  /\ 0 <= written <= effectiveCap env maxSize + len (List.last log EmptyString).
Proof.
  intros Hcap. unfold CopyWithMaxSizeImpl. fold (effectiveCap env maxSize).
  set (ctx := {| Destination := (dst, []); LineBuffer := EmptyString;
                 Validator := validateBuffer; ValidatorState := v;
                 ValidationMode := GetValidationMode env; ValidationWarnings := [];
                 HasHeader := true; ColumnMap := ∅; CurrentLine := 0;
                 Issue := None; Written := 0;
                 MaxSize := effectiveCap env maxSize |}).
  pose proof (effectiveCap_pos env maxSize) as Hpos.
  assert (Hw : within ctx) by (unfold within; cbn; lia).
  pose proof (processSourceData_settled Write (total_bytes src) src ctx Hw) as Hs.
  destruct (processSourceData (logged Write) src ctx) as [e ctx1].
  intros H.
  assert (Hwr : Written ctx1 = written) by now inversion H.
  assert (Her : e = err) by now inversion H.
  assert (Hd : Destination ctx1 = (d, log)) by now inversion H.
  clear H. subst written err.
  destruct Hs as (Hm & Hb & He).
  { cbn [LineBuffer ctx]. change (len EmptyString) with 0. lia. }
  { exact Hcap. }
  cbn [fst snd MaxSize ctx] in *. unfold lastWrite in Hb.
  rewrite Hd in Hb. cbn [snd] in Hb. split; [|exact Hb].
  intros Hlt. split; [now apply He|reflexivity].
Qed.


End BoundedCopy.

(** ** The upload handler *)

Module Uploads.
Import Go GoFacts Helpers Api Samples BoundedCopy.

(** An upload whose second line holds a formula, under the default mode
    [reject_file]: the handler answers 400; the error carries the code
    [SECURITY_VALIDATION_FAILED], line 2 and the column name of the
    header.  (C7 names the status 422, as the annotation of the handler
    does.) *)
Theorem formula_upload_is_answered_400 :
  GetValidationMode emptyEnv = ValidationModeRejectFile
  /\ @handleCSVUpload sampleCollaborators emptyEnv (inl (uploadOf formulaCsv "utf-8"))
     = {| status := 400;
          body := ErrorsBody
            [ {| Code := "SECURITY_VALIDATION_FAILED";
                 Message := "Security validation failed: file contains potentially malicious content";
                 Details :=
                   {| dLine := 2; dColumn := "name"; dExpectedType := EmptyString;
                      dFoundValue := "=CMD('calc')";
                      dSuggestion := "Please remove Excel/spreadsheet formulas from the file." |} |} ] |}.
Proof. split; vm_compute; reflexivity. Qed.

(** When the matched text spans two fields no field holds it, and the
    error carries no column. *)
Example formula_with_comma_has_no_column :
  @handleCSVUpload sampleCollaborators emptyEnv (inl (uploadOf sumCsv "utf-8"))
  = {| status := 400;
       body := ErrorsBody
         [ {| Code := "SECURITY_VALIDATION_FAILED";
              Message := "Security validation failed: file contains potentially malicious content";
              Details :=
                {| dLine := 2; dColumn := EmptyString; dExpectedType := EmptyString;
                   dFoundValue := EmptyString;
                   dSuggestion := "Please remove Excel/spreadsheet formulas from the file." |} |} ] |}.
Proof. vm_compute. reflexivity. Qed.

Section OnCollaborators.
Context {CO : Collaborators}.

(** Whatever fails before the import is answered 400 or 413; 422 is
    written by the import alone. *)
Lemma status_422_is_from_import env bound :
  status (handleCSVUpload env bound) = StatusUnprocessableEntity ->
  exists payload path errs importErrors,
    bound = inl payload
    /\ processCsvFileFromHeader env (CSVFile payload) (TableName payload)
                                 (rHasHeader payload) (FileEncoding payload)
       = (path, errs, None)
    /\ importCsvData (TableName payload) path (rHasHeader payload) (Override payload)
       = inl importErrors.
Proof.
  unfold handleCSVUpload. destruct bound as [payload|err]; [|discriminate].
  destruct (processCsvFileFromHeader _ _ _ _ _) as [[path errs] [err|]] eqn:E.
  - destruct (Contains _ _); discriminate.
  - destruct (importCsvData _ _ _ _) as [importErrors|result] eqn:Ei; [|discriminate].
    intros _. exists payload, path, errs, importErrors. now repeat split.
Qed.

End OnCollaborators.

(** *** The format checks of the validation closure are never reached *)

Section Closure.
Context {CO : Collaborators} {W : Type}.
Variable Write : string -> W -> (Z * option error) * W.
Variables filename encoding : string.

Abbreviation PC := (@ProcessingContext W bool).
Abbreviation wrapper := (validationWrapper filename encoding).

(** From line 1 on the closure is the injection screen and leaves its
    flag alone. *)
Lemma wrapper_after_first_line data lineNumber columnMap flag :
  0 < lineNumber ->
  wrapper data lineNumber columnMap flag
  = (CSVRowCheckDetailed data lineNumber columnMap, flag).
Proof.
  intros H. unfold validationWrapper.
  now rewrite (proj2 (Z.ltb_lt 0 lineNumber) H).
Qed.

(** A step that keeps the validator, its flag, the line buffer and the
    line number. *)
Definition quiet (ctx ctx' : PC) : Prop :=
  Validator ctx' = Validator ctx /\ ValidatorState ctx' = ValidatorState ctx
  /\ LineBuffer ctx' = LineBuffer ctx /\ CurrentLine ctx' = CurrentLine ctx.

(** The same, with the line number advanced by one at most. *)
Definition advanced (ctx ctx' : PC) : Prop :=
  Validator ctx' = Validator ctx /\ ValidatorState ctx' = ValidatorState ctx
  /\ LineBuffer ctx' = LineBuffer ctx
  /\ CurrentLine ctx <= CurrentLine ctx' <= CurrentLine ctx + 1.

Lemma quiet_refl ctx : quiet ctx ctx.
Proof. unfold quiet. auto. Qed.

Lemma quiet_trans a b c : quiet a b -> quiet b c -> quiet a c.
Proof.
  intros (A1 & A2 & A3 & A4) (B1 & B2 & B3 & B4). unfold quiet.
  rewrite B1, B2, B3, B4. auto.
Qed.

Lemma advanced_refl ctx : advanced ctx ctx.
Proof. unfold advanced. repeat split; lia. Qed.

Lemma advanced_quiet a b c : advanced a b -> quiet b c -> advanced a c.
Proof.
  intros (A1 & A2 & A3 & A4) (B1 & B2 & B3 & B4). unfold advanced.
  rewrite B1, B2, B3, B4. auto.
Qed.

Lemma handleValidationError_quiet err (ctx : PC) :
  quiet ctx (snd (handleValidationError err ctx)).
Proof.
  unfold handleValidationError.
  destruct (errors_Is err ErrInvalidBuffer); [apply quiet_refl|].
  destruct (String.eqb _ _); unfold quiet; cbn; auto.
Qed.

Lemma handleInvalidContent_quiet issue (ctx : PC) :
  quiet ctx (snd (handleInvalidContent issue ctx)).
Proof.
  unfold handleInvalidContent.
  repeat (destruct (String.eqb _ _)); unfold quiet; cbn; auto.
Qed.

Lemma writeData_quiet data (ctx : PC) :
  quiet ctx (snd (writeDataFromContext Write data ctx)).
Proof.
  unfold writeDataFromContext.
  destruct (Write data (Destination ctx)) as [[n werr] d].
  destruct ((n <? 0) || (len data <? n)); [unfold quiet; cbn; auto|].
  cbn [MaxSize Written setDestination].
  destruct (MaxSize ctx <? _); [unfold quiet; cbn; auto|].
  destruct werr; [|destruct (negb _)]; unfold quiet; cbn; auto.
Qed.

Lemma validateContent_quiet data (ctx : PC) :
  Validator ctx = Some wrapper -> 0 < CurrentLine ctx ->
  quiet ctx (snd (validateContent data ctx)).
Proof.
  intros Hv Hl. unfold validateContent. rewrite Hv.
  rewrite (wrapper_after_first_line _ _ _ _ Hl).
  destruct (CSVRowCheckDetailed _ _ _) as [[isValid issue] verr].
  destruct verr as [e|].
  - eapply quiet_trans; [|apply handleValidationError_quiet].
    unfold quiet; cbn; auto.
  - destruct issue as [i|]; [|unfold quiet; cbn; auto].
    destruct (negb isValid); [|unfold quiet; cbn; auto].
    eapply quiet_trans; [|apply handleInvalidContent_quiet].
    unfold quiet; cbn; auto.
Qed.

(** The state the copy keeps: the closure is the validator, its flag is
    down, and the line number is not negative. *)
Definition unvalidated (ctx : PC) : Prop :=
  Validator ctx = Some wrapper /\ ValidatorState ctx = false /\ 0 <= CurrentLine ctx.

Lemma advanced_unvalidated ctx ctx' :
  unvalidated ctx -> advanced ctx ctx' -> unvalidated ctx'.
Proof.
  intros (A1 & A2 & A3) (B1 & B2 & _ & B4). unfold unvalidated.
  rewrite B1, B2. repeat split; auto; lia.
Qed.

Lemma validateAndWrite_advanced line (ctx : PC) :
  unvalidated ctx -> CurrentLine ctx + 1 < 2 ^ 63 ->
  advanced ctx (snd (validateAndWrite Write line ctx)).
Proof.
  intros (Hv & Hf & Hl) Hb. unfold validateAndWrite.
  destruct (String.length line =? 0)%nat; [apply advanced_refl|].
  set (ctx1 := setLine ctx (wrap64 (CurrentLine ctx + 1)) (ColumnMap ctx)).
  assert (Hc1 : CurrentLine ctx1 = CurrentLine ctx + 1).
  { cbn. apply wrap64_small. lia. }
  assert (Ha1 : advanced ctx ctx1).
  { unfold advanced. rewrite Hc1. cbn. repeat split; lia. }
  destruct ((CurrentLine ctx1 =? 1) && HasHeader ctx1).
  - eapply advanced_quiet; [|apply writeData_quiet].
    eapply advanced_quiet; [exact Ha1|]. unfold quiet; cbn; auto.
  - unfold shouldSkipWriting.
    change (Validator ctx1) with (Validator ctx). rewrite Hv.
    pose proof (validateContent_quiet line ctx1 Hv ltac:(lia)) as Hq.
    destruct (validateContent line ctx1) as [[shouldSkip err] ctx2].
    cbn [snd] in Hq.
    pose proof (advanced_quiet _ _ _ Ha1 Hq) as Ha.
    destruct err as [e|]; [exact Ha|]. destruct shouldSkip; [exact Ha|].
    eapply advanced_quiet; [exact Ha|]. apply writeData_quiet.
Qed.

(** The budget: line number and bytes still to read stay within [B]. *)
Lemma processCompleteLinesN_unvalidated B fuel (ctx : PC) :
  unvalidated ctx -> CurrentLine ctx + len (LineBuffer ctx) <= B -> B + 1 < 2 ^ 63 ->
  let ctx' := snd (processCompleteLinesN Write fuel ctx) in
  unvalidated ctx'
  /\ CurrentLine ctx' + len (LineBuffer ctx') <= CurrentLine ctx + len (LineBuffer ctx).
Proof.
  revert ctx. induction fuel as [|fuel IH]; intros ctx Hu HB Hcap;
    cbn [processCompleteLinesN]; cbn zeta.
  { split; [exact Hu|cbn; lia]. }
  unfold readNextLine.
  destruct (ReadBytes LF (LineBuffer ctx)) as [[line rest]|] eqn:Er;
    [|split; [exact Hu|cbn; lia]].
  destruct (ReadBytes_split _ _ _ _ Er) as [Hbuf Hline].
  assert (Hlen : len (LineBuffer ctx) = len line + len rest)
    by now rewrite Hbuf, len_app.
  pose proof (len_nonneg rest) as Hr.
  set (ctx1 := setLineBuffer ctx rest).
  assert (Hu1 : unvalidated ctx1) by exact Hu.
  pose proof (validateAndWrite_advanced line ctx1 Hu1) as Ha.
  change (CurrentLine ctx1) with (CurrentLine ctx) in Ha.
  specialize (Ha ltac:(lia)).
  pose proof (advanced_unvalidated _ _ Hu1 Ha) as Hu2.
  destruct Ha as (_ & _ & A3 & A4).
  change (CurrentLine ctx1) with (CurrentLine ctx) in A4.
  change (LineBuffer ctx1) with rest in A3.
  destruct (validateAndWrite Write line ctx1) as [[e|] ctx2]; cbn [snd] in *.
  - split; [exact Hu2|]. rewrite A3. lia.
  - destruct (IH ctx2 Hu2) as [Hu3 Hb3]; [rewrite A3; lia|exact Hcap|].
    cbn zeta in Hb3. split; [exact Hu3|]. rewrite A3 in Hb3. lia.
Qed.

Lemma processNextChunk_unvalidated B r (ctx : PC) :
  unvalidated ctx ->
  CurrentLine ctx + len (LineBuffer ctx) + len (rd_data r) <= B -> B + 1 < 2 ^ 63 ->
  let ctx' := snd (processNextChunk Write r ctx) in
  unvalidated ctx'
  /\ CurrentLine ctx' + len (LineBuffer ctx')
     <= CurrentLine ctx + len (LineBuffer ctx) + len (rd_data r).
Proof.
  intros Hu HB Hcap. cbn zeta. unfold processNextChunk, processCompleteLines.
  pose proof (len_nonneg (rd_data r)) as Hd.
  destruct (0 <? len (rd_data r)); [|split; [exact Hu|cbn [snd]; lia]].
  set (ctx1 := setLineBuffer ctx (LineBuffer ctx +:+ rd_data r)).
  assert (Hl1 : len (LineBuffer ctx1) = len (LineBuffer ctx) + len (rd_data r))
    by apply len_app.
  destruct (processCompleteLinesN_unvalidated B
              (S (String.length (LineBuffer ctx1))) ctx1) as [Hu2 Hb2];
    [exact Hu| |exact Hcap|].
  { change (CurrentLine ctx1) with (CurrentLine ctx). lia. }
  cbn zeta in Hb2. change (CurrentLine ctx1) with (CurrentLine ctx) in Hb2.
  destruct (processCompleteLinesN Write _ ctx1) as [[e|] ctx2]; cbn [snd] in *;
    (split; [exact Hu2|lia]).
Qed.

Lemma processRemainingContent_unvalidated (ctx : PC) :
  unvalidated ctx -> CurrentLine ctx + 1 < 2 ^ 63 ->
  unvalidated (snd (processRemainingContent Write ctx)).
Proof.
  intros Hu Hb. unfold processRemainingContent.
  destruct (0 <? len (LineBuffer ctx)); [|exact Hu].
  eapply advanced_unvalidated; [exact Hu|]. now apply validateAndWrite_advanced.
Qed.

Lemma processSourceData_unvalidated B src (ctx : PC) :
  unvalidated ctx ->
  CurrentLine ctx + len (LineBuffer ctx) + total_bytes src <= B -> B + 1 < 2 ^ 63 ->
  unvalidated (snd (processSourceData Write src ctx)).
Proof.
  revert ctx. induction src as [|r src IH]; intros ctx Hu HB Hcap;
    cbn [processSourceData total_bytes fold_right] in *.
  - pose proof (len_nonneg (LineBuffer ctx)).
    apply processRemainingContent_unvalidated; [exact Hu|lia].
  - assert (Ht : 0 <= total_bytes src).
    { clear. induction src as [|x l IHl]; cbn; [lia|].
      pose proof (len_nonneg (rd_data x)). fold (total_bytes l). lia. }
    fold (total_bytes src) in HB.
    destruct (processNextChunk_unvalidated B r ctx Hu) as [Hu1 Hb1]; [lia|exact Hcap|].
    cbn zeta in Hb1.
    pose proof (len_nonneg (LineBuffer (snd (processNextChunk Write r ctx)))) as Hn.
    destruct (processNextChunk Write r ctx) as [[readErr|] ctx1]; cbn [snd] in *.
    + destruct (is_sentinel readErr EOF); [|exact Hu1].
      apply processRemainingContent_unvalidated; [exact Hu1|lia].
    + apply IH; [exact Hu1|lia|exact Hcap].
Qed.

(** For every source the closure ends the copy with its flag down: the
    encoding and structure checks behind the flag were not run. *)
Lemma format_checks_never_run env dst src bufferSize maxSize :
  total_bytes src + 1 < 2 ^ 63 ->
  snd (CopyWithMaxSizeImpl Write env dst src bufferSize maxSize (Some wrapper) false)
  = false.
Proof.
  intros Hb. unfold CopyWithMaxSizeImpl.
  match goal with
  | |- context [processSourceData Write src ?c] =>
    pose proof (processSourceData_unvalidated (total_bytes src) src c) as H
  end.
  destruct H as (_ & Hf & _).
  - unfold unvalidated. cbn. repeat split; lia.
  - cbn [CurrentLine LineBuffer]. change (len EmptyString) with 0. lia.
  - lia.
  - destruct (processSourceData Write src _) as [e ctx1]. exact Hf.
Qed.

End Closure.

(** C8, as the code answers it: for a file of UTF-8 bytes declared
    [utf-16] the encoding check would report "you specified utf-16 but
    detected utf-8", but the copy never asks it, and the upload goes on to
    the import and is answered 200. *)
Theorem declared_utf16_upload_is_imported :
  Utf8.Valid plainCsv = true
  /\ (exists err,
        @validateEncodingFromData sampleCollaborators plainCsv "utf-16" = Some err
        /\ Contains (Error err) "you specified utf-16 but detected utf-8" = true)
  /\ @copyFileData sampleCollaborators emptyEnv
       [ {| rd_data := plainCsv; rd_err := None |} ] EmptyString "data.csv" "utf-16"
     = ([], None)
  /\ @handleCSVUpload sampleCollaborators emptyEnv (inl (uploadOf plainCsv "utf-16"))
     = {| status := StatusOK; body := @UploadBody sampleCollaborators "t" 1 |}.
Proof.
  split; [vm_compute; reflexivity|]. split.
  - eexists. split; vm_compute; reflexivity.
  - split; vm_compute; reflexivity.
Qed.

End Uploads.

(** * Further properties of the same code *)

(** ** Table names, again *)

Module NameHygiene.
Import Go Database TableNames.

(** [sanitizeTableName] is a projection onto the names over
    [[A-Za-z0-9_]]: sanitizing twice is sanitizing once, and the names it
    leaves alone are exactly the names over that class. *)
Theorem sanitizeTableName_is_a_projection (t : gostring) :
  sanitizeTableName (sanitizeTableName t) = sanitizeTableName t
  /\ (sanitizeTableName t = t <-> Forall in_name_class t).
Proof.
  rewrite !sanitizeTableName_map. split.
  - rewrite <- list_fmap_compose. apply list_fmap_ext. intros i r _. cbn.
    apply sanitizeRune_keeps, sanitizeRune_class.
  - split.
    + intros H. rewrite <- H. apply Forall_fmap, Forall_true.
      intros r. apply sanitizeRune_class.
    + induction 1 as [|r t Hr Ht IH]; [reflexivity|].
      cbn [fmap list_fmap]. cbn [fmap list_fmap] in IH.
      now rewrite IH, sanitizeRune_keeps.
Qed.

End NameHygiene.

(** ** Configuration from the environment *)

Module Configuration.
Import Go Helpers.

Lemma ParseInt_range s v : ParseInt s = Some v -> - 2 ^ 63 <= v < 2 ^ 63.
Proof.
  unfold ParseInt.
  destruct (match s with
            | String "-" s' => (true, s')
            | String "+" s' => (false, s')
            | _ => (false, s)
            end) as [neg digits].
  destruct digits as [|c d]; [discriminate|].
  destruct (parseDigits (String c d) 0) as [n|]; [|discriminate].
  destruct (_ && _) eqn:E; [|discriminate].
  intros H. inversion H; subst. apply andb_prop in E as [E1 E2]. lia.
Qed.

(** The validation mode is the value of [ENV_FILE_VALIDATION_MODE] when
    that is one of the three known modes, spelled exactly, and
    [reject_file] for every other value, the empty one included: the
    result is always a known mode. *)
Theorem validation_mode_is_known (env : Env) :
  let mode := env "ENV_FILE_VALIDATION_MODE" in
  let known m := m = ValidationModeRejectRow \/ m = ValidationModeRejectFile
                 \/ m = ValidationModeIgnore in
  known (GetValidationMode env)
  /\ (known mode -> GetValidationMode env = mode)
  /\ (~ known mode -> GetValidationMode env = ValidationModeRejectFile).
Proof.
  cbn zeta. unfold GetValidationMode, DefaultValidationMode.
  destruct (String.eqb (env _) EmptyString) eqn:E0.
  { apply String.eqb_eq in E0. rewrite E0.
    split; [auto|]. split; [|reflexivity].
    intros [H|[H|H]]; discriminate. }
  destruct (String.eqb (env _) ValidationModeRejectRow) eqn:E1.
  { apply String.eqb_eq in E1. cbn [orb]. split; [auto|]. split; [reflexivity|].
    intros H. exfalso. apply H. auto. }
  destruct (String.eqb (env _) ValidationModeRejectFile) eqn:E2.
  { apply String.eqb_eq in E2. cbn [orb]. split; [auto|]. split; [reflexivity|].
    intros H. exfalso. apply H. auto. }
  destruct (String.eqb (env _) ValidationModeIgnore) eqn:E3.
  { apply String.eqb_eq in E3. cbn [orb]. split; [auto|]. split; [reflexivity|].
    intros H. exfalso. apply H. auto. }
  cbn [orb]. apply String.eqb_neq in E1, E2, E3.
  split; [auto|]. split; [|reflexivity].
  intros [H|[H|H]]; contradiction.
Qed.

(** The size cap and the buffer size are positive and fit the machine
    integer, whatever the environment holds: a value that does not parse or
    is not positive gives the default (2 GiB, 64 KiB), a positive one is
    taken as it is. *)
Theorem sizes_are_positive (env : Env) :
  0 < GetMaxFileSize env < 2 ^ 63
  /\ 0 < GetBufferSize env < 2 ^ 63
  /\ (forall n, ParseInt (env "ENV_MAX_FILE_SIZE") = Some n ->
        GetMaxFileSize env = if 0 <? n then n else DefaultMaxFileSize)
  /\ (forall n, ParseInt (env "ENV_BUFFER_SIZE") = Some n ->
        GetBufferSize env = if 0 <? n then n else DefaultBufferSize)
  /\ (ParseInt (env "ENV_MAX_FILE_SIZE") = None ->
        GetMaxFileSize env = DefaultMaxFileSize)
  /\ (ParseInt (env "ENV_BUFFER_SIZE") = None ->
        GetBufferSize env = DefaultBufferSize).
Proof.
  unfold GetMaxFileSize, GetBufferSize, DefaultMaxFileSize, DefaultBufferSize.
  repeat split.
  - destruct (String.eqb _ _); [lia|].
    destruct (ParseInt _) as [n|] eqn:E; [|lia].
    destruct (n <=? 0) eqn:E0; lia.
  - destruct (String.eqb _ _); [lia|].
    destruct (ParseInt _) as [n|] eqn:E; [|lia].
    apply ParseInt_range in E. destruct (n <=? 0) eqn:E0; lia.
  - destruct (String.eqb _ _); [lia|].
    destruct (ParseInt _) as [n|] eqn:E; [|lia].
    destruct (n <=? 0) eqn:E0; lia.
  - destruct (String.eqb _ _); [lia|].
    destruct (ParseInt _) as [n|] eqn:E; [|lia].
    apply ParseInt_range in E. destruct (n <=? 0) eqn:E0; lia.
  - intros n Hn. destruct (String.eqb _ _) eqn:Ee.
    + apply String.eqb_eq in Ee. rewrite Ee in Hn. discriminate.
    + rewrite Hn. destruct (n <=? 0) eqn:E0, (0 <? n) eqn:E1; lia.
  - intros n Hn. destruct (String.eqb _ _) eqn:Ee.
    + apply String.eqb_eq in Ee. rewrite Ee in Hn. discriminate.
    + rewrite Hn. destruct (n <=? 0) eqn:E0, (0 <? n) eqn:E1; lia.
  - intros Hn. rewrite Hn. now destruct (String.eqb _ _).
  - intros Hn. rewrite Hn. now destruct (String.eqb _ _).
Qed.

End Configuration.

(** ** Closing the handle *)

Module Shutdown.
Import Go Database Lifecycle Samples.

Lemma os_Remove_cancelled path sys :
  cancelled (snd (os_Remove path sys)) = cancelled sys.
Proof.
  unfold os_Remove.
  destruct (bool_decide (path ∈ files sys));
    [destruct (bool_decide (path ∈ protected sys))|]; reflexivity.
Qed.

Lemma sql_Close_keeps sys :
  cancelled (snd (sql_Close sys)) = cancelled sys
  /\ files (snd (sql_Close sys)) = files sys.
Proof. unfold sql_Close. destruct (sql_closed sys); split; reflexivity. Qed.

(** On an initialised handle [Close] returns, with the context cancelled.
    When it returns [nil] the database file is gone and the connection pool
    is closed; when it returns an error no file has been removed. *)
Theorem Close_all_or_nothing (h : DuckDB) (sys : Sys) :
  cancelFunc h <> None ->
  exists r sys',
    Close h sys = (Returned r, sys')
    /\ cancelled sys' = true
    /\ (r = None ->
        (dbPath h ∉ files sys') /\ (db h <> None -> sql_closed sys' = true))
    /\ (r <> None -> files sys' = files sys).
Proof.
  intros Hc.
  destruct (Close h sys) as [o sys'] eqn:E.
  assert (Hshape : exists r, o = Returned r
                             /\ cancelled sys' = true
                             /\ (r <> None -> files sys' = files sys)).
  { revert E. unfold Close. destruct (cancelFunc h); [clear Hc|congruence].
    assert (Hk : cancelled (snd (match db h with
                                 | Some _ => sql_Close (cancel sys)
                                 | None => (None, cancel sys)
                                 end)) = true
                 /\ files (snd (match db h with
                                | Some _ => sql_Close (cancel sys)
                                | None => (None, cancel sys)
                                end)) = files sys).
    { destruct (db h); [|split; reflexivity].
      destruct (sql_Close_keeps (cancel sys)) as [-> ->]. split; reflexivity. }
    destruct (match db h with Some _ => _ | None => _ end) as [closeErr sys2].
    cbn [snd] in Hk. destruct Hk as [Hk1 Hk2].
    destruct closeErr as [e|].
    - intros H. inversion H; subst. eexists. repeat split; auto.
    - pose proof (os_Remove_cancelled (dbPath h) sys2) as Hr.
      destruct (os_Remove_cases (dbPath h) sys2)
        as [(_ & e & E2 & Hi)|[(_ & e & E2 & Hi)|(sys3 & E2 & Hf & _)]];
        rewrite E2 in *; cbn [snd] in Hr.
      + rewrite Hi. cbn [negb]. intros H. inversion H; subst.
        eexists. split; [reflexivity|]. split; [|congruence].
        now rewrite os_Remove_cancelled.
      + rewrite Hi. cbn [negb]. intros H. inversion H; subst.
        eexists. split; [reflexivity|]. split; [congruence|]. auto.
      + intros H. inversion H; subst.
        eexists. split; [reflexivity|]. split; [|congruence].
        rewrite os_Remove_cancelled. congruence. }
  destruct Hshape as (r & -> & Hcan & Hfail).
  exists r, sys'. split; [reflexivity|]. split; [exact Hcan|]. split; [|exact Hfail].
  intros ->. exact (Close_ok_state h sys sys' E).
Qed.

Lemma Close_all_or_nothing_witness :
  cancelFunc sampleHandle <> None
  /\ exists r sys',
      Close sampleHandle sampleSys = (Returned r, sys')
      /\ cancelled sys' = true
      /\ (r = None ->
          (dbPath sampleHandle ∉ files sys')
          /\ (db sampleHandle <> None -> sql_closed sys' = true))
      /\ (r <> None -> files sys' = files sampleSys).
Proof.
  split; [discriminate|].
  exact (Close_all_or_nothing sampleHandle sampleSys ltac:(discriminate)).
Defined.

End Shutdown.

(** ** Result rows and engine resources *)

Module Rows.
Import Go Database.

(** What [createRowMap] stores for a scanned value. *)
Definition stored (v : Value) : Value :=
  match v with VBytes b => VString b | _ => v end.

Lemma createRowMap_other columns values row col :
  (forall j, (j < length values)%nat -> columns !! j <> Some col) ->
  createRowMap columns values row !! col = row !! col.
Proof.
  revert values row. induction columns as [|c columns IH]; intros values row H.
  - reflexivity.
  - destruct values as [|v values]; [reflexivity|]. cbn [createRowMap].
    rewrite IH.
    + apply lookup_insert_ne. intros ->. apply (H 0%nat); [cbn; lia|reflexivity].
    + intros j Hj. apply (H (S j)). cbn. lia.
Qed.

Lemma createRowMap_at columns values row i col v :
  columns !! i = Some col -> values !! i = Some v ->
  (forall j, (i < j)%nat -> (j < length values)%nat -> columns !! j <> Some col) ->
  createRowMap columns values row !! col = Some (stored v).
Proof.
  revert values row i. induction columns as [|c columns IH]; intros values row i Hc Hv Hlast.
  - discriminate.
  - destruct values as [|v0 values]; [discriminate|]. cbn [createRowMap].
    destruct i as [|i].
    + cbn in Hc, Hv. inversion Hc; inversion Hv; subst.
      rewrite createRowMap_other.
      * apply lookup_insert_eq.
      * intros j Hj. apply (Hlast (S j)); cbn; lia.
    + cbn in Hc, Hv. apply (IH values _ i Hc Hv).
      intros j Hij Hj. apply (Hlast (S j)); cbn; lia.
Qed.

(** A row maps every column name to the value scanned for it, a byte slice
    as the string of its bytes.  Of several columns with one name the last
    one wins; a name that is no column has no entry. *)
Theorem createRowMap_lookup (columns : list string) (values : list Value)
        (i : nat) (col : string) (v : Value) :
  columns !! i = Some col -> values !! i = Some v ->
  (forall j, (i < j)%nat -> (j < length values)%nat -> columns !! j <> Some col) ->
  createRowMap columns values ∅ !! col = Some (stored v)
  /\ (forall other, other ∉ columns -> createRowMap columns values ∅ !! other = None).
Proof.
  intros Hc Hv Hlast. split.
  - now apply (createRowMap_at columns values ∅ i col v).
  - intros other Hn. rewrite createRowMap_other; [apply lookup_empty|].
    intros j _ Hj. apply Hn. now apply list_elem_of_lookup_2 in Hj.
Qed.

Lemma createRowMap_lookup_witness :
  createRowMap ["id"; "name"; "id"]%string [VInt64 1; VBytes "ann"; VInt64 2] ∅
  !! "id"%string = Some (VInt64 2)
  /\ createRowMap ["id"; "name"; "id"]%string [VInt64 1; VBytes "ann"; VInt64 2] ∅
     !! "name"%string = Some (VString "ann").
Proof.
  split.
  - refine (proj1 (createRowMap_lookup ["id"; "name"; "id"]%string
                     [VInt64 1; VBytes "ann"; VInt64 2] 2 "id" (VInt64 2)
                     eq_refl eq_refl _)).
    intros j H1 H2. cbn in H2. lia.
  - refine (proj1 (createRowMap_lookup ["id"; "name"; "id"]%string
                     [VInt64 1; VBytes "ann"; VInt64 2] 1 "name" (VBytes "ann")
                     eq_refl eq_refl _)).
    intros j H1 H2. cbn in H2.
    assert (j = 2%nat) as -> by lia. discriminate.
Defined.

Section OnRuntime.
Context {RT : Runtime}.

Lemma scanRows_calls columns pending results n st :
  exists k, calls (snd (scanRows columns pending results n st))
            = calls st ++ repeat CallNext (S k)
            /\ (k <= length pending)%nat
            /\ (forall r, fst (scanRows columns pending results n st) = inl r ->
                          k = length pending).
Proof.
  revert results n st. induction pending as [|scanned pending IH]; intros results n st.
  - exists 0%nat. repeat split; auto.
  - cbn [scanRows]. destruct scanned as [values|err].
    + destruct (IH (results ++ [createRowMap columns values ∅]) (wrap64 (n + 1))
                   (call_ CallNext rows_Next st)) as (k & Hk & Hle & Hall).
      exists (S k). rewrite Hk. cbn [call_ calls length]. rewrite <- app_assoc.
      split; [reflexivity|]. split; [lia|]. intros r Hr. now rewrite (Hall r Hr).
    + exists 0%nat. cbn [length]. split; [reflexivity|]. split; [lia|]. discriminate.
Qed.

Lemma call_result {A : Type} c (op : World -> A * World) st a st1 :
  call c op st = (a, st1) ->
  fst (op (world st)) = a /\ calls st1 = calls st ++ [c].
Proof.
  unfold call. destruct (op (world st)) as [a0 w]. intros H. inversion H; subst.
  split; reflexivity.
Qed.

(** What one statement costs the engine, call by call.  Whatever was
    opened is closed again on every path.  A statement that cannot be
    prepared costs the one call.  A prepared statement that fails to run
    is closed at once.  When it runs, its rows are read by some calls of
    [Next], none if the columns cannot be read and at most one more than
    there are rows, and then the rows are closed and the statement after
    them, whether a row fails to scan or all goes well. *)
Theorem every_statement_is_closed (query : gostring) (st : State) :
  let r := executeSingleQuery query st in
  match db_Prepare query (world st) with
  | (inr _, _) =>
    calls (snd r) = calls st ++ [CallPrepare query]
    /\ exists err, fst r = inr err
  | (inl stmt, prepared) =>
    match fst (stmt_Query stmt prepared) with
    | inr _ =>
      calls (snd r) = calls st ++ [CallPrepare query; CallQuery; CallCloseStmt]
      /\ exists err, fst r = inr err
    | inl rows =>
      exists k,
        calls (snd r)
        = calls st ++ [CallPrepare query; CallQuery] ++ repeat CallNext k
          ++ [CallCloseRows; CallCloseStmt]
        /\ (k <= S (length (rs_rows rows)))%nat
        /\ (k = 0%nat <-> exists err, rs_columns rows = inr err)
    end
  end.
Proof.
  cbn zeta.
  destruct (db_Prepare query (world st)) as [prepared w1] eqn:Ep.
  set (st1 := {| world := w1; calls := calls st ++ [CallPrepare query] |}).
  assert (E1 : call (CallPrepare query) (db_Prepare query) st = (prepared, st1))
    by (unfold call; now rewrite Ep).
  unfold executeSingleQuery, prepareAndExecuteQuery. rewrite E1.
  destruct prepared as [stmt|err].
  - destruct (stmt_Query stmt w1) as [ran w2] eqn:Eq. cbn [fst].
    set (st2 := {| world := w2; calls := calls st1 ++ [CallQuery] |}).
    assert (E2 : call CallQuery (stmt_Query stmt) st1 = (ran, st2))
      by (unfold call; cbn [world st1]; now rewrite Eq).
    rewrite E2. destruct ran as [rows|err].
    + destruct (rs_columns rows) as [columns|err] eqn:Ec.
      * unfold processRowsWithBenchmarking. cbn [qe_columns qe_rows qe_stmt].
        destruct (scanRows_calls columns (rs_rows rows) [] 0 st2) as (k & Hk & Hle & _).
        exists (S k).
        split; [|split; [lia|split; [discriminate|intros [e He]; discriminate]]].
        destruct (scanRows columns (rs_rows rows) [] 0 st2)
          as [[[results rowCount]|err] st3]; cbn [fst snd] in *.
        -- destruct (rs_err rows); cbn [fst snd]; unfold closeBoth;
             cbn [call_ calls]; rewrite Hk; cbn [calls st2 st1];
             now rewrite <- !app_assoc.
        -- unfold closeBoth; cbn [call_ calls]; rewrite Hk; cbn [calls st2 st1];
             now rewrite <- !app_assoc.
      * exists 0%nat. cbn [snd call_ calls st2 st1 repeat app].
        split; [now rewrite <- !app_assoc|]. split; [lia|].
        split; [intros _; now exists err|reflexivity].
    + cbn [fst snd call_ calls st2 st1]. split; [now rewrite <- !app_assoc|].
      eexists. reflexivity.
  - cbn [fst snd calls st1]. split; [reflexivity|]. eexists. reflexivity.
Qed.

End OnRuntime.

End Rows.

(** ** Byte strings *)

Module Bytes.
Import Go Helpers.

Lemma app_nil_r (s : string) : s +:+ EmptyString = s.
Proof.
  induction s as [|c s IH]; [reflexivity|].
  change (String c s +:+ EmptyString) with (String c (s +:+ EmptyString)).
  now rewrite IH.
Qed.

Lemma app_assoc (a b c : string) : (a +:+ b) +:+ c = a +:+ (b +:+ c).
Proof.
  induction a as [|x a IH]; [reflexivity|].
  change ((String x a +:+ b) +:+ c) with (String x ((a +:+ b) +:+ c)).
  change (String x a +:+ (b +:+ c)) with (String x (a +:+ (b +:+ c))).
  now rewrite IH.
Qed.

(** Whether the byte [d] occurs in [s]. *)
Fixpoint occurs (d : ascii) (s : string) : bool :=
  match s with
  | EmptyString => false
  | String c s' => Ascii.eqb c d || occurs d s'
  end.

Lemma occurs_app d a b : occurs d (a +:+ b) = occurs d a || occurs d b.
Proof.
  induction a as [|x a IH]; [reflexivity|].
  change (String x a +:+ b) with (String x (a +:+ b)). cbn [occurs].
  now rewrite IH, orb_assoc.
Qed.

End Bytes.

(** ** The fields of a CSV line *)

Module CsvFields.
Import Go Helpers Bytes.

(** The fields put together again, [d] between them. *)
Fixpoint joinBytes (d : ascii) (fields : list string) : string :=
  match fields with
  | [] => EmptyString
  | [f] => f
  | f :: rest => f +:+ str1 d +:+ joinBytes d rest
  end.

(** The line end taken off the last field: a final [\n], then a final
    [\r\n] of what is left. *)
Definition chomp (lastField : string) : string :=
  TrimSuffix (TrimSuffix lastField (str1 LF)) (String CR (str1 LF)).

Lemma joinBytes_grow d fields field c :
  joinBytes d (fields ++ [field +:+ c]) = joinBytes d (fields ++ [field]) +:+ c.
Proof.
  induction fields as [|f fields IH]; [reflexivity|].
  cbn [app]. destruct fields as [|g fields].
  - cbn [app joinBytes]. now rewrite !app_assoc.
  - cbn [app joinBytes] in *. now rewrite IH, !app_assoc.
Qed.

Lemma joinBytes_next d fields field :
  joinBytes d ((fields ++ [field]) ++ [EmptyString])
  = joinBytes d (fields ++ [field]) +:+ str1 d.
Proof.
  induction fields as [|f fields IH].
  - cbn [app joinBytes]. now rewrite app_nil_r.
  - cbn [app]. destruct fields as [|g fields].
    + cbn [app joinBytes]. now rewrite app_nil_r, !app_assoc.
    + cbn [app joinBytes] in *. now rewrite IH, !app_assoc.
Qed.

Lemma splitFields_joins d line inQuote field fields :
  joinBytes d (fst (splitFields d line inQuote field fields)
               ++ [snd (splitFields d line inQuote field fields)])
  = joinBytes d (fields ++ [field]) +:+ line.
Proof.
  revert inQuote field fields.
  induction line as [|c line IH]; intros inQuote field fields.
  - cbn [splitFields fst snd]. now rewrite app_nil_r.
  - cbn [splitFields].
    change (String c line) with (str1 c +:+ line).
    destruct (Ascii.eqb c DQ).
    + now rewrite IH, joinBytes_grow, app_assoc.
    + destruct (negb inQuote && Ascii.eqb c d) eqn:E.
      * apply andb_prop in E as [_ E]. apply Ascii.eqb_eq in E. subst c.
        now rewrite IH, joinBytes_next, app_assoc.
      * now rewrite IH, joinBytes_grow, app_assoc.
Qed.

Lemma splitFields_plain d line field fields :
  occurs DQ line = false ->
  Forall (fun f => occurs d f = false) fields -> occurs d field = false ->
  Forall (fun f => occurs d f = false)
         (fst (splitFields d line false field fields)
          ++ [snd (splitFields d line false field fields)]).
Proof.
  revert field fields. induction line as [|c line IH]; intros field fields Hq Hfs Hf.
  - cbn [splitFields fst snd]. apply Forall_app. split; [exact Hfs|].
    now constructor.
  - cbn [occurs] in Hq. apply orb_false_elim in Hq as [Hc Hq].
    cbn [splitFields]. rewrite Hc. cbn [negb andb].
    destruct (Ascii.eqb c d) eqn:E.
    + apply IH; [exact Hq| |reflexivity].
      apply Forall_app. split; [exact Hfs|now constructor].
    + apply IH; [exact Hq|exact Hfs|].
      rewrite occurs_app, Hf. cbn [occurs str1]. now rewrite E.
Qed.

(** Splitting a line loses nothing: the line is its fields with the
    delimiter between them, quotes included, up to one empty last field
    (a line that ends in the delimiter) and the line end of the last
    field.  The delimiter is the tab if the line has one, else the
    semicolon if it has one, else the comma.  In a line without a double
    quote no field holds the delimiter. *)
Theorem splitCSVLine_is_lossless (line : string) :
  exists (d : ascii) (fields : list string) (lastField : string),
    d = (if Contains line (str1 TAB) then TAB
         else if Contains line ";" then ";"%char else ","%char)
    /\ joinBytes d (fields ++ [lastField]) = line
    /\ splitCSVLine line
       = fields ++ (if (0 <? String.length lastField)%nat then [chomp lastField] else [])
    /\ (occurs DQ line = false ->
        Forall (fun f => occurs d f = false) (fields ++ [lastField])).
Proof.
  set (d := if Contains line (str1 TAB) then TAB
            else if Contains line ";" then ";"%char else ","%char).
  exists d, (fst (splitFields d line false EmptyString [])),
            (snd (splitFields d line false EmptyString [])).
  split; [reflexivity|]. split; [|split].
  - rewrite splitFields_joins. reflexivity.
  - unfold splitCSVLine. fold d.
    destruct (splitFields d line false EmptyString []) as [fields lastField].
    cbn [fst snd]. destruct (0 <? String.length lastField)%nat;
      [reflexivity|now rewrite List.app_nil_r].
  - intros Hq. now apply splitFields_plain.
Qed.

End CsvFields.

(** ** The header of the upload and the column names *)

Module Headers.
Import Go Helpers.

Lemma headerFrom_lookup fields k (columns : gmap Z string) j :
  headerFrom k fields columns !! j
  = if (k <=? j) && (j <? k + Z.of_nat (length fields))
    then TrimByte DQ <$> fields !! Z.to_nat (j - k)
    else columns !! j.
Proof.
  revert k columns. induction fields as [|name fields IH]; intros k columns.
  - cbn [headerFrom length]. change (Z.of_nat 0) with 0. rewrite Z.add_0_r.
    destruct (k <=? j) eqn:E1, (j <? k) eqn:E2; try reflexivity; lia.
  - cbn [headerFrom]. rewrite IH. cbn [length]. rewrite Nat2Z.inj_succ.
    destruct (Z.eq_dec j k) as [->|Hne].
    + replace (Z.to_nat (k - k)) with 0%nat by lia.
      rewrite lookup_insert_eq.
      destruct (k + 1 <=? k) eqn:E1; [lia|]. cbn [andb].
      destruct (k <=? k) eqn:E2; [|lia].
      destruct (k <? k + Z.succ (Z.of_nat (length fields))) eqn:E3; [reflexivity|].
      apply Z.ltb_ge in E3. clear IH. lia.
    + rewrite lookup_insert_ne by congruence.
      destruct (k + 1 <=? j) eqn:E1.
      * destruct (k <=? j) eqn:E2; [|lia]. cbn [andb].
        replace (k + 1 + Z.of_nat (length fields))
          with (k + Z.succ (Z.of_nat (length fields))) by lia.
        destruct (j <? k + Z.succ (Z.of_nat (length fields))) eqn:E3; [|reflexivity].
        replace (Z.to_nat (j - k)) with (S (Z.to_nat (j - (k + 1)))) by lia.
        reflexivity.
      * cbn [andb]. destruct (k <=? j) eqn:E2; [lia|]. reflexivity.
Qed.

(** The names taken from the header line are the ones the injection
    screen reports: column [i] (0-based) of a later row is named after field
    [i] of the header, its surrounding double quotes removed; a column the
    header does not have is called [Column i+1]. *)
Theorem header_names_are_recalled {W V : Type} (line : string)
        (ctx : @ProcessingContext W V) (i : nat) :
  ColumnMap ctx = ∅ ->
  getColumnName (Z.of_nat i) (ColumnMap (parseHeaderLine line ctx))
  = match splitCSVLine line !! i with
    | Some name => TrimByte DQ name
    | None => "Column " +:+ Itoa (Z.of_nat i + 1)
    end.
Proof.
  intros Hempty. unfold getColumnName, parseHeaderLine.
  destruct (Z.of_nat i =? -1) eqn:E; [apply Z.eqb_eq in E; lia|].
  cbn [ColumnMap setLine]. rewrite headerFrom_lookup, Hempty.
  replace (Z.to_nat (Z.of_nat i - 0)) with i by lia.
  destruct (0 <=? Z.of_nat i) eqn:E1; [|apply Z.leb_gt in E1; lia]. cbn [andb].
  destruct (Z.of_nat i <? 0 + Z.of_nat (length (splitCSVLine line))) eqn:E2.
  - apply Z.ltb_lt in E2.
    destruct (splitCSVLine line !! i) as [name|] eqn:El; [reflexivity|].
    apply lookup_ge_None in El. lia.
  - apply Z.ltb_ge in E2. rewrite lookup_empty.
    destruct (splitCSVLine line !! i) as [name|] eqn:El; [|reflexivity].
    apply lookup_lt_Some in El. lia.
Qed.

Lemma header_names_witness :
  getColumnName 1
    (ColumnMap (parseHeaderLine ("id," +:+ dquote +:+ "name" +:+ dquote +:+ str1 LF)
       {| Destination := tt; LineBuffer := EmptyString; Validator := None;
          ValidatorState := tt; ValidationMode := ValidationModeRejectFile;
          ValidationWarnings := []; HasHeader := true; ColumnMap := ∅;
          CurrentLine := 1; Issue := None; Written := 0; MaxSize := 10 |}))
  = "name"%string.
Proof.
  etransitivity.
  - exact (header_names_are_recalled
             ("id," +:+ dquote +:+ "name" +:+ dquote +:+ str1 LF)
             {| Destination := tt; LineBuffer := EmptyString; Validator := None;
                ValidatorState := tt; ValidationMode := ValidationModeRejectFile;
                ValidationWarnings := []; HasHeader := true; ColumnMap := ∅;
                CurrentLine := 1; Issue := None; Written := 0; MaxSize := 10 |}
             1 eq_refl).
  - vm_compute. reflexivity.
Defined.

End Headers.

(** ** What the bounded copy hands on *)

Module Fidelity.
Import Go GoFacts Helpers Api BoundedCopy Bytes.

(** The bytes of a source, one read after the other. *)
Definition content (src : Source) : string :=
  fold_right (fun r acc => rd_data r +:+ acc) EmptyString src.

Lemma len_content src : len (content src) = total_bytes src.
Proof.
  induction src as [|r src IH]; [reflexivity|].
  cbn [content total_bytes fold_right]. fold (content src) (total_bytes src).
  now rewrite len_app, IH.
Qed.

Section Accepting.
Context {V : Type}.

(** The lines that pass the validator in use. *)
Variable accepted : string -> Prop.

Definition accepting (validator : option (@BufferValidationFunc V)) : Prop :=
  match validator with
  | None => True
  | Some validate =>
    forall line n columns st, accepted line -> 0 < n ->
      exists isValid, validate line n columns st = ((isValid, None, None), st)
  end.

Definition all_accepted (s : string) : Prop :=
  forall a l b, s = a +:+ l +:+ b -> accepted l.

Lemma all_accepted_head line pending :
  all_accepted (line +:+ pending) -> accepted line.
Proof. intros H. apply (H EmptyString line pending). reflexivity. Qed.

Lemma all_accepted_tail line pending :
  all_accepted (line +:+ pending) -> all_accepted pending.
Proof.
  intros H a l b ->. apply (H (line +:+ a) l b). now rewrite app_assoc.
Qed.

Variables (target : string) (T B cap : Z).
Variable validator0 : option (@BufferValidationFunc V).
Variable v0 : V.
Hypothesis Hcap : T <= cap < 2 ^ 63.
Hypothesis HB : B < 2 ^ 63.
Hypothesis Hval : accepting validator0.

Abbreviation Cx := (@ProcessingContext string V).

(** What holds of the copy while [pending] is still to be written. *)
Definition Inv (ctx : Cx) (pending : string) : Prop :=
  Destination ctx +:+ pending = target
  /\ Written ctx + len pending = T
  /\ 0 <= Written ctx
  /\ 0 <= CurrentLine ctx /\ CurrentLine ctx + len pending <= B
  /\ all_accepted pending
  /\ Validator ctx = validator0 /\ ValidatorState ctx = v0
  /\ MaxSize ctx = cap /\ Issue ctx = None.

Lemma write_keeps line pending (ctx : Cx) :
  Destination ctx +:+ (line +:+ pending) = target ->
  Written ctx + len (line +:+ pending) = T -> 0 <= Written ctx ->
  MaxSize ctx = cap ->
  exists ctx',
    writeDataFromContext bufferWrite line ctx = (None, ctx')
    /\ Destination ctx' +:+ pending = target
    /\ Written ctx' + len pending = T /\ 0 <= Written ctx'
    /\ LineBuffer ctx' = LineBuffer ctx /\ CurrentLine ctx' = CurrentLine ctx
    /\ Validator ctx' = Validator ctx /\ ValidatorState ctx' = ValidatorState ctx
    /\ MaxSize ctx' = MaxSize ctx /\ Issue ctx' = Issue ctx.
Proof.
  intros Hd Hw H0 Hm. rewrite len_app in Hw.
  pose proof (len_nonneg line) as Hl. pose proof (len_nonneg pending) as Hp.
  unfold writeDataFromContext, bufferWrite.
  destruct (len line <? 0) eqn:E1; [apply Z.ltb_lt in E1; lia|].
  rewrite Z.ltb_irrefl. cbn [orb].
  cbn [MaxSize Written setDestination]. rewrite wrap64_small by lia.
  destruct (MaxSize ctx <? Written ctx + len line) eqn:E2;
    [apply Z.ltb_lt in E2; lia|].
  rewrite Z.eqb_refl. cbn [negb].
  eexists. split; [reflexivity|]. cbn.
  repeat split; try lia. now rewrite app_assoc.
Qed.

Lemma validateAndWrite_keeps line pending (ctx : Cx) :
  Inv ctx (line +:+ pending) ->
  exists ctx',
    validateAndWrite bufferWrite line ctx = (None, ctx')
    /\ Inv ctx' pending /\ LineBuffer ctx' = LineBuffer ctx.
Proof.
  intros (Hd & Hw & H0 & Hl0 & HlB & Hacc & Hv & Hs & Hm & Hi).
  unfold validateAndWrite.
  destruct (String.length line =? 0)%nat eqn:E.
  { apply Nat.eqb_eq in E. destruct line; [|discriminate].
    exists ctx. split; [reflexivity|]. split; [|reflexivity].
    unfold Inv. repeat split; auto. }
  apply Nat.eqb_neq in E.
  assert (Hline : 0 < len line) by (unfold len; lia).
  pose proof (len_nonneg pending) as Hp. rewrite len_app in HlB.
  set (ctx1 := setLine ctx (wrap64 (CurrentLine ctx + 1)) (ColumnMap ctx)).
  assert (Hc1 : CurrentLine ctx1 = CurrentLine ctx + 1).
  { cbn. apply wrap64_small. lia. }
  assert (Hfin : forall c : Cx,
             Destination c = Destination ctx -> Written c = Written ctx ->
             MaxSize c = MaxSize ctx -> LineBuffer c = LineBuffer ctx ->
             CurrentLine c = CurrentLine ctx + 1 -> Validator c = Validator ctx ->
             ValidatorState c = ValidatorState ctx -> Issue c = Issue ctx ->
             exists ctx',
               writeDataFromContext bufferWrite line c = (None, ctx')
               /\ Inv ctx' pending /\ LineBuffer ctx' = LineBuffer ctx).
  { intros c Q1 Q2 Q3 Q4 Q5 Q6 Q7 Q8.
    destruct (write_keeps line pending c) as (ctx' & -> & R1 & R2 & R3 & R4 & R5 & R6 & R7 & R8 & R9);
      [now rewrite Q1|now rewrite Q2|now rewrite Q2|now rewrite Q3|].
    exists ctx'. split; [reflexivity|]. split; [|congruence].
    unfold Inv. rewrite R5, R6, R7, R8, R9, Q5, Q6, Q7, Q8, Q3.
    repeat split; auto; try lia. now apply all_accepted_tail in Hacc. }
  destruct ((CurrentLine ctx1 =? 1) && HasHeader ctx1).
  - apply Hfin; try reflexivity. exact Hc1.
  - unfold shouldSkipWriting, validateContent.
    change (Validator ctx1) with (Validator ctx). rewrite Hv.
    destruct validator0 as [validate|]; [|apply Hfin; try reflexivity; exact Hc1].
    destruct (Hval line (CurrentLine ctx1) (ColumnMap ctx1) (ValidatorState ctx1))
      as [isValid Hr]; [now apply all_accepted_head in Hacc|lia|].
    rewrite Hr. apply Hfin; try reflexivity. exact Hc1.
Qed.

Lemma lines_keep rest fuel (ctx : Cx) :
  Inv ctx (LineBuffer ctx +:+ rest) ->
  exists ctx',
    processCompleteLinesN bufferWrite fuel ctx = (None, ctx')
    /\ Inv ctx' (LineBuffer ctx' +:+ rest).
Proof.
  revert ctx. induction fuel as [|fuel IH]; intros ctx HI;
    cbn [processCompleteLinesN]; [now exists ctx|].
  unfold readNextLine.
  destruct (ReadBytes LF (LineBuffer ctx)) as [[line after]|] eqn:Er;
    [|now exists ctx].
  destruct (ReadBytes_split _ _ _ _ Er) as [Hbuf _].
  rewrite Hbuf, app_assoc in HI.
  destruct (validateAndWrite_keeps line (after +:+ rest) (setLineBuffer ctx after))
    as (ctx2 & -> & HI2 & Hlb); [exact HI|].
  cbn [LineBuffer setLineBuffer] in Hlb. rewrite <- Hlb in HI2.
  exact (IH ctx2 HI2).
Qed.

Lemma source_keeps src (ctx : Cx) :
  Forall (fun r => rd_err r = None) src ->
  Inv ctx (LineBuffer ctx +:+ content src) ->
  exists ctx',
    processSourceData bufferWrite src ctx = (None, ctx') /\ Inv ctx' EmptyString.
Proof.
  revert ctx. induction src as [|r src IH]; intros ctx Hclean HI;
    cbn [processSourceData content fold_right] in *.
  - unfold processRemainingContent.
    destruct (0 <? len (LineBuffer ctx)) eqn:E.
    + destruct (validateAndWrite_keeps (LineBuffer ctx) EmptyString ctx HI)
        as (ctx' & -> & HI' & _). now exists ctx'.
    + apply Z.ltb_ge in E. pose proof (len_nonneg (LineBuffer ctx)).
      assert (LineBuffer ctx = EmptyString) as Hl.
      { destruct (LineBuffer ctx); [reflexivity|]. unfold len in *. cbn in *. lia. }
      rewrite Hl in HI. now exists ctx.
  - fold (content src) in HI. inversion Hclean as [|? ? Hr Hrest]; subst.
    unfold processNextChunk. rewrite Hr.
    destruct (0 <? len (rd_data r)) eqn:E.
    + rewrite <- app_assoc in HI. unfold processCompleteLines.
      destruct (lines_keep (content src)
                  (S (String.length (LineBuffer (setLineBuffer ctx (LineBuffer ctx +:+ rd_data r)))))
                  (setLineBuffer ctx (LineBuffer ctx +:+ rd_data r)) HI)
        as (ctx1 & -> & HI1).
      exact (IH ctx1 Hrest HI1).
    + apply Z.ltb_ge in E. pose proof (len_nonneg (rd_data r)).
      assert (rd_data r = EmptyString) as Hd.
      { destruct (rd_data r); [reflexivity|]. unfold len in *. cbn in *. lia. }
      rewrite Hd in HI. exact (IH ctx Hrest HI).
Qed.

End Accepting.

Lemma GetMaxFileSize_fits env : GetMaxFileSize env < 2 ^ 63.
Proof.
  unfold GetMaxFileSize, DefaultMaxFileSize.
  destruct (String.eqb _ _); [lia|].
  destruct (ParseInt _) as [n|] eqn:E; [|lia].
  apply Configuration.ParseInt_range in E. destruct (n <=? 0); lia.
Qed.

Lemma effectiveCap_fits env maxSize :
  maxSize < 2 ^ 63 -> effectiveCap env maxSize < 2 ^ 63.
Proof.
  intros H. unfold effectiveCap. destruct (maxSize <=? 0); [|exact H].
  apply GetMaxFileSize_fits.
Qed.

Lemma copy_accepting {V : Type} (accepted : string -> Prop)
      (validator : option (@BufferValidationFunc V)) env dst src bufferSize maxSize v :
  accepting accepted validator -> all_accepted accepted (content src) ->
  Forall (fun r => rd_err r = None) src ->
  total_bytes src <= effectiveCap env maxSize -> maxSize < 2 ^ 63 ->
  CopyWithMaxSizeImpl bufferWrite env dst src bufferSize maxSize validator v
  = (total_bytes src, None, None, dst +:+ content src, v).
Proof.
  intros Hval Hall Hclean Htotal Hmax.
  unfold CopyWithMaxSizeImpl. fold (effectiveCap env maxSize).
  pose proof (effectiveCap_fits env maxSize Hmax) as Hfit.
  pose proof (len_nonneg (content src)) as Hnn. rewrite len_content in Hnn.
  match goal with
  | |- context [processSourceData bufferWrite src ?c] =>
    destruct (source_keeps accepted (dst +:+ content src) (total_bytes src)
                (total_bytes src) (effectiveCap env maxSize) validator v
                ltac:(lia) ltac:(lia) Hval src c Hclean)
      as (ctx' & -> & HI)
  end.
  - unfold Inv. cbn [Destination LineBuffer Written CurrentLine Validator
                       ValidatorState MaxSize Issue].
    change (EmptyString +:+ content src) with (content src).
    rewrite len_content. repeat split; auto; lia.
  - destruct HI as (Hd & Hw & _ & _ & _ & _ & _ & Hs & _ & Hi).
    rewrite app_nil_r in Hd. change (len EmptyString) with 0 in Hw.
    rewrite Hd, Hi, Hs. repeat f_equal. lia.
Qed.

(** Without a validator, a source that reads without error and fits the
    cap is copied byte for byte: the destination gains exactly the bytes of
    the source, in order, the count is their number, and no error or issue
    is reported. *)
Theorem copy_without_validator_is_verbatim {V : Type}
        (env : Env) (dst : string) (src : Source) (bufferSize maxSize : Z) (v : V) :
  Forall (fun r => rd_err r = None) src ->
  total_bytes src <= effectiveCap env maxSize -> maxSize < 2 ^ 63 ->
  CopyWithMaxSizeImpl bufferWrite env dst src bufferSize maxSize None v
  = (total_bytes src, None, None, dst +:+ content src, v).
Proof.
  intros Hclean Htotal Hmax.
  apply (copy_accepting (fun _ => True)); auto.
  - exact I.
  - intros a l b _. exact I.
Qed.

Lemma copy_without_validator_witness :
  CopyWithMaxSizeImpl bufferWrite Samples.emptyEnv "kept:"
    (readerOf 4 "a,b" ++ readerOf 2 (String LF "1,2")) 4 10 None tt
  = (7, None, None, "kept:a,b" +:+ String LF "1,2", tt).
Proof.
  refine (copy_without_validator_is_verbatim Samples.emptyEnv "kept:"
            (readerOf 4 "a,b" ++ readerOf 2 (String LF "1,2")) 4 10 tt _ _ _).
  - vm_compute. repeat constructor.
  - vm_compute. discriminate.
  - lia.
Defined.

End Fidelity.

(** ** The copy of an upload *)

Module UploadCopy.
Import Go GoFacts Helpers Api BoundedCopy Bytes Fidelity RegexpFacts.

Lemma HasPrefix_extend s sub b :
  HasPrefix s sub = true -> HasPrefix (s +:+ b) sub = true.
Proof.
  revert s. induction sub as [|p sub IH]; intros s H; [now destruct (s +:+ b)|].
  destruct s as [|c s]; [discriminate|].
  change (String c s +:+ b) with (String c (s +:+ b)).
  cbn [HasPrefix] in *. apply andb_prop in H as [-> H]. cbn [andb]. now apply IH.
Qed.

Lemma Contains_extend s sub b :
  Contains s sub = true -> Contains (s +:+ b) sub = true.
Proof.
  induction s as [|c s IH]; intros H.
  - cbn [Contains] in H. rewrite orb_false_r in H.
    apply Contains_prefix. now apply (HasPrefix_extend EmptyString).
  - change (String c s +:+ b) with (String c (s +:+ b)).
    cbn [Contains] in *. apply orb_prop in H as [H|H].
    + apply (HasPrefix_extend (String c s) sub b) in H.
      change (String c s +:+ b) with (String c (s +:+ b)) in H. now rewrite H.
    + rewrite (IH H). apply orb_true_r.
Qed.

(** A part of data without suspicious sequence has none either. *)
Lemma containsSuspiciousBytes_part a l b :
  containsSuspiciousBytes (a +:+ l +:+ b) = false ->
  containsSuspiciousBytes l = false.
Proof.
  unfold containsSuspiciousBytes. intros H.
  destruct (existsb (Contains l) suspiciousSequences) eqn:E; [|reflexivity].
  apply existsb_exists in E as (seq & Hin & Hc).
  assert (existsb (Contains (a +:+ l +:+ b)) suspiciousSequences = true) as H1.
  { apply existsb_exists. exists seq. split; [exact Hin|].
    now apply Contains_skip, Contains_extend. }
  congruence.
Qed.

Lemma CSVRowCheckDetailed_passes rowData lineNumber columnMap :
  containsSuspiciousBytes rowData = false ->
  CSVRowCheckDetailed rowData lineNumber columnMap = (true, None, None).
Proof.
  intros H. unfold CSVRowCheckDetailed, findSuspiciousContent. now rewrite H.
Qed.

Section OnCollaborators.
Context {CO : Collaborators}.

(** An upload none of whose bytes form one of the suspicious sequences of
    the pre-filter is stored as it came, whatever encoding was declared
    for it: the temporary file gains exactly the bytes of the upload and no
    error or issue is reported. *)
Theorem clean_upload_is_stored_verbatim
        (env : Env) (dst : string) (src : Source) (bufferSize maxSize : Z)
        (filename encoding : string) :
  Forall (fun r => rd_err r = None) src ->
  containsSuspiciousBytes (content src) = false ->
  total_bytes src <= effectiveCap env maxSize -> maxSize < 2 ^ 63 ->
  CopyWithMaxSizeImpl bufferWrite env dst src bufferSize maxSize
                      (Some (validationWrapper filename encoding)) false
  = (total_bytes src, None, None, dst +:+ content src, false).
Proof.
  intros Hclean Hsafe Htotal Hmax.
  apply (copy_accepting (fun l => containsSuspiciousBytes l = false)); auto.
  - intros line n columns st Hl Hn. exists true.
    unfold validationWrapper. rewrite (proj2 (Z.ltb_lt 0 n) Hn).
    now rewrite CSVRowCheckDetailed_passes.
  - intros a l b Heq. rewrite Heq in Hsafe.
    now apply containsSuspiciousBytes_part in Hsafe.
Qed.

End OnCollaborators.

Lemma clean_upload_witness :
  @CopyWithMaxSizeImpl string bool bufferWrite Samples.emptyEnv EmptyString
    [ {| rd_data := Samples.plainCsv; rd_err := None |} ] 65536 0
    (Some (@validationWrapper Samples.sampleCollaborators "data.csv" "utf-16")) false
  = (16, None, None, Samples.plainCsv, false).
Proof.
  refine (@clean_upload_is_stored_verbatim Samples.sampleCollaborators
            Samples.emptyEnv EmptyString
            [ {| rd_data := Samples.plainCsv; rd_err := None |} ] 65536 0
            "data.csv" "utf-16" _ _ _ _).
  - repeat constructor.
  - vm_compute. reflexivity.
  - vm_compute. discriminate.
  - lia.
Defined.

End UploadCopy.

(** ** The validation mode and the upload *)

Module ModeBlind.
Import Go GoFacts Helpers Api BoundedCopy Uploads.

(** The environment with [ENV_FILE_VALIDATION_MODE] set to [mode]. *)
Definition withMode (env : Env) (mode : string) : Env :=
  fun name => if String.eqb name "ENV_FILE_VALIDATION_MODE" then mode else env name.

Lemma GetMaxFileSize_withMode env mode :
  GetMaxFileSize (withMode env mode) = GetMaxFileSize env.
Proof. reflexivity. Qed.

Lemma GetBufferSize_withMode env mode :
  GetBufferSize (withMode env mode) = GetBufferSize env.
Proof. reflexivity. Qed.

Section Closure.
Context {CO : Collaborators} {W : Type}.
Variable Write : string -> W -> (Z * option error) * W.
Variables filename encoding : string.

Abbreviation PC := (@ProcessingContext W bool).
Abbreviation wrapper := (validationWrapper filename encoding).

(** The context with another validation mode. *)
Definition retag (m : string) (ctx : PC) : PC :=
  {| Destination := Destination ctx; LineBuffer := LineBuffer ctx;
     Validator := Validator ctx; ValidatorState := ValidatorState ctx;
     ValidationMode := m; ValidationWarnings := ValidationWarnings ctx;
     HasHeader := HasHeader ctx; ColumnMap := ColumnMap ctx;
     CurrentLine := CurrentLine ctx; Issue := Issue ctx;
     Written := Written ctx; MaxSize := MaxSize ctx |}.

Definition retagged {A : Type} (m : string) (r : A * PC) : A * PC :=
  (fst r, retag m (snd r)).

Lemma writeData_retag m data (ctx : PC) :
  writeDataFromContext Write data (retag m ctx)
  = retagged m (writeDataFromContext Write data ctx).
Proof.
  unfold writeDataFromContext, retagged. cbn [Destination retag].
  destruct (Write data (Destination ctx)) as [[n werr] d].
  destruct ((n <? 0) || (len data <? n)); [reflexivity|].
  cbn [MaxSize Written setDestination retag].
  destruct (MaxSize ctx <? _); [reflexivity|].
  destruct werr; [|destruct (negb _)]; reflexivity.
Qed.

(** A row the screen flags ends the copy with the buffer error whatever
    the mode; a row it passes goes on. *)
Lemma validateContent_retag m data (ctx : PC) :
  Validator ctx = Some wrapper -> 0 < CurrentLine ctx ->
  validateContent data (retag m ctx) = retagged m (validateContent data ctx).
Proof.
  intros Hv Hl. unfold validateContent, retagged.
  cbn [Validator CurrentLine ColumnMap ValidatorState retag]. rewrite Hv.
  rewrite (wrapper_after_first_line filename encoding _ _ _ _ Hl).
  unfold CSVRowCheckDetailed.
  destruct (findSuspiciousContent data) as [suspicious matches].
  destruct suspicious; reflexivity.
Qed.

Lemma validateAndWrite_retag m line (ctx : PC) :
  unvalidated filename encoding ctx -> CurrentLine ctx + 1 < 2 ^ 63 ->
  validateAndWrite Write line (retag m ctx)
  = retagged m (validateAndWrite Write line ctx).
Proof.
  intros (Hv & Hf & Hl) Hb. unfold validateAndWrite.
  destruct (String.length line =? 0)%nat; [reflexivity|].
  cbn [CurrentLine ColumnMap retag].
  set (ctx1 := setLine ctx (wrap64 (CurrentLine ctx + 1)) (ColumnMap ctx)).
  change (setLine (retag m ctx) (wrap64 (CurrentLine ctx + 1)) (ColumnMap ctx))
    with (retag m ctx1).
  assert (Hc1 : CurrentLine ctx1 = CurrentLine ctx + 1).
  { cbn. apply wrap64_small. lia. }
  change (CurrentLine (retag m ctx1)) with (CurrentLine ctx1).
  change (HasHeader (retag m ctx1)) with (HasHeader ctx1).
  destruct ((CurrentLine ctx1 =? 1) && HasHeader ctx1).
  - change (parseHeaderLine line (retag m ctx1))
      with (retag m (parseHeaderLine line ctx1)).
    apply writeData_retag.
  - unfold shouldSkipWriting.
    change (Validator (retag m ctx1)) with (Validator ctx). 
    change (Validator ctx1) with (Validator ctx). rewrite Hv.
    rewrite validateContent_retag by (auto; lia).
    destruct (validateContent line ctx1) as [[shouldSkip err] ctx2].
    unfold retagged. cbn [fst snd].
    destruct err as [e|]; [reflexivity|]. destruct shouldSkip; [reflexivity|].
    apply writeData_retag.
Qed.

Lemma processCompleteLinesN_retag m B fuel (ctx : PC) :
  unvalidated filename encoding ctx ->
  CurrentLine ctx + len (LineBuffer ctx) <= B -> B + 1 < 2 ^ 63 ->
  processCompleteLinesN Write fuel (retag m ctx)
  = retagged m (processCompleteLinesN Write fuel ctx).
Proof.
  revert ctx. induction fuel as [|fuel IH]; intros ctx Hu HB Hcap;
    cbn [processCompleteLinesN]; [reflexivity|].
  unfold readNextLine. cbn [LineBuffer retag].
  destruct (ReadBytes LF (LineBuffer ctx)) as [[line rest]|] eqn:Er; [|reflexivity].
  destruct (ReadBytes_split _ _ _ _ Er) as [Hbuf Hline].
  assert (Hlen : len (LineBuffer ctx) = len line + len rest)
    by now rewrite Hbuf, len_app.
  pose proof (len_nonneg rest) as Hr.
  change (setLineBuffer (retag m ctx) rest) with (retag m (setLineBuffer ctx rest)).
  set (ctx1 := setLineBuffer ctx rest).
  assert (Hu1 : unvalidated filename encoding ctx1) by exact Hu.
  rewrite validateAndWrite_retag by (auto; change (CurrentLine ctx1) with (CurrentLine ctx); lia).
  pose proof (validateAndWrite_advanced Write filename encoding line ctx1 Hu1) as Ha.
  change (CurrentLine ctx1) with (CurrentLine ctx) in Ha.
  specialize (Ha ltac:(lia)).
  pose proof (advanced_unvalidated filename encoding _ _ Hu1 Ha) as Hu2.
  destruct Ha as (_ & _ & A3 & A4).
  change (CurrentLine ctx1) with (CurrentLine ctx) in A4.
  change (LineBuffer ctx1) with rest in A3.
  destruct (validateAndWrite Write line ctx1) as [[e|] ctx2];
    unfold retagged; cbn [fst snd] in *; [reflexivity|].
  apply IH; [exact Hu2|rewrite A3; lia|exact Hcap].
Qed.

Lemma processNextChunk_retag m B r (ctx : PC) :
  unvalidated filename encoding ctx ->
  CurrentLine ctx + len (LineBuffer ctx) + len (rd_data r) <= B -> B + 1 < 2 ^ 63 ->
  processNextChunk Write r (retag m ctx)
  = retagged m (processNextChunk Write r ctx).
Proof.
  intros Hu HB Hcap. unfold processNextChunk, processCompleteLines.
  destruct (0 <? len (rd_data r)); [|reflexivity].
  cbn [LineBuffer retag].
  change (setLineBuffer (retag m ctx) (LineBuffer ctx +:+ rd_data r))
    with (retag m (setLineBuffer ctx (LineBuffer ctx +:+ rd_data r))).
  set (ctx1 := setLineBuffer ctx (LineBuffer ctx +:+ rd_data r)).
  change (LineBuffer (retag m ctx1)) with (LineBuffer ctx1).
  rewrite (processCompleteLinesN_retag m B); [|exact Hu| |exact Hcap].
  - destruct (processCompleteLinesN Write _ ctx1) as [[e|] ctx2]; reflexivity.
  - change (CurrentLine ctx1) with (CurrentLine ctx).
    change (LineBuffer ctx1) with (LineBuffer ctx +:+ rd_data r).
    rewrite len_app. lia.
Qed.

Lemma processRemainingContent_retag m (ctx : PC) :
  unvalidated filename encoding ctx -> CurrentLine ctx + 1 < 2 ^ 63 ->
  processRemainingContent Write (retag m ctx)
  = retagged m (processRemainingContent Write ctx).
Proof.
  intros Hu Hb. unfold processRemainingContent. cbn [LineBuffer retag].
  destruct (0 <? len (LineBuffer ctx)); [|reflexivity].
  now apply validateAndWrite_retag.
Qed.

Lemma processSourceData_retag m B src (ctx : PC) :
  unvalidated filename encoding ctx ->
  CurrentLine ctx + len (LineBuffer ctx) + total_bytes src <= B -> B + 1 < 2 ^ 63 ->
  processSourceData Write src (retag m ctx)
  = retagged m (processSourceData Write src ctx).
Proof.
  revert ctx. induction src as [|r src IH]; intros ctx Hu HB Hcap;
    cbn [processSourceData total_bytes fold_right] in *.
  - pose proof (len_nonneg (LineBuffer ctx)).
    apply processRemainingContent_retag; [exact Hu|lia].
  - assert (Ht : 0 <= total_bytes src).
    { clear. induction src as [|x l IHl]; cbn; [lia|].
      pose proof (len_nonneg (rd_data x)). fold (total_bytes l). lia. }
    fold (total_bytes src) in HB.
    rewrite (processNextChunk_retag m B); [|exact Hu|lia|exact Hcap].
    destruct (processNextChunk_unvalidated Write filename encoding B r ctx Hu)
      as [Hu1 Hb1]; [lia|exact Hcap|].
    cbn zeta in Hb1.
    pose proof (len_nonneg (LineBuffer (snd (processNextChunk Write r ctx)))) as Hn.
    destruct (processNextChunk Write r ctx) as [[readErr|] ctx1];
      unfold retagged at 1; cbn [fst snd] in *.
    + destruct (is_sentinel readErr EOF); [|reflexivity].
      apply processRemainingContent_retag; [exact Hu1|lia].
    + apply IH; [exact Hu1|lia|exact Hcap].
Qed.

End Closure.

Section OnCollaborators.
Context {CO : Collaborators}.

Lemma copyFileData_withMode env mode src dst filename encoding :
  total_bytes src + 1 < 2 ^ 63 ->
  copyFileData (withMode env mode) src dst filename encoding
  = copyFileData env src dst filename encoding.
Proof.
  intros Hb. unfold copyFileData, CopyWithMaxSizeImpl.
  rewrite GetMaxFileSize_withMode.
  match goal with
  | |- context [processSourceData tempWrite src
                  {| Destination := ?d; LineBuffer := ?l; Validator := ?f;
                     ValidatorState := ?v;
                     ValidationMode := GetValidationMode (withMode env mode);
                     ValidationWarnings := ?w; HasHeader := ?h; ColumnMap := ?c;
                     CurrentLine := ?n; Issue := ?i; Written := ?wr;
                     MaxSize := ?mx |}] =>
    change {| Destination := d; LineBuffer := l; Validator := f;
              ValidatorState := v;
              ValidationMode := GetValidationMode (withMode env mode);
              ValidationWarnings := w; HasHeader := h; ColumnMap := c;
              CurrentLine := n; Issue := i; Written := wr; MaxSize := mx |}
      with (retag (GetValidationMode (withMode env mode))
              {| Destination := d; LineBuffer := l; Validator := f;
                 ValidatorState := v; ValidationMode := GetValidationMode env;
                 ValidationWarnings := w; HasHeader := h; ColumnMap := c;
                 CurrentLine := n; Issue := i; Written := wr; MaxSize := mx |})
  end.
  rewrite (processSourceData_retag tempWrite filename encoding _ (total_bytes src)).
  - destruct (processSourceData tempWrite src _) as [err ctx1].
    unfold retagged. cbn [fst snd Written Issue Destination ValidatorState retag].
    destruct err as [e|]; [|reflexivity].
    unfold mapCopyError, tooLargeMessage. rewrite GetMaxFileSize_withMode. reflexivity.
  - unfold unvalidated. cbn. repeat split; lia.
  - cbn [CurrentLine LineBuffer]. change (len EmptyString) with 0. lia.
  - lia.
Qed.

(** The answer to an upload does not depend on
    [ENV_FILE_VALIDATION_MODE].  The screen of the upload reports a flagged
    row as an error that wraps the buffer error, and that ends the copy in
    every mode: [reject_row] skips no row and [ignore] lets none pass. *)
Theorem upload_ignores_the_validation_mode (env : Env) (mode : string)
        (bound : CSVRequest + error) :
  (forall payload src, bound = inl payload -> Open (CSVFile payload) = inl src ->
                       total_bytes src + 1 < 2 ^ 63) ->
  handleCSVUpload (withMode env mode) bound = handleCSVUpload env bound.
Proof.
  intros Hsize. unfold handleCSVUpload.
  destruct bound as [payload|err]; [|reflexivity].
  assert (Hp : processCsvFileFromHeader (withMode env mode) (CSVFile payload)
                 (TableName payload) (rHasHeader payload) (FileEncoding payload)
               = processCsvFileFromHeader env (CSVFile payload)
                   (TableName payload) (rHasHeader payload) (FileEncoding payload)).
  { unfold processCsvFileFromHeader.
    destruct (negb (isEncodingSupported (FileEncoding payload))); [reflexivity|].
    destruct (Open (CSVFile payload)) as [file|err] eqn:Eo; [|reflexivity].
    destruct (if negb (HasPrefix (Filename (CSVFile payload)) "test")
                 && (0 <? Size (CSVFile payload))
              then validateMimeType (CSVFile payload) else ([], None))
      as [mimeErrors [mimeErr|]]; [reflexivity|].
    destruct (createTempFile (TableName payload)) as [[tempFilePath tempFile]|err];
      [|reflexivity].
    rewrite copyFileData_withMode by exact (Hsize payload file eq_refl Eo).
    reflexivity. }
  now rewrite Hp.
Qed.

End OnCollaborators.

Lemma upload_ignores_mode_witness :
  @handleCSVUpload Samples.sampleCollaborators
    (withMode Samples.emptyEnv ValidationModeIgnore)
    (inl (Samples.uploadOf Samples.formulaCsv "utf-8"))
  = @handleCSVUpload Samples.sampleCollaborators Samples.emptyEnv
      (inl (Samples.uploadOf Samples.formulaCsv "utf-8")).
Proof.
  refine (@upload_ignores_the_validation_mode Samples.sampleCollaborators
            Samples.emptyEnv ValidationModeIgnore
            (inl (Samples.uploadOf Samples.formulaCsv "utf-8")) _).
  intros payload src Hp Ho. inversion Hp; subst. cbn in Ho. inversion Ho; subst.
  vm_compute. reflexivity.
Defined.

End ModeBlind.

(** ** The stages of an upload *)

Module UploadStages.
Import Go GoFacts Helpers Api BoundedCopy RegexpFacts Uploads Samples.

(** Collaborators as in the examples, with an import that fails. *)
Definition refusingImport : Collaborators :=
  {| detectEncoding := fun _ => "Ascii"%string;
     ValidateCSVFileFromData := fun _ =>
       inl {| Valid := true; ColumnCount := 2; ErrorMessage := EmptyString |};
     validateMimeType := fun _ => ([], None);
     TempFile := string;
     createTempFile := fun tableName =>
       inl ("/tmp/upload_" +:+ tableName +:+ ".csv", EmptyString);
     tempWrite := bufferWrite;
     UploadResult := Z;
     importCsvData := fun _ _ _ _ =>
       inl [plainError "DIRECT_IMPORT_FAILED" "Failed to create table from CSV"] |}.

(** The environment with a cap of ten bytes. *)
Definition tinyCap : Env :=
  fun name => if String.eqb name "ENV_MAX_FILE_SIZE" then "10"%string else EmptyString.

Lemma format_checks_witness :
  snd (@CopyWithMaxSizeImpl string bool bufferWrite emptyEnv EmptyString
         [ {| rd_data := plainCsv; rd_err := None |} ] 65536 0
         (Some (@validationWrapper sampleCollaborators "data.csv" "utf-16")) false)
  = false.
Proof.
  refine (@format_checks_never_run sampleCollaborators string bufferWrite
            "data.csv" "utf-16" emptyEnv EmptyString
            [ {| rd_data := plainCsv; rd_err := None |} ] 65536 0 _).
  vm_compute. reflexivity.
Defined.

Lemma status_422_witness :
  exists payload path errs importErrors,
    (inl (uploadOf plainCsv "utf-8") : CSVRequest + error) = inl payload
    /\ @processCsvFileFromHeader refusingImport emptyEnv (CSVFile payload)
         (TableName payload) (rHasHeader payload) (FileEncoding payload)
       = (path, errs, None)
    /\ @importCsvData refusingImport (TableName payload) path (rHasHeader payload)
         (Override payload)
       = inl importErrors.
Proof.
  refine (@status_422_is_from_import refusingImport emptyEnv
            (inl (uploadOf plainCsv "utf-8")) _).
  vm_compute. reflexivity.
Defined.

Section OnCollaborators.
Context {CO : Collaborators}.

(** An upload whose copy ends with the size error is answered 413, with
    the one error [FILE_SIZE_EXCEEDED] that names the cap in whole GiB. *)
Theorem size_error_is_answered_413 (env : Env) (payload : CSVRequest)
        (file : Source) (tempFilePath : string) (tempFile : TempFile)
        written issue d v :
  isEncodingSupported (FileEncoding payload) = true ->
  Open (CSVFile payload) = inl file ->
  snd (if negb (HasPrefix (Filename (CSVFile payload)) "test")
          && (0 <? Size (CSVFile payload))
       then validateMimeType (CSVFile payload) else ([], None)) = None ->
  createTempFile (TableName payload) = inl (tempFilePath, tempFile) ->
  CopyWithMaxSizeImpl tempWrite env tempFile file (GetBufferSize env)
    (GetMaxFileSize env)
    (Some (validationWrapper (Filename (CSVFile payload)) (FileEncoding payload)))
    false
  = (written, issue, Some (Sentinel ErrMaxFileSizeExceeded), d, v) ->
  handleCSVUpload env (inl payload)
  = {| status := StatusRequestEntityTooLarge;
       body := ErrorsBody
         [plainError "FILE_SIZE_EXCEEDED"
            ("File too large (max "
             +:+ Itoa (Z.quot (GetMaxFileSize env) (1024 * 1024 * 1024)) +:+ "GB)")] |}.
Proof.
  intros Henc Hopen Hmime Htemp Hcopy.
  unfold handleCSVUpload, processCsvFileFromHeader.
  rewrite Henc, Hopen. cbn [negb].
  destruct (if negb (HasPrefix (Filename (CSVFile payload)) "test")
               && (0 <? Size (CSVFile payload))
            then validateMimeType (CSVFile payload) else ([], None))
    as [mimeErrors mimeErr].
  cbn [snd] in Hmime. subst mimeErr. rewrite Htemp.
  unfold copyFileData. rewrite Hcopy.
  unfold mapCopyError. cbn [is_sentinel sentinel_eqb Error].
  unfold tooLargeMessage.
  match goal with
  | |- context [Contains ?s "file too large"] =>
    replace (Contains s "file too large") with true
      by (symmetry; apply Contains_prefix; reflexivity)
  end.
  reflexivity.
Qed.

End OnCollaborators.

Lemma size_error_witness :
  @handleCSVUpload sampleCollaborators tinyCap (inl (uploadOf plainCsv "utf-8"))
  = {| status := 413;
       body := ErrorsBody
         [plainError "FILE_SIZE_EXCEEDED" "File too large (max 0GB)"] |}.
Proof.
  refine (@size_error_is_answered_413 sampleCollaborators tinyCap
            (uploadOf plainCsv "utf-8")
            [ {| rd_data := plainCsv; rd_err := None |} ]
            "/tmp/upload_t.csv" EmptyString 16 None plainCsv false
            _ _ _ _ _);
    vm_compute; reflexivity.
Defined.

End UploadStages.

(** ** The encoding check *)

Module Encodings.
Import Go Helpers Api.

Section OnCollaborators.
Context {CO : Collaborators}.

(** What the verdict of [validateEncodingFromData] means, whatever the
    detector says.  A label outside the supported ones is refused by name;
    data that pass as UTF-8 (declared, or by default) are valid UTF-8; data
    that pass as UTF-16 were labelled UTF-16 by the detector.  Empty data
    pass under every supported label. *)
Theorem encoding_verdicts (data userSpecifiedEncoding : string) :
  let declared := ToLower userSpecifiedEncoding in
  (isEncodingSupported declared = false ->
   validateEncodingFromData data userSpecifiedEncoding
   = Some (errorString (unsupportedMessage declared)))
  /\ (isEncodingSupported declared = true ->
      validateEncodingFromData EmptyString userSpecifiedEncoding = None)
  /\ (isUTF8EncodingSpecified declared = true ->
      validateEncodingFromData data userSpecifiedEncoding = None ->
      Utf8.Valid data = true \/ data = EmptyString)
  /\ (isUTF16EncodingSpecified declared = true ->
      validateEncodingFromData data userSpecifiedEncoding = None ->
      Contains (ToLower (detectEncoding data)) "utf-16"
      || Contains (ToLower (detectEncoding data)) "utf16" = true
      \/ data = EmptyString).
Proof.
  cbn zeta. set (declared := ToLower userSpecifiedEncoding).
  unfold validateEncodingFromData. fold declared.
  split; [|split; [|split]].
  - intros ->. reflexivity.
  - intros ->. reflexivity.
  - intros H8.
    assert (Hs : isEncodingSupported declared = true).
    { unfold isUTF8EncodingSpecified in H8.
      apply orb_prop in H8 as [H8|H8]; [apply orb_prop in H8 as [H8|H8]|];
        apply String.eqb_eq in H8; rewrite H8; reflexivity. }
    rewrite Hs, H8. cbn [negb].
    destruct (String.length data =? 0)%nat eqn:E.
    { intros _. right. apply Nat.eqb_eq in E. now destruct data. }
    unfold detectDataEncoding.
    destruct (String.eqb (detectEncoding data) EmptyString); [discriminate|].
    set (detected := ToLower (detectEncoding data)).
    destruct (Contains detected "utf-8" || Contains detected "utf8") eqn:I8;
      destruct (Contains detected "utf-16" || Contains detected "utf16") eqn:I16;
      cbn [negb andb].
    + unfold validateUTF8UserSpecified. cbn [orb].
      destruct (Utf8.Valid data); [auto|discriminate].
    + unfold validateUTF8UserSpecified. cbn [orb].
      destruct (Utf8.Valid data); [auto|discriminate].
    + unfold validateUTF8UserSpecified. cbn [orb].
      destruct (String.eqb declared EmptyString); [|discriminate].
      destruct (Utf8.Valid data); [auto|discriminate].
    + unfold validateUnsupportedEncodingFallback.
      destruct (Utf8.Valid data); [auto|discriminate].
  - intros H16.
    assert (Hd : declared = "utf-16"%string \/ declared = "utf16"%string).
    { unfold isUTF16EncodingSpecified in H16.
      apply orb_prop in H16 as [H16|H16]; apply String.eqb_eq in H16; auto. }
    assert (Hs : isEncodingSupported declared = true)
      by (destruct Hd as [-> | ->]; reflexivity).
    assert (H8 : isUTF8EncodingSpecified declared = false)
      by (destruct Hd as [-> | ->]; reflexivity).
    rewrite Hs, H8, H16. cbn [negb].
    destruct (String.length data =? 0)%nat eqn:E.
    { intros _. right. apply Nat.eqb_eq in E. now destruct data. }
    unfold detectDataEncoding.
    destruct (String.eqb (detectEncoding data) EmptyString); [discriminate|].
    set (detected := ToLower (detectEncoding data)).
    destruct (Contains detected "utf-8" || Contains detected "utf8") eqn:I8;
      destruct (Contains detected "utf-16" || Contains detected "utf16") eqn:I16;
      cbn [negb andb]; auto.
    + unfold validateUTF16UserSpecified. cbn [negb]. discriminate.
    + unfold validateUnsupportedEncodingFallback.
      destruct (Utf8.Valid data); [|discriminate].
      unfold validateUTF16UserSpecified. cbn [negb]. discriminate.
Qed.

End OnCollaborators.

End Encodings.

(** ** Snapshot locations *)

Module S3Uris.
Import Go Snapshot Bytes RegexpFacts.

Lemma dropBytes_app p x : dropBytes (String.length p) (p +:+ x) = x.
Proof.
  induction p as [|c p IH]; [reflexivity|].
  change (String c p +:+ x) with (String c (p +:+ x)). exact IH.
Qed.

Lemma HasPrefix_split s p :
  HasPrefix s p = true -> s = p +:+ dropBytes (String.length p) s.
Proof.
  revert s. induction p as [|c p IH]; intros s H; [reflexivity|].
  destruct s as [|a s]; [discriminate|].
  cbn [HasPrefix] in H. apply andb_prop in H as [Ha H].
  apply Ascii.eqb_eq in Ha. subst a.
  change (String c p +:+ dropBytes (String.length (String c p)) (String c s))
    with (String c (p +:+ dropBytes (String.length p) s)).
  now rewrite <- (IH s H).
Qed.

Lemma cut_found sep s before after :
  cut sep s = Some (before, after) <->
  s = before +:+ String sep after /\ occurs sep before = false.
Proof.
  revert before. induction s as [|c s IH]; intros before.
  - split; [discriminate|]. intros [H _]. destruct before; discriminate.
  - cbn [cut]. destruct (Ascii.eqb c sep) eqn:E.
    + apply Ascii.eqb_eq in E. subst c. split.
      * intros H. inversion H; subst. split; reflexivity.
      * intros [H Ho]. destruct before as [|b before].
        -- change (EmptyString +:+ String sep after) with (String sep after) in H.
           inversion H; subst. reflexivity.
        -- change (String b before +:+ String sep after)
             with (String b (before +:+ String sep after)) in H.
           inversion H; subst. cbn [occurs] in Ho.
           now rewrite Ascii.eqb_refl in Ho.
    + destruct (cut sep s) as [[b0 a0]|] eqn:Ec.
      * split.
        -- intros H. inversion H; subst.
           destruct (proj1 (IH b0) eq_refl) as [-> Ho].
           split; [reflexivity|]. cbn [occurs]. now rewrite E, Ho.
        -- intros [H Ho]. destruct before as [|b before].
           ++ change (EmptyString +:+ String sep after) with (String sep after) in H.
              inversion H; subst. now rewrite Ascii.eqb_refl in E.
           ++ change (String b before +:+ String sep after)
                with (String b (before +:+ String sep after)) in H.
              inversion H; subst. cbn [occurs] in Ho.
              apply orb_false_elim in Ho as [_ Ho].
              assert (Hc : Some (b0, a0) = Some (before, after))
                by (apply IH; split; [reflexivity|exact Ho]).
              now inversion Hc.
      * split; [discriminate|]. intros [H Ho]. destruct before as [|b before].
        -- change (EmptyString +:+ String sep after) with (String sep after) in H.
           inversion H; subst. now rewrite Ascii.eqb_refl in E.
        -- change (String b before +:+ String sep after)
             with (String b (before +:+ String sep after)) in H.
           inversion H; subst. cbn [occurs] in Ho.
           apply orb_false_elim in Ho as [_ Ho].
           assert (Hc : None = Some (before, after))
             by (apply IH; split; [reflexivity|exact Ho]).
           discriminate.
Qed.

(** [ParseS3URI] accepts exactly the texts [s3://bucket/key] with a bucket
    that is not empty and has no slash and a key that is not empty, and
    returns that bucket and that key: what [UploadSnapshot] returns for
    such a bucket and key is read back as they were. *)
Theorem ParseS3URI_reads_back (s3URI bucket key : string) :
  ParseS3URI s3URI = inl (bucket, key)
  <-> s3URI = "s3://" +:+ bucket +:+ "/" +:+ key
      /\ bucket <> EmptyString /\ key <> EmptyString
      /\ occurs "/" bucket = false.
Proof.
  unfold ParseS3URI, TrimPrefix, SplitN2. split.
  - destruct (HasPrefix s3URI "s3://") eqn:Hp; [|discriminate]. cbn [negb].
    apply HasPrefix_split in Hp.
    destruct (cut "/" (dropBytes (String.length "s3://") s3URI))
      as [[b k]|] eqn:Ec; [|discriminate].
    destruct (String.eqb b EmptyString) eqn:Eb; [discriminate|].
    destruct (String.eqb k EmptyString) eqn:Ek; [discriminate|]. cbn [orb].
    intros H. inversion H; subst b k. clear H.
    apply cut_found in Ec as [Ec Ho].
    apply String.eqb_neq in Eb, Ek.
    repeat split; auto. rewrite Hp at 1. now rewrite Ec.
  - intros (-> & Hb & Hk & Ho).
    rewrite HasPrefix_app. cbn [negb]. rewrite dropBytes_app.
    assert (Hc : cut "/" (bucket +:+ "/" +:+ key) = Some (bucket, key))
      by (apply cut_found; split; [reflexivity|exact Ho]).
    rewrite Hc.
    apply String.eqb_neq in Hb, Hk. now rewrite Hb, Hk.
Qed.

Section OnStorage.
Context {SG : Storage}.

(** A location that is no such URI ends the load of a snapshot before the
    local file is created and before anything is fetched: the one
    operation done is the loading of the configuration, and with that
    loaded the error is the one of the parser behind [failed to download
    snapshot]. *)
Theorem bad_location_stops_the_load (s3URI dbPath : string) (st : Site) (err : error) :
  ParseS3URI s3URI = inr err ->
  ops (snd (loadSnapshotFromS3 s3URI dbPath st)) = ops st ++ [OpLoadConfig]
  /\ fst (loadSnapshotFromS3 s3URI dbPath st) <> None
  /\ (fst (LoadDefaultConfig (cloud st)) = None ->
      fst (loadSnapshotFromS3 s3URI dbPath st)
      = Some (wrapError ("failed to download snapshot: " +:+ Error err) err)).
Proof.
  intros Hp. unfold loadSnapshotFromS3, NewS3Client, ask, DownloadSnapshot.
  rewrite Hp. destruct (LoadDefaultConfig (cloud st)) as [[e|] c]; cbn [fst snd ops].
  - repeat split; [discriminate|discriminate].
  - repeat split; discriminate.
Qed.

End OnStorage.

(** A store in which everything succeeds and nothing changes. *)
Definition quietStorage : Storage :=
  {| Cloud := unit;
     LoadDefaultConfig := fun c => (None, c);
     os_Create := fun _ c => (None, c);
     os_Open := fun _ c => (None, c);
     file_Stat := fun _ c => (None, c);
     Download := fun _ _ _ c => (None, c);
     Upload := fun _ _ _ c => (None, c) |}.

Lemma bad_location_witness :
  ops (snd (@loadSnapshotFromS3 quietStorage "https://bucket/key" "/tmp/duckdb.db"
              (@Build_Site quietStorage tt [])))
  = [OpLoadConfig].
Proof.
  exact (proj1 (@bad_location_stops_the_load quietStorage "https://bucket/key"
                  "/tmp/duckdb.db" (@Build_Site quietStorage tt [])
                  (errorString "invalid S3 URI: must start with s3://") eq_refl)).
Defined.

End S3Uris.

(** ** Tables made from uploads, and their cleanup *)

Module TableUpkeep.
Import Go Database Tables TableNames.

Section OnHost.
Context {RT : Runtime} {HO : Host}.

Lemma exec_execs statement (s : Session) :
  execs (snd (exec statement s)) = execs s ++ [statement].
Proof. unfold exec. now destruct (db_Exec statement (world (engine s))). Qed.

(** The engine is given the table name only as sanitized.  Without
    [override] the one statement run is the one that creates the table from
    the file.  With [override] the table is dropped first: when the drop
    fails its error is returned and the table is not created; when it
    succeeds the table is created next.  Nothing else is run, and on a
    closed handle nothing at all. *)
Theorem tables_are_named_by_the_class (h : DuckDB) (tableName csvPath : gostring)
        (hasHeader override : bool) (s : Session) :
  let r := createTableFromCSVDirectly h tableName csvPath hasHeader override s in
  let name := sanitizeTableName tableName in
  let drop := lit "DROP TABLE IF EXISTS " ++ name in
  let create :=
    lit "CREATE TABLE " ++ name ++ lit " AS SELECT * FROM read_csv('" ++ csvPath
    ++ lit "', header=" ++ lit (if hasHeader then "true" else "false")
    ++ lit ", auto_detect=true, sample_size=-1, normalize_names=true);" in
  Forall in_name_class name
  /\ (db h = None ->
      r = (Some (errorString "database connection is closed"), s))
  /\ (db h <> None -> override = false -> execs (snd r) = execs s ++ [create])
  /\ (db h <> None -> override = true ->
      match fst (db_Exec drop (world (engine s))) with
      | Some err =>
        execs (snd r) = execs s ++ [drop]
        /\ fst r = Some (wrapError ("failed to drop table: " +:+ Error err) err)
      | None => execs (snd r) = execs s ++ [drop; create]
      end).
Proof.
  cbn zeta. split; [|split; [|split]].
  - rewrite sanitizeTableName_map. apply Forall_fmap, Forall_true.
    intros r. apply sanitizeRune_class.
  - intros Hdb. unfold createTableFromCSVDirectly. now rewrite Hdb.
  - intros Hdb ->. unfold createTableFromCSVDirectly.
    destruct (db h); [|congruence].
    pose proof (exec_execs (createTableSQL tableName csvPath hasHeader) s) as He.
    destruct (exec (createTableSQL tableName csvPath hasHeader) s) as [[e|] s2];
      exact He.
  - intros Hdb ->. unfold createTableFromCSVDirectly.
    destruct (db h); [|congruence].
    fold (dropTableSQL tableName).
    destruct (db_Exec (dropTableSQL tableName) (world (engine s))) as [o w] eqn:Ed.
    set (s1 := {| engine := {| world := w; calls := calls (engine s) |};
                  execs := execs s ++ [dropTableSQL tableName] |}).
    assert (E1 : exec (dropTableSQL tableName) s = (o, s1))
      by (unfold exec; now rewrite Ed).
    rewrite E1. destruct o as [e|]; cbn [fst snd].
    + split; reflexivity.
    + pose proof (exec_execs (createTableSQL tableName csvPath hasHeader) s1) as He.
      destruct (exec (createTableSQL tableName csvPath hasHeader) s1) as [[e|] s2];
        cbn [snd execs s1] in *; rewrite He, <- app_assoc; reflexivity.
Qed.

(** *** The sweep of a tick *)

Lemma sweep_keeps now order (resources : gmap string Z) s r e :
  resources !! r = Some e -> now <= e ->
  fst (sweep now order resources s) !! r = Some e.
Proof.
  revert resources s. induction order as [|x order IH]; intros resources s Hr He;
    cbn [sweep]; [exact Hr|].
  destruct (resources !! x) as [expiry|] eqn:Ex; [|now apply IH].
  destruct (expiry <? now) eqn:El; [|now apply IH].
  apply IH; [|exact He].
  rewrite lookup_delete_ne; [exact Hr|]. intros ->.
  apply Z.ltb_lt in El. rewrite Ex in Hr. inversion Hr; subst. lia.
Qed.

(** Whether the tick at [now] drops the table of [resource]. *)
Definition dropped (now : Z) (resources : gmap string Z) (resource : string) : bool :=
  match resources !! resource with
  | Some expiry => (expiry <? now) && HasPrefix resource "tmp_import_"
  | None => false
  end.

Lemma sweep_effect now order (resources : gmap string Z) s :
  NoDup order ->
  (forall r, fst (sweep now order resources s) !! r
             = match resources !! r with
               | Some e => if (e <? now) && bool_decide (r ∈ order) then None else Some e
               | None => None
               end)
  /\ execs (snd (sweep now order resources s))
     = execs s ++ map (fun r => dropTableSQL (runesOf r))
                      (List.filter (dropped now resources) order).
Proof.
  revert resources s. induction order as [|x order IH]; intros resources s Hnd.
  - cbn [sweep fst snd List.filter map]. split; [|now rewrite app_nil_r].
    intros r. destruct (resources !! r) as [e|]; [|reflexivity].
    rewrite bool_decide_eq_false_2 by apply not_elem_of_nil.
    now rewrite andb_false_r.
  - apply NoDup_cons in Hnd as [Hx Hnd]. cbn [sweep List.filter].
    assert (Hsame : forall m : gmap string Z,
               (forall r, r ∈ order -> m !! r = resources !! r) ->
               List.filter (dropped now m) order
               = List.filter (dropped now resources) order).
    { intros m Hm. apply filter_ext_in. intros r Hr. unfold dropped.
      rewrite Hm; [reflexivity|]. now apply list_elem_of_In. }
    destruct (resources !! x) as [expiry|] eqn:Ex.
    + destruct (expiry <? now) eqn:El; cbn [andb].
      * assert (Hdx : dropped now resources x = HasPrefix x "tmp_import_")
          by (unfold dropped; now rewrite Ex, El).
        rewrite Hdx.
        set (s1 := if HasPrefix x "tmp_import_"
                   then snd (exec (dropTableSQL (runesOf x)) s) else s).
        destruct (IH (delete x resources) s1 Hnd) as [Hl He]. split.
        -- intros r. rewrite Hl. destruct (decide (r = x)) as [->|Hne].
           ++ rewrite lookup_delete_eq, Ex, El.
              rewrite bool_decide_eq_true_2 by apply list_elem_of_here.
              reflexivity.
           ++ rewrite lookup_delete_ne by congruence.
              destruct (resources !! r) as [e|]; [|reflexivity].
              destruct (e <? now); [|reflexivity]. cbn [andb].
              destruct (decide (r ∈ order)) as [Hin|Hout].
              ** rewrite !bool_decide_eq_true_2; auto. now apply list_elem_of_further.
              ** rewrite !bool_decide_eq_false_2; auto.
                 intros Hc. apply elem_of_cons in Hc as [Hc|Hc]; congruence.
        -- rewrite He, Hsame.
           ++ subst s1. destruct (HasPrefix x "tmp_import_"); cbn [map].
              ** now rewrite exec_execs, <- app_assoc.
              ** reflexivity.
           ++ intros r Hr. apply lookup_delete_ne. intros ->. contradiction.
      * assert (Hdx : dropped now resources x = false)
          by (unfold dropped; now rewrite Ex, El).
        rewrite Hdx.
        destruct (IH resources s Hnd) as [Hl He]. split; [|exact He].
        intros r. rewrite Hl. destruct (resources !! r) as [e|] eqn:Er; [|reflexivity].
        destruct (e <? now) eqn:Ee; [|reflexivity]. cbn [andb].
        destruct (decide (r ∈ order)) as [Hin|Hout].
        -- rewrite !bool_decide_eq_true_2; auto. now apply list_elem_of_further.
        -- rewrite !bool_decide_eq_false_2; auto.
           intros Hc. apply elem_of_cons in Hc as [Hc|Hc]; [|contradiction].
           subst r. congruence.
    + assert (Hdx : dropped now resources x = false)
        by (unfold dropped; now rewrite Ex).
      rewrite Hdx.
      destruct (IH resources s Hnd) as [Hl He]. split; [|exact He].
      intros r. rewrite Hl. destruct (resources !! r) as [e|] eqn:Er; [|reflexivity].
      destruct (e <? now) eqn:Ee; [|reflexivity]. cbn [andb].
      destruct (decide (r ∈ order)) as [Hin|Hout].
      * rewrite !bool_decide_eq_true_2; auto. now apply list_elem_of_further.
      * rewrite !bool_decide_eq_false_2; auto.
        intros Hc. apply elem_of_cons in Hc as [Hc|Hc]; [|contradiction].
        subst r. congruence.
Qed.

(** A tick leaves exactly the resources that have not expired, and the
    statements it runs are the drops of the expired resources named
    [tmp_import_...], in the order of the range, under their sanitized
    names.  (The range visits every resource once.) *)
Theorem tick_drops_what_expired (now : Z) (order : list string)
        (resources : gmap string Z) (s : Session) :
  NoDup order -> (forall r e, resources !! r = Some e -> r ∈ order) ->
  (forall r, fst (sweep now order resources s) !! r
             = match resources !! r with
               | Some e => if e <? now then None else Some e
               | None => None
               end)
  /\ execs (snd (sweep now order resources s))
     = execs s ++ map (fun r => dropTableSQL (runesOf r))
                      (List.filter (dropped now resources) order).
Proof.
  intros Hnd Hcover. destruct (sweep_effect now order resources s Hnd) as [Hl He].
  split; [|exact He]. intros r. rewrite Hl.
  destruct (resources !! r) as [e|] eqn:Er; [|reflexivity].
  rewrite (bool_decide_eq_true_2 _ (Hcover r e Er)). now rewrite andb_true_r.
Qed.

Lemma worker_keeps events now r e (resources : gmap string Z) s :
  resources !! r = Some e -> now + retention <= e ->
  (forall resource t, Queued resource t ∈ events -> now <= t) ->
  (forall t order, Tick t order ∈ events -> t <= now + retention) ->
  exists e', fst (fst (worker events resources s)) !! r = Some e'
             /\ now + retention <= e'.
Proof.
  revert resources s e. induction events as [|ev events IH];
    intros resources s e Hr He Hq Ht; cbn [worker].
  - now exists e.
  - assert (Hq' : forall resource t, Queued resource t ∈ events -> now <= t)
      by (intros resource t Hin; apply (Hq resource t); now apply list_elem_of_further).
    assert (Ht' : forall t order, Tick t order ∈ events -> t <= now + retention)
      by (intros t order Hin; apply (Ht t order); now apply list_elem_of_further).
    destruct ev as [|resource t|t order].
    + now exists e.
    + destruct (decide (resource = r)) as [->|Hne].
      * apply (IH _ s (t + retention)); auto.
        -- apply lookup_insert_eq.
        -- pose proof (Hq r t (list_elem_of_here _ _)). lia.
      * apply (IH _ s e); auto. now rewrite lookup_insert_ne.
    + pose proof (Ht t order (list_elem_of_here _ _)) as Hle.
      pose proof (sweep_keeps t order resources s r e Hr ltac:(lia)) as Hk.
      destruct (sweep t order resources s) as [resources1 s1]. cbn [fst] in Hk.
      now apply (IH resources1 s1 e).
Qed.

(** A resource queued at [now] is still queued as long as no tick is
    later than thirty minutes after [now]: whatever else is queued and
    whenever the ticks come until then, the worker does not forget or drop
    it.  (The clock does not go back.) *)
Theorem queued_resource_is_retained (events : list Event) (resource : string)
        (now : Z) (resources : gmap string Z) (s : Session) :
  (forall other t, Queued other t ∈ events -> now <= t) ->
  (forall t order, Tick t order ∈ events -> t <= now + retention) ->
  exists expiry,
    fst (fst (worker (Queued resource now :: events) resources s)) !! resource
    = Some expiry
    /\ now + retention <= expiry.
Proof.
  intros Hq Ht. cbn [worker].
  apply (worker_keeps events now resource (now + retention)); auto; [|lia].
  apply lookup_insert_eq.
Qed.

End OnHost.

(** A host on the engine of the examples: a statement takes a
    millisecond and succeeds. *)
Definition sampleExec (statement : gostring) (w : Z) : option error * Z :=
  (None, w + 1000000).

Definition sampleHost : @Host Samples.sampleRuntime :=
  @Build_Host Samples.sampleRuntime sampleExec (fun _ => "20250101"%string).

Definition sampleSession : @Session Samples.sampleRuntime :=
  {| engine := Samples.sampleState; execs := [] |}.

Definition minute : Z := 60 * 1000000000.

Lemma tick_witness :
  execs (snd (@sweep Samples.sampleRuntime sampleHost (31 * minute)
                ["tmp_import_a-b"; "kept"; "notes"]%string
                (<["tmp_import_a-b"%string := 30 * minute]>
                   (<["kept"%string := 40 * minute]>
                      (<["notes"%string := 5 * minute]> ∅)))
                sampleSession))
  = [lit "DROP TABLE IF EXISTS tmp_import_a_b"].
Proof.
  etransitivity.
  - refine (proj2 (@tick_drops_what_expired Samples.sampleRuntime sampleHost
                     (31 * minute) ["tmp_import_a-b"; "kept"; "notes"]%string
                     (<["tmp_import_a-b"%string := 30 * minute]>
                        (<["kept"%string := 40 * minute]>
                           (<["notes"%string := 5 * minute]> ∅)))
                     sampleSession _ _)).
    + apply (bool_decide_unpack _). vm_compute. exact I.
    + intros r e Hr.
      destruct (decide (r = "tmp_import_a-b"%string)) as [->|H1];
        [apply list_elem_of_here|].
      rewrite lookup_insert_ne in Hr by congruence.
      destruct (decide (r = "kept"%string)) as [->|H2];
        [apply list_elem_of_further, list_elem_of_here|].
      rewrite lookup_insert_ne in Hr by congruence.
      destruct (decide (r = "notes"%string)) as [->|H3];
        [do 2 apply list_elem_of_further; apply list_elem_of_here|].
      rewrite lookup_insert_ne in Hr by congruence.
      rewrite lookup_empty in Hr. discriminate.
  - vm_compute. reflexivity.
Defined.

Lemma retained_witness :
  exists expiry,
    fst (fst (@worker Samples.sampleRuntime sampleHost
                [Queued "tmp_import_t" 0; Queued "notes" minute;
                 Tick (5 * minute) ["notes"; "tmp_import_t"]%string;
                 Tick (30 * minute) ["tmp_import_t"; "notes"]%string]
                ∅ sampleSession))
    !! "tmp_import_t"%string = Some expiry
    /\ 0 + retention <= expiry.
Proof.
  refine (@queued_resource_is_retained Samples.sampleRuntime sampleHost
            [Queued "notes" minute;
             Tick (5 * minute) ["notes"; "tmp_import_t"]%string;
             Tick (30 * minute) ["tmp_import_t"; "notes"]%string]
            "tmp_import_t" 0 ∅ sampleSession _ _).
  - intros other t H. rewrite !elem_of_cons, elem_of_nil in H.
    destruct H as [H|[H|[H|H]]]; try discriminate; [|contradiction].
    inversion H; subst. vm_compute. discriminate.
  - intros t order H. rewrite !elem_of_cons, elem_of_nil in H.
    destruct H as [H|[H|[H|H]]]; try discriminate; try contradiction;
      inversion H; subst; vm_compute; discriminate.
Defined.

End TableUpkeep.

(** ** The import of an upload *)

Module ImportStage.
Import Go Helpers Api Database Tables Imports TableUpkeep.

Section OnHost.
Context {RT : Runtime} {HO : Host}.

Lemma runQuery_execs h text (s : Session) :
  execs (snd (runQuery h text s)) = execs s.
Proof.
  unfold runQuery. now destruct (ExecuteQuery h (runesOf text) (engine s)).
Qed.

Lemma checkTableExists_execs h tableName (s : Session) :
  execs (snd (checkTableExists h tableName s)) = execs s.
Proof.
  unfold checkTableExists.
  match goal with
  | |- context [runQuery h ?q s] =>
    pose proof (runQuery_execs h q s) as H; destruct (runQuery h q s) as [[r|e] s1]
  end; exact H.
Qed.

Lemma getColumnInfo_execs h tableName (s : Session) :
  execs (snd (getColumnInfo h tableName s)) = execs s.
Proof.
  unfold getColumnInfo.
  match goal with
  | |- context [runQuery h ?q s] =>
    pose proof (runQuery_execs h q s) as H; destruct (runQuery h q s) as [[r|e] s1]
  end; exact H.
Qed.

Lemma countRows_execs h tableName (s : Session) :
  execs (snd (countRows h tableName s)) = execs s.
Proof.
  unfold countRows.
  match goal with
  | |- context [runQuery h ?q s] =>
    pose proof (runQuery_execs h q s) as H; destruct (runQuery h q s) as [[r|e] s1]
  end; exact H.
Qed.

Lemma created_last h tableName csvPath hasHeader override (s s1 : Session) :
  CreateTableFromCSV h tableName csvPath hasHeader override s = (None, s1) ->
  last (execs s1) = Some (createTableSQL tableName csvPath hasHeader).
Proof.
  unfold CreateTableFromCSV, createTableFromCSVDirectly.
  destruct (db h); [|discriminate].
  destruct (if override
            then match exec (dropTableSQL tableName) s with
                 | (Some err, sd) => (Some (Errorf_w "failed to drop table" err), sd)
                 | (None, sd) => (None, sd)
                 end
            else (None, s)) as [[e|] sx]; [discriminate|].
  pose proof (exec_execs (createTableSQL tableName csvPath hasHeader) sx) as He.
  destruct (exec (createTableSQL tableName csvPath hasHeader) sx) as [[e|] s2];
    [discriminate|].
  intros H. inversion H; subst. cbn [snd] in He. rewrite He. apply last_snoc.
Qed.

(** With [override] off, a table that the check finds is left as it is:
    no statement is run, and the import answers with the one error
    [DUPLICATE_TABLE_NAME]. *)
Theorem found_table_is_left_alone (h : DuckDB) (tableName tempFilePath : string)
        (hasHeader : bool) (s s1 : Session) :
  checkTableExists h tableName s = (inl true, s1) ->
  importCsvData h tableName tempFilePath hasHeader false s
  = (inr ([duplicateError tableName s1],
          errorString ("table '" +:+ tableName +:+ "' already exists")), s1)
  /\ execs s1 = execs s.
Proof.
  intros Hc. unfold importCsvData. cbn [negb]. rewrite Hc. split; [reflexivity|].
  pose proof (checkTableExists_execs h tableName s) as H. now rewrite Hc in H.
Qed.

(** A failed import answers with one coded error.  The codes
    [TABLE_INFO_ERROR] and [ROW_COUNT_ERROR] mean that the table has been
    created: the last statement the engine ran is the one that creates it,
    and nothing drops it again. *)
Theorem import_failures_are_coded (h : DuckDB) (tableName tempFilePath : string)
        (hasHeader override : bool) (s s' : Session)
        (errors : list CSVError) (err : error) :
  importCsvData h tableName tempFilePath hasHeader override s
  = (inr (errors, err), s') ->
  exists code,
    Code <$> errors = [code]
    /\ (code = "DUPLICATE_TABLE_NAME"%string
        \/ code = "DIRECT_IMPORT_FAILED"%string
        \/ ((code = "TABLE_INFO_ERROR"%string \/ code = "ROW_COUNT_ERROR"%string)
            /\ last (execs s')
               = Some (createTableSQL (runesOf tableName) (runesOf tempFilePath)
                                      hasHeader))).
Proof.
  unfold importCsvData.
  destruct (if negb override
            then match checkTableExists h tableName s with
                 | (inl true, s1) => (true, s1)
                 | (_, s1) => (false, s1)
                 end
            else (false, s)) as [[|] s1].
  { intros H. inversion H; subst. exists "DUPLICATE_TABLE_NAME"%string. auto. }
  unfold directImport.
  destruct (CreateTableFromCSV h (runesOf tableName) (runesOf tempFilePath)
              hasHeader override s1) as [[e|] s2] eqn:Ec.
  { destruct (negb override && _).
    - intros H. inversion H; subst. exists "DUPLICATE_TABLE_NAME"%string. auto.
    - intros H. inversion H; subst. exists "DIRECT_IMPORT_FAILED"%string. auto. }
  apply created_last in Ec.
  pose proof (getColumnInfo_execs h tableName s2) as Hg.
  destruct (getColumnInfo h tableName s2) as [[columns|[errs e]] s3] eqn:Eg;
    cbn [snd] in Hg.
  - pose proof (countRows_execs h tableName s3) as Hn.
    destruct (countRows h tableName s3) as [[n|[errs e]] s4] eqn:En; cbn [snd] in Hn;
      [discriminate|].
    assert (Hcode : Code <$> errs = ["ROW_COUNT_ERROR"%string]).
    { revert En. unfold countRows. destruct (runQuery h _ s3) as [[r|e0] s5];
        intros H; inversion H; reflexivity. }
    destruct (negb override && _).
    + intros H. inversion H; subst. exists "DUPLICATE_TABLE_NAME"%string. auto.
    + intros H. inversion H; subst. exists "ROW_COUNT_ERROR"%string.
      split; [exact Hcode|]. right. right. split; [auto|]. congruence.
  - assert (Hcode : Code <$> errs = ["TABLE_INFO_ERROR"%string]).
    { revert Eg. unfold getColumnInfo. destruct (runQuery h _ s2) as [[r|e0] s5];
        intros H; inversion H; reflexivity. }
    destruct (negb override && _).
    + intros H. inversion H; subst. exists "DUPLICATE_TABLE_NAME"%string. auto.
    + intros H. inversion H; subst. exists "TABLE_INFO_ERROR"%string.
      split; [exact Hcode|]. right. right. split; [auto|]. congruence.
Qed.

End OnHost.

(** An engine that answers every statement with the one row
    [table_count = 1]. *)
Definition countingRuntime : Runtime :=
  {| World := Z;
     Stmt := gostring;
     now := fun w => w;
     db_Prepare := fun query w => (inl query, w + 1000000);
     stmt_Query := fun stmt w =>
       (inl {| rs_columns := inl ["table_count"%string];
               rs_rows := [inl [VInt64 1]];
               rs_err := None |}, w + 2000000);
     rows_Next := fun w => w + 1000;
     rows_Close := fun w => w;
     stmt_Close := fun _ w => w;
     mul_0_8 := fun ms => ms * 4 / 5 |}.

Definition countingHost : @Host countingRuntime :=
  @Build_Host countingRuntime sampleExec (fun _ => "20250101"%string).

Definition countingSession : @Session countingRuntime :=
  {| engine := @Build_State countingRuntime 0 []; execs := [] |}.

Lemma found_table_witness :
  exists s1,
    @importCsvData countingRuntime countingHost Samples.sampleHandle
      "t" "/tmp/upload_t.csv" true false countingSession
    = (inr ([@duplicateError countingRuntime countingHost "t" s1],
            errorString "table 't' already exists"), s1)
    /\ execs s1 = [].
Proof.
  destruct (@checkTableExists countingRuntime Samples.sampleHandle
              "t" countingSession) as [r s1] eqn:E.
  assert (Hr : r = inl true).
  { apply (f_equal fst) in E. cbn [fst] in E. rewrite <- E. vm_compute. reflexivity. }
  subst r. exists s1.
  exact (@found_table_is_left_alone countingRuntime countingHost Samples.sampleHandle
           "t" "/tmp/upload_t.csv" true countingSession s1 E).
Defined.

Lemma import_failure_witness :
  exists errors err s',
    @importCsvData Samples.sampleRuntime sampleHost Samples.sampleHandle
      "a--b" "/tmp/upload_a--b.csv" true true sampleSession
    = (inr (errors, err), s')
    /\ Code <$> errors = ["TABLE_INFO_ERROR"%string]
    /\ last (execs s')
       = Some (lit "CREATE TABLE a__b AS SELECT * FROM read_csv('/tmp/upload_a--b.csv', header=true, auto_detect=true, sample_size=-1, normalize_names=true);").
Proof.
  destruct (@importCsvData Samples.sampleRuntime sampleHost Samples.sampleHandle
              "a--b" "/tmp/upload_a--b.csv" true true sampleSession)
    as [[imported|[errors err]] s'] eqn:E.
  - exfalso. apply (f_equal fst) in E. cbn [fst] in E. revert E.
    vm_compute. discriminate.
  - exists errors, err, s'. split; [reflexivity|].
    destruct (@import_failures_are_coded Samples.sampleRuntime sampleHost
                Samples.sampleHandle "a--b" "/tmp/upload_a--b.csv" true true
                sampleSession s' errors err E) as (code & Hcode & Hwhich).
    assert (Hc : Code <$> errors = ["TABLE_INFO_ERROR"%string]).
    { apply (f_equal fst) in E. cbn [fst] in E.
      assert (He : inr (errors, err)
                   = fst (@importCsvData Samples.sampleRuntime sampleHost
                            Samples.sampleHandle "a--b" "/tmp/upload_a--b.csv"
                            true true sampleSession)) by now rewrite E.
      vm_compute in He. inversion He. reflexivity. }
    split; [exact Hc|].
    rewrite Hc in Hcode. inversion Hcode; subst code.
    destruct Hwhich as [H|[H|[_ H]]]; [discriminate|discriminate|].
    rewrite H. f_equal.
Defined.

End ImportStage.

(** ** The copy, line by line *)

Module LineByLine.
Import Go GoFacts Helpers BoundedCopy Bytes Fidelity.

(** The complete lines of [cur +:+ s], each with its line end, and what
    follows the last line end; [cur] holds no line end. *)
Fixpoint linesFrom (s cur : string) : list string * string :=
  match s with
  | EmptyString => ([], cur)
  | String c s' =>
    if Ascii.eqb c LF then
      let (ls, r) := linesFrom s' EmptyString in ((cur +:+ str1 c) :: ls, r)
    else linesFrom s' (cur +:+ str1 c)
  end.

Definition completeLines (s : string) : list string := fst (linesFrom s EmptyString).
Definition remainder (s : string) : string := snd (linesFrom s EmptyString).

(** The lines the copy handles for a stream [s]: the complete ones, then
    what is left at the end of the stream if that is not empty. *)
Definition allLines (s : string) : list string :=
  completeLines s
  ++ (if (0 <? String.length (remainder s))%nat then [remainder s] else []).

Lemma linesFrom_cur s cur :
  linesFrom s cur
  = match linesFrom s EmptyString with
    | ([], r) => ([], cur +:+ r)
    | (l :: ls, r) => ((cur +:+ l) :: ls, r)
    end.
Proof.
  revert cur. induction s as [|c s IH]; intros cur.
  - cbn [linesFrom]. now rewrite app_nil_r.
  - cbn [linesFrom]. destruct (Ascii.eqb c LF).
    + destruct (linesFrom s EmptyString) as [ls r]. reflexivity.
    + rewrite (IH (cur +:+ str1 c)), (IH (EmptyString +:+ str1 c)).
      destruct (linesFrom s EmptyString) as [[|l ls] r];
        now rewrite !app_assoc.
Qed.

Lemma linesFrom_app a b cur :
  linesFrom (a +:+ b) cur
  = let (la, ra) := linesFrom a cur in
    let (lb, rb) := linesFrom b ra in (la ++ lb, rb).
Proof.
  revert cur. induction a as [|c a IH]; intros cur.
  - change (EmptyString +:+ b) with b. cbn [linesFrom].
    now destruct (linesFrom b cur).
  - change (String c a +:+ b) with (String c (a +:+ b)). cbn [linesFrom].
    destruct (Ascii.eqb c LF).
    + rewrite (IH EmptyString).
      destruct (linesFrom a EmptyString) as [la ra].
      destruct (linesFrom b ra) as [lb rb]. reflexivity.
    + apply IH.
Qed.

Lemma linesFrom_plain s cur :
  occurs LF s = false -> linesFrom s cur = ([], cur +:+ s).
Proof.
  revert cur. induction s as [|c s IH]; intros cur H.
  - cbn [linesFrom]. now rewrite app_nil_r.
  - cbn [occurs] in H. apply orb_false_elim in H as [Hc H].
    cbn [linesFrom]. rewrite Hc, (IH _ H), app_assoc. reflexivity.
Qed.

Lemma remainder_plain s cur : occurs LF cur = false ->
  occurs LF (snd (linesFrom s cur)) = false.
Proof.
  revert cur. induction s as [|c s IH]; intros cur H; cbn [linesFrom]; [exact H|].
  destruct (Ascii.eqb c LF) eqn:E.
  - specialize (IH EmptyString eq_refl).
    destruct (linesFrom s EmptyString) as [ls r]. exact IH.
  - apply IH. rewrite occurs_app, H. cbn [occurs str1]. now rewrite E.
Qed.

Lemma ReadBytes_lines s :
  match ReadBytes LF s with
  | Some (line, rest) =>
    linesFrom s EmptyString
    = (line :: fst (linesFrom rest EmptyString), snd (linesFrom rest EmptyString))
  | None => linesFrom s EmptyString = ([], s)
  end.
Proof.
  induction s as [|c s IH]; [reflexivity|].
  cbn [ReadBytes linesFrom]. destruct (Ascii.eqb c LF).
  - now destruct (linesFrom s EmptyString).
  - rewrite linesFrom_cur.
    destruct (ReadBytes LF s) as [[line rest]|]; rewrite IH; reflexivity.
Qed.

Section Lines.
Context {W V : Type}.
Variable Write : string -> W -> (Z * option error) * W.

(** The writer does not report [io.EOF], which the loop over the reads
    would take for the end of the source. *)
Hypothesis Write_not_EOF :
  forall data w, snd (fst (Write data w)) <> Some (Sentinel EOF).

Abbreviation Cx := (@ProcessingContext W V).

(** The lines handled one after the other, up to the first error. *)
Fixpoint runLines (lines : list string) (ctx : Cx) : option error * Cx :=
  match lines with
  | [] => (None, ctx)
  | line :: rest =>
    match validateAndWrite Write line ctx with
    | (Some e, ctx1) => (Some e, ctx1)
    | (None, ctx1) => runLines rest ctx1
    end
  end.

(** The result of a step with another line buffer. *)
Definition rebuffered (b : string) (r : option error * Cx) : option error * Cx :=
  (fst r, setLineBuffer (snd r) b).

Ltac by_cases :=
  repeat match goal with
         | |- context [match ?x with _ => _ end] => destruct x; cbn [fst snd]
         | |- context [if ?b then _ else _] => destruct b; cbn [fst snd]
         end;
  try reflexivity.

Lemma writeData_rebuffered b data (ctx : Cx) :
  writeDataFromContext Write data (setLineBuffer ctx b)
  = rebuffered b (writeDataFromContext Write data ctx).
Proof.
  unfold writeDataFromContext, rebuffered. cbn [Destination setLineBuffer].
  destruct (Write data (Destination ctx)) as [[n werr] d].
  destruct ((n <? 0) || (len data <? n)); [reflexivity|].
  cbn [MaxSize Written setDestination setLineBuffer].
  destruct (MaxSize ctx <? _); [reflexivity|].
  destruct werr; [|destruct (negb _)]; reflexivity.
Qed.

Lemma validateContent_rebuffered b data (ctx : Cx) :
  validateContent data (setLineBuffer ctx b)
  = (fst (validateContent data ctx), setLineBuffer (snd (validateContent data ctx)) b).
Proof.
  unfold validateContent, handleValidationError, handleInvalidContent.
  cbn [Validator CurrentLine ColumnMap ValidatorState setLineBuffer].
  destruct (Validator ctx) as [validate|]; [|reflexivity].
  destruct (validate data (CurrentLine ctx) (ColumnMap ctx) (ValidatorState ctx))
    as [[[isValid issue] verr] v].
  cbn [ValidationMode setValidation setLineBuffer].
  by_cases.
Qed.

Lemma validateAndWrite_rebuffered b line (ctx : Cx) :
  validateAndWrite Write line (setLineBuffer ctx b)
  = rebuffered b (validateAndWrite Write line ctx).
Proof.
  unfold validateAndWrite.
  destruct (String.length line =? 0)%nat; [reflexivity|].
  cbn [CurrentLine ColumnMap setLineBuffer].
  set (ctx1 := setLine ctx (wrap64 (CurrentLine ctx + 1)) (ColumnMap ctx)).
  change (setLine (setLineBuffer ctx b) (wrap64 (CurrentLine ctx + 1)) (ColumnMap ctx))
    with (setLineBuffer ctx1 b).
  change (CurrentLine (setLineBuffer ctx1 b)) with (CurrentLine ctx1).
  change (HasHeader (setLineBuffer ctx1 b)) with (HasHeader ctx1).
  destruct ((CurrentLine ctx1 =? 1) && HasHeader ctx1).
  - change (parseHeaderLine line (setLineBuffer ctx1 b))
      with (setLineBuffer (parseHeaderLine line ctx1) b).
    apply writeData_rebuffered.
  - unfold shouldSkipWriting.
    change (Validator (setLineBuffer ctx1 b)) with (Validator ctx1).
    destruct (Validator ctx1) as [validate|] eqn:Ev.
    + rewrite validateContent_rebuffered.
      destruct (validateContent line ctx1) as [[shouldSkip err] ctx2].
      cbn [fst snd].
      destruct err as [e|]; [reflexivity|]. destruct shouldSkip; [reflexivity|].
      apply writeData_rebuffered.
    + apply writeData_rebuffered.
Qed.

Lemma runLines_rebuffered b lines (ctx : Cx) :
  runLines lines (setLineBuffer ctx b) = rebuffered b (runLines lines ctx).
Proof.
  revert ctx. induction lines as [|l lines IH]; intros ctx; cbn [runLines].
  - reflexivity.
  - rewrite validateAndWrite_rebuffered.
    destruct (validateAndWrite Write l ctx) as [[e|] ctx1];
      unfold rebuffered at 1; cbn [fst snd]; [reflexivity|].
    apply IH.
Qed.

Lemma runLines_app l1 l2 (ctx : Cx) :
  runLines (l1 ++ l2) ctx
  = match runLines l1 ctx with
    | (Some e, c) => (Some e, c)
    | (None, c) => runLines l2 c
    end.
Proof.
  revert ctx. induction l1 as [|l l1 IH]; intros ctx; cbn [runLines app].
  - reflexivity.
  - destruct (validateAndWrite Write l ctx) as [[e|] ctx1]; [reflexivity|]. apply IH.
Qed.

(** The contexts agree but for the line buffer. *)
Definition modulo_buffer (c c' : Cx) : Prop :=
  setLineBuffer c EmptyString = setLineBuffer c' EmptyString.

Lemma modulo_buffer_set (c : Cx) b : modulo_buffer (setLineBuffer c b) c.
Proof. reflexivity. Qed.

Lemma runLines_modulo lines (c c' : Cx) :
  modulo_buffer c c' ->
  fst (runLines lines c) = fst (runLines lines c')
  /\ modulo_buffer (snd (runLines lines c)) (snd (runLines lines c')).
Proof.
  intros H.
  assert (X : forall x : Cx,
    runLines lines x = rebuffered (LineBuffer x) (runLines lines (setLineBuffer x EmptyString))).
  { intros x. rewrite <- runLines_rebuffered. now destruct x. }
  rewrite (X c), (X c'). unfold modulo_buffer in H. rewrite H.
  split; reflexivity.
Qed.

Lemma not_EOF (e : error) :
  Some e <> Some (Sentinel EOF) -> is_sentinel e EOF = false.
Proof. destruct e as [[]| |]; cbn; congruence. Qed.

Lemma writeData_not_EOF data (ctx : Cx) e c :
  writeDataFromContext Write data ctx = (Some e, c) -> is_sentinel e EOF = false.
Proof.
  unfold writeDataFromContext.
  pose proof (Write_not_EOF data (Destination ctx)) as H.
  destruct (Write data (Destination ctx)) as [[n werr] d]. cbn [fst snd] in H.
  destruct ((n <? 0) || (len data <? n)); [intros [= <- _]; reflexivity|].
  destruct (_ <? _); [intros [= <- _]; reflexivity|].
  destruct werr as [err|].
  - intros [= <- _]. now apply not_EOF.
  - destruct (negb _); [intros [= <- _]; reflexivity|discriminate].
Qed.

Lemma validateContent_not_EOF data (ctx : Cx) skip e c :
  validateContent data ctx = (skip, Some e, c) -> is_sentinel e EOF = false.
Proof.
  unfold validateContent, handleValidationError, handleInvalidContent.
  destruct (Validator ctx) as [validate|]; [|discriminate].
  destruct (validate data (CurrentLine ctx) (ColumnMap ctx) (ValidatorState ctx))
    as [[[isValid issue] verr] v].
  destruct verr as [err|].
  - destruct (errors_Is err ErrInvalidBuffer) eqn:E.
    + intros [= _ <- _]. destruct err as [[]| |]; cbn in *; congruence.
    + destruct (String.eqb _ _); [intros [= _ <- _]; reflexivity|discriminate].
  - destruct issue as [i|]; [|discriminate].
    destruct (negb isValid); [|discriminate].
    repeat (destruct (String.eqb _ _);
            [first [discriminate | intros [= _ <- _]; reflexivity]|]).
    intros [= _ <- _]; reflexivity.
Qed.

Lemma validateAndWrite_not_EOF line (ctx : Cx) e c :
  validateAndWrite Write line ctx = (Some e, c) -> is_sentinel e EOF = false.
Proof.
  unfold validateAndWrite.
  destruct (String.length line =? 0)%nat; [discriminate|].
  set (ctx1 := setLine ctx _ _).
  destruct ((CurrentLine ctx1 =? 1) && HasHeader ctx1); [apply writeData_not_EOF|].
  unfold shouldSkipWriting.
  destruct (Validator ctx1) as [validate|] eqn:Ev.
  - destruct (validateContent line ctx1) as [[shouldSkip err] ctx2] eqn:Ec.
    destruct err as [e'|].
    + intros [= <- _]. exact (validateContent_not_EOF _ _ _ _ _ Ec).
    + destruct shouldSkip; [discriminate|apply writeData_not_EOF].
  - apply writeData_not_EOF.
Qed.

Lemma runLines_not_EOF lines (ctx : Cx) e c :
  runLines lines ctx = (Some e, c) -> is_sentinel e EOF = false.
Proof.
  revert ctx. induction lines as [|l ls IHl]; intros ctx Erun;
    cbn [runLines] in Erun; [discriminate|].
  destruct (validateAndWrite Write l ctx) as [[e'|] c'] eqn:Ev.
  - injection Erun as <- _. exact (validateAndWrite_not_EOF _ _ _ _ Ev).
  - exact (IHl _ Erun).
Qed.

(** The loop over the complete lines of the line buffer handles them one
    after the other and leaves the partial line behind. *)
Lemma processCompleteLinesN_lines n (ctx : Cx) :
  (String.length (LineBuffer ctx) < n)%nat ->
  fst (processCompleteLinesN Write n ctx)
  = fst (runLines (completeLines (LineBuffer ctx)) ctx)
  /\ modulo_buffer (snd (processCompleteLinesN Write n ctx))
                   (snd (runLines (completeLines (LineBuffer ctx)) ctx))
  /\ (fst (processCompleteLinesN Write n ctx) = None ->
      LineBuffer (snd (processCompleteLinesN Write n ctx))
      = remainder (LineBuffer ctx)).
Proof.
  revert ctx. induction n as [|n IH]; intros ctx Hn; [lia|].
  cbn [processCompleteLinesN]. unfold readNextLine, completeLines, remainder.
  pose proof (ReadBytes_lines (LineBuffer ctx)) as HL.
  destruct (ReadBytes LF (LineBuffer ctx)) as [[line rest]|] eqn:Er.
  - destruct (ReadBytes_split _ _ _ _ Er) as [Hbuf Hline].
    assert (Hlen : len (LineBuffer ctx) = len line + len rest)
      by now rewrite Hbuf, len_app.
    unfold len in Hlen, Hline.
    rewrite HL. cbn [fst snd runLines].
    rewrite validateAndWrite_rebuffered.
    destruct (validateAndWrite Write line ctx) as [[e|] c2];
      unfold rebuffered at 1 2 3 4; cbn [fst snd].
    + repeat split. discriminate.
    + destruct (IH (setLineBuffer c2 rest)) as (H1 & H2 & H3).
      { cbn [LineBuffer setLineBuffer]. lia. }
      cbn [LineBuffer setLineBuffer] in H1, H2, H3.
      rewrite runLines_rebuffered in H1, H2.
      unfold rebuffered in H1, H2. cbn [fst snd] in H1, H2.
      repeat split; [exact H1| |exact H3].
      unfold modulo_buffer in *. rewrite H2. reflexivity.
  - rewrite HL. cbn [fst snd runLines]. repeat split.
Qed.

Lemma allLines_app x y :
  allLines (x +:+ y) = completeLines x ++ allLines (remainder x +:+ y).
Proof.
  unfold allLines, completeLines, remainder.
  rewrite (linesFrom_app x y), (linesFrom_app (snd (linesFrom x EmptyString)) y).
  pose proof (remainder_plain x EmptyString eq_refl) as Hp.
  destruct (linesFrom x EmptyString) as [la ra]. cbn [fst snd] in *.
  rewrite (linesFrom_plain ra EmptyString Hp).
  change (EmptyString +:+ ra) with ra.
  destruct (linesFrom y ra) as [lb rb]. cbn [fst snd app].
  now rewrite <- List.app_assoc.
Qed.

Lemma allLines_plain x :
  occurs LF x = false ->
  allLines x = if (0 <? String.length x)%nat then [x] else [].
Proof.
  intros H. unfold allLines, completeLines, remainder.
  rewrite (linesFrom_plain x EmptyString H). reflexivity.
Qed.

(** Without a read error, the reads are handled as the lines of what has
    been read, whatever the reads were. *)
Lemma processSourceData_lines (src : Source) (ctx : Cx) :
  Forall (fun r => rd_err r = None) src ->
  occurs LF (LineBuffer ctx) = false ->
  fst (processSourceData Write src ctx)
  = fst (runLines (allLines (LineBuffer ctx +:+ content src)) ctx)
  /\ modulo_buffer (snd (processSourceData Write src ctx))
       (snd (runLines (allLines (LineBuffer ctx +:+ content src)) ctx)).
Proof.
  revert ctx. induction src as [|r src IH]; intros ctx Hs Hb.
  - cbn [processSourceData content fold_right]. rewrite app_nil_r.
    rewrite (allLines_plain _ Hb). unfold processRemainingContent, len.
    replace (0 <? Z.of_nat (String.length (LineBuffer ctx)))
      with (0 <? String.length (LineBuffer ctx))%nat
      by (destruct (String.length (LineBuffer ctx)); reflexivity).
    destruct (0 <? String.length (LineBuffer ctx))%nat; cbn [runLines].
    + destruct (validateAndWrite Write (LineBuffer ctx) ctx) as [[e|] c];
        split; reflexivity.
    + split; reflexivity.
  - inversion Hs as [|? ? Hr Hs']; subst.
    cbn [processSourceData content fold_right]. fold (content src).
    unfold processNextChunk. rewrite Hr.
    destruct (0 <? len (rd_data r)) eqn:El.
    + rewrite <- Bytes.app_assoc, allLines_app, runLines_app.
      set (ctx0 := setLineBuffer ctx (LineBuffer ctx +:+ rd_data r)).
      destruct (processCompleteLinesN_lines
                  (S (String.length (LineBuffer ctx0))) ctx0) as (H1 & H2 & H3);
        [lia|].
      fold (processCompleteLines Write ctx0) in H1, H2, H3.
      change (LineBuffer ctx0) with (LineBuffer ctx +:+ rd_data r) in H1, H2, H3.
      destruct (runLines_modulo (completeLines (LineBuffer ctx +:+ rd_data r))
                  ctx0 ctx (modulo_buffer_set _ _)) as [M1 M2].
      rewrite M1 in H1. unfold modulo_buffer in H2, M2. rewrite M2 in H2.
      destruct (processCompleteLines Write ctx0) as [[e|] c1] eqn:Ep;
        cbn [fst snd] in H1, H2, H3.
      * assert (He : is_sentinel e EOF = false).
        { destruct (runLines (completeLines (LineBuffer ctx +:+ rd_data r)) ctx)
            as [oe cx] eqn:Erun. cbn [fst] in H1. subst oe.
          exact (runLines_not_EOF _ _ _ _ Erun). }
        rewrite He.
        destruct (runLines (completeLines (LineBuffer ctx +:+ rd_data r)) ctx)
          as [oe cx]. cbn [fst snd] in H1, H2. subst oe. cbn [fst snd].
        split; [reflexivity|exact H2].
      * specialize (H3 eq_refl).
        destruct (IH c1 Hs') as [I1 I2].
        { rewrite H3. apply (remainder_plain _ EmptyString eq_refl). }
        rewrite H3 in I1, I2.
        destruct (runLines (completeLines (LineBuffer ctx +:+ rd_data r)) ctx)
          as [oe cx]. cbn [fst snd] in H1, H2. subst oe.
        destruct (runLines_modulo
                    (allLines (remainder (LineBuffer ctx +:+ rd_data r) +:+ content src))
                    c1 cx H2) as [N1 N2].
        split; [now rewrite I1|].
        unfold modulo_buffer in *. now rewrite I2.
    + assert (Hd : rd_data r = EmptyString).
      { destruct (rd_data r); [reflexivity|]. unfold len in El. cbn in El.
        apply Z.ltb_ge in El. lia. }
      rewrite Hd. change (EmptyString +:+ content src) with (content src).
      apply IH; assumption.
Qed.

End Lines.

(** The copy, on a source read without an error, as the run over the lines
    of its bytes. *)
Definition copyLines {W V : Type} (Write : string -> W -> (Z * option error) * W)
           (env : Env) (dst : W) (data : string) (maxSize : Z)
           (validateBuffer : option BufferValidationFunc) (v : V)
  : Z * option ValidationIssue * option error * W * V :=
  let maxSize := if maxSize <=? 0 then GetMaxFileSize env else maxSize in
  let ctx :=
    {| Destination := dst; LineBuffer := EmptyString;
       Validator := validateBuffer; ValidatorState := v;
       ValidationMode := GetValidationMode env; ValidationWarnings := [];
       HasHeader := true; ColumnMap := ∅; CurrentLine := 0;
       Issue := None; Written := 0; MaxSize := maxSize |} in
  let (err, ctx1) := runLines Write (allLines data) ctx in
  (Written ctx1, Issue ctx1, err, Destination ctx1, ValidatorState ctx1).

Lemma copy_as_lines {W V : Type} (Write : string -> W -> (Z * option error) * W)
      (env : Env) (dst : W) (src : Source) (bufferSize maxSize : Z)
      (validateBuffer : option BufferValidationFunc) (v : V) :
  (forall data w, snd (fst (Write data w)) <> Some (Sentinel EOF)) ->
  Forall (fun r => rd_err r = None) src ->
  CopyWithMaxSizeImpl Write env dst src bufferSize maxSize validateBuffer v
  = copyLines Write env dst (content src) maxSize validateBuffer v.
Proof.
  intros HW Hs. unfold CopyWithMaxSizeImpl, copyLines.
  set (ctx := {| Destination := dst |}).
  destruct (processSourceData_lines Write HW src ctx Hs eq_refl) as [H1 H2].
  change (LineBuffer ctx +:+ content src) with (content src) in H1, H2.
  destruct (processSourceData Write src ctx) as [e c].
  destruct (runLines Write (allLines (content src)) ctx) as [e' c'].
  cbn [fst snd] in H1, H2. subst e'. unfold modulo_buffer in H2.
  replace (Written c) with (Written (setLineBuffer c EmptyString)) by reflexivity.
  replace (Issue c) with (Issue (setLineBuffer c EmptyString)) by reflexivity.
  replace (Destination c) with (Destination (setLineBuffer c EmptyString)) by reflexivity.
  replace (ValidatorState c) with (ValidatorState (setLineBuffer c EmptyString))
    by reflexivity.
  rewrite H2. reflexivity.
Qed.

(** The result of the copy depends on the bytes of the source only, not on
    the reads that delivered them nor on the size of the read buffer: two
    sources read without an error and holding the same bytes give the same
    count, issue, error, destination and validator state. *)
Theorem copy_is_blind_to_the_reads {W V : Type}
        (Write : string -> W -> (Z * option error) * W)
        (env : Env) (dst : W) (src src' : Source) (bufferSize bufferSize' maxSize : Z)
        (validateBuffer : option BufferValidationFunc) (v : V) :
  (forall data w, snd (fst (Write data w)) <> Some (Sentinel EOF)) ->
  Forall (fun r => rd_err r = None) src ->
  Forall (fun r => rd_err r = None) src' ->
  content src = content src' ->
  CopyWithMaxSizeImpl Write env dst src bufferSize maxSize validateBuffer v
  = CopyWithMaxSizeImpl Write env dst src' bufferSize' maxSize validateBuffer v.
Proof.
  intros HW Hs Hs' Hc.
  rewrite (copy_as_lines Write env dst src bufferSize maxSize validateBuffer v HW Hs).
  rewrite (copy_as_lines Write env dst src' bufferSize' maxSize validateBuffer v HW Hs').
  now rewrite Hc.
Qed.

(** A validator that flags the rows holding [=], and counts its calls. *)
Definition flagFormula : @BufferValidationFunc nat :=
  fun data line _ calls =>
    if Contains data "="
    then ((false,
           Some {| Pattern := "formula"; Line := line;
                   Column := EmptyString; Value := data |}, None), S calls)
    else ((true, None, None), S calls).

Definition sampleData : string :=
  "a,b" +:+ String LF ("1,2" +:+ String LF ("=3,4" +:+ String LF "5,6")).

Lemma copy_is_blind_witness :
  CopyWithMaxSizeImpl bufferWrite Samples.emptyEnv "kept:"
    (readerOf 2 sampleData) 2 100 (Some flagFormula) 0%nat
  = CopyWithMaxSizeImpl bufferWrite Samples.emptyEnv "kept:"
      (readerOf 7 sampleData) 7 100 (Some flagFormula) 0%nat.
Proof.
  refine (copy_is_blind_to_the_reads bufferWrite Samples.emptyEnv "kept:"
            (readerOf 2 sampleData) (readerOf 7 sampleData) 2 7 100
            (Some flagFormula) 0%nat _ _ _ _).
  - intros data w. cbn. discriminate.
  - vm_compute. repeat constructor.
  - vm_compute. repeat constructor.
  - vm_compute. reflexivity.
Defined.

End LineByLine.

(** ** The size cap *)

Module SizeCap.
Import Go GoFacts Helpers Api Samples BoundedCopy Bytes Fidelity LineByLine.

(** The lines put together again. *)
Definition joined (lines : list string) : string :=
  fold_right (fun l acc => l +:+ acc) EmptyString lines.

Lemma joined_app a b : joined (a ++ b) = joined a +:+ joined b.
Proof.
  induction a as [|l a IH]; [reflexivity|].
  cbn [joined fold_right app]. fold (joined (a ++ b)) (joined a).
  now rewrite IH, app_assoc.
Qed.

Lemma linesFrom_joined s cur :
  joined (fst (linesFrom s cur)) +:+ snd (linesFrom s cur) = cur +:+ s.
Proof.
  revert cur. induction s as [|c s IH]; intros cur; cbn [linesFrom].
  - cbn [fst snd joined fold_right]. now rewrite app_nil_r.
  - destruct (Ascii.eqb c LF).
    + specialize (IH EmptyString).
      destruct (linesFrom s EmptyString) as [ls r]. cbn [fst snd] in *.
      cbn [joined fold_right]. fold (joined ls).
      rewrite app_assoc, IH. change (EmptyString +:+ s) with s.
      now rewrite app_assoc.
    + rewrite IH. now rewrite app_assoc.
Qed.

Lemma allLines_joined s : joined (allLines s) = s.
Proof.
  unfold allLines, completeLines, remainder.
  pose proof (linesFrom_joined s EmptyString) as H.
  change (EmptyString +:+ s) with s in H.
  destruct (linesFrom s EmptyString) as [ls r]. cbn [fst snd] in *.
  rewrite joined_app. destruct r as [|c r]; cbn [String.length Nat.ltb Nat.leb];
    [|cbn [joined fold_right]; now rewrite app_nil_r].
  cbn [joined fold_right]. now rewrite app_nil_r in *.
Qed.

(** A text that ends with its last line, or is followed by nothing, takes
    its lines with it. *)
Lemma allLines_head head rest :
  rest = EmptyString \/ (exists p, head = p +:+ str1 LF) ->
  allLines (head +:+ rest) = allLines head ++ allLines rest.
Proof.
  intros [->|[p ->]].
  - rewrite app_nil_r. change (allLines EmptyString) with (@nil string).
    now rewrite List.app_nil_r.
  - assert (Hr : remainder (p +:+ str1 LF) = EmptyString).
    { unfold remainder. rewrite linesFrom_app.
      destruct (linesFrom p EmptyString) as [la ra]. reflexivity. }
    rewrite allLines_app, Hr. change (EmptyString +:+ rest) with rest.
    unfold allLines at 2. rewrite Hr. cbn [String.length Nat.ltb Nat.leb].
    now rewrite List.app_nil_r.
Qed.

Section Above.
Context {W V : Type}.
Variable Write : string -> W -> (Z * option error) * W.

(** The writer takes all it is handed. *)
Hypothesis takes_all : forall data w, fst (Write data w) = (len data, None).

Variable accepted : string -> Prop.
Variable validator0 : option (@BufferValidationFunc V).
Hypothesis Hval : accepting accepted validator0.
Variables (cap B : Z).
Hypothesis HB : cap + B < 2 ^ 63.
Hypothesis Hcap : 0 < cap.

Abbreviation Cx := (@ProcessingContext W V).

(** What holds of the copy while it goes on, [pending] still to come. *)
Definition ready (ctx : Cx) (pending : string) : Prop :=
  Validator ctx = validator0 /\ MaxSize ctx = cap
  /\ 0 <= Written ctx <= cap
  /\ 0 <= CurrentLine ctx /\ CurrentLine ctx + len pending <= B.

Lemma write_above line (ctx : Cx) :
  MaxSize ctx = cap -> 0 <= Written ctx <= cap -> len line <= B ->
  exists ctx',
    writeDataFromContext Write line ctx
    = (if cap <? Written ctx + len line then Some sizeExceeded else None, ctx')
    /\ Written ctx' = Written ctx + len line
    /\ Validator ctx' = Validator ctx /\ MaxSize ctx' = MaxSize ctx
    /\ CurrentLine ctx' = CurrentLine ctx.
Proof.
  intros Hm Hw Hl. pose proof (len_nonneg line) as Hn.
  unfold writeDataFromContext.
  pose proof (takes_all line (Destination ctx)) as Ht.
  destruct (Write line (Destination ctx)) as [[n werr] d]. cbn [fst] in Ht.
  inversion Ht; subst n werr.
  destruct (len line <? 0) eqn:E1; [apply Z.ltb_lt in E1; lia|].
  rewrite Z.ltb_irrefl. cbn [orb].
  cbn [MaxSize Written setDestination]. rewrite wrap64_small by lia.
  rewrite Hm, Z.eqb_refl. cbn [negb].
  destruct (cap <? Written ctx + len line); eexists; (split; [reflexivity|]);
    cbn; auto.
Qed.

Lemma validateAndWrite_above line pending (ctx : Cx) :
  ready ctx (line +:+ pending) -> accepted line ->
  exists ctx',
    validateAndWrite Write line ctx
    = (if cap <? Written ctx + len line then Some sizeExceeded else None, ctx')
    /\ Written ctx' = Written ctx + len line
    /\ (Written ctx + len line <= cap -> ready ctx' pending).
Proof.
  intros (Hv & Hm & Hw & Hl0 & HlB) Hacc.
  pose proof (len_nonneg line) as Hn. pose proof (len_nonneg pending) as Hp.
  rewrite len_app in HlB.
  unfold validateAndWrite.
  destruct (String.length line =? 0)%nat eqn:E.
  { apply Nat.eqb_eq in E. destruct line; [|discriminate].
    change (len EmptyString) with 0. rewrite Z.add_0_r.
    destruct (cap <? Written ctx) eqn:Ec; [apply Z.ltb_lt in Ec; lia|].
    exists ctx. split; [reflexivity|]. split; [reflexivity|].
    intros _. unfold ready. change (len EmptyString) with 0 in HlB.
    repeat split; auto; lia. }
  apply Nat.eqb_neq in E.
  assert (Hline : 0 < len line) by (unfold len; lia).
  set (ctx1 := setLine ctx (wrap64 (CurrentLine ctx + 1)) (ColumnMap ctx)).
  assert (Hc1 : CurrentLine ctx1 = CurrentLine ctx + 1).
  { cbn. apply wrap64_small. lia. }
  assert (Hfin : forall c : Cx,
             Written c = Written ctx -> MaxSize c = MaxSize ctx ->
             CurrentLine c = CurrentLine ctx + 1 -> Validator c = Validator ctx ->
             exists ctx',
               writeDataFromContext Write line c
               = (if cap <? Written ctx + len line then Some sizeExceeded else None,
                  ctx')
               /\ Written ctx' = Written ctx + len line
               /\ (Written ctx + len line <= cap -> ready ctx' pending)).
  { intros c Q1 Q2 Q3 Q4.
    destruct (write_above line c) as (ctx' & Hr & R1 & R2 & R3 & R4);
      [congruence|rewrite Q1; lia|lia|].
    rewrite Q1 in Hr, R1. exists ctx'. split; [exact Hr|]. split; [exact R1|].
    intros Hle. unfold ready. rewrite R1, R2, R3, R4, Q2, Q3, Q4.
    repeat split; auto; lia. }
  destruct ((CurrentLine ctx1 =? 1) && HasHeader ctx1).
  - apply Hfin; try reflexivity. exact Hc1.
  - unfold shouldSkipWriting, validateContent.
    change (Validator ctx1) with (Validator ctx). rewrite Hv.
    destruct validator0 as [validate|]; [|apply Hfin; try reflexivity; exact Hc1].
    destruct (Hval line (CurrentLine ctx1) (ColumnMap ctx1) (ValidatorState ctx1))
      as [isValid Hr]; [exact Hacc|lia|].
    rewrite Hr. apply Hfin; try reflexivity. exact Hc1.
Qed.

(** Lines that are all accepted and together exceed what the cap leaves
    end the run with the size error. *)
Lemma runLines_above lines (ctx : Cx) :
  ready ctx (joined lines) -> all_accepted accepted (joined lines) ->
  cap < Written ctx + len (joined lines) ->
  exists ctx',
    runLines Write lines ctx = (Some sizeExceeded, ctx') /\ cap < Written ctx'.
Proof.
  revert ctx. induction lines as [|line lines IH]; intros ctx Hr Hall Hover.
  - destruct Hr as (_ & _ & Hw & _). cbn in Hover. change (len EmptyString) with 0 in Hover.
    lia.
  - cbn [joined fold_right] in *. fold (joined lines) in *.
    rewrite len_app in Hover.
    destruct (validateAndWrite_above line (joined lines) ctx Hr) as (ctx1 & Hv & Hw1 & Hr1).
    { exact (all_accepted_head accepted _ _ Hall). }
    cbn [runLines]. rewrite Hv.
    destruct (cap <? Written ctx + len line) eqn:Ec.
    + apply Z.ltb_lt in Ec. exists ctx1. split; [reflexivity|lia].
    + apply Z.ltb_ge in Ec. apply IH.
      * now apply Hr1.
      * exact (all_accepted_tail accepted _ _ Hall).
      * lia.
Qed.

End Above.

Lemma logged_takes_all {W : Type} (Write : string -> W -> (Z * option error) * W) :
  (forall data w, fst (Write data w) = (len data, None)) ->
  forall data w, fst (logged Write data w) = (len data, None).
Proof.
  intros H data w. unfold logged. specialize (H data (fst w)).
  now destruct (Write data (fst w)).
Qed.



End SizeCap.

(** ** The first line of a copy *)

Module HeaderLine.
Import Go GoFacts Helpers BoundedCopy.

Section Screening.
Context {W V : Type}.
Variable Write : string -> W -> (Z * option error) * W.
Variables validate validate' : @BufferValidationFunc V.

(** The two validators give the same answers but for line 1. *)
Hypothesis agree : forall data line columns v,
  line <> 1 -> validate data line columns v = validate' data line columns v.

Abbreviation Cx := (@ProcessingContext W V).

(** The context with the other validator. *)
Definition swap (ctx : Cx) : Cx :=
  {| Destination := Destination ctx; LineBuffer := LineBuffer ctx;
     Validator := Some validate'; ValidatorState := ValidatorState ctx;
     ValidationMode := ValidationMode ctx;
     ValidationWarnings := ValidationWarnings ctx;
     HasHeader := HasHeader ctx; ColumnMap := ColumnMap ctx;
     CurrentLine := CurrentLine ctx; Issue := Issue ctx;
     Written := Written ctx; MaxSize := MaxSize ctx |}.

Definition swapped {A : Type} (r : A * Cx) : A * Cx := (fst r, swap (snd r)).

(** The context of a copy: its validator is [validate] and the first line
    is taken for the header. *)
Definition screened (ctx : Cx) : Prop :=
  Validator ctx = Some validate /\ HasHeader ctx = true.

Lemma writeData_swap data (ctx : Cx) :
  screened ctx ->
  writeDataFromContext Write data (swap ctx)
  = swapped (writeDataFromContext Write data ctx)
  /\ screened (snd (writeDataFromContext Write data ctx)).
Proof.
  intros Hs. unfold writeDataFromContext, swapped. cbn [Destination swap].
  destruct (Write data (Destination ctx)) as [[n werr] d].
  destruct ((n <? 0) || (len data <? n)); [split; [reflexivity|exact Hs]|].
  cbn [MaxSize Written setDestination swap].
  destruct (MaxSize ctx <? _); [split; [reflexivity|exact Hs]|].
  destruct werr; [|destruct (negb _)]; (split; [reflexivity|exact Hs]).
Qed.

Lemma validateContent_swap data (ctx : Cx) :
  screened ctx -> CurrentLine ctx <> 1 ->
  validateContent data (swap ctx) = swapped (validateContent data ctx)
  /\ screened (snd (validateContent data ctx)).
Proof.
  intros [Hv Hh] Hl.
  unfold validateContent, handleValidationError, handleInvalidContent, swapped.
  cbn [Validator CurrentLine ColumnMap ValidatorState swap]. rewrite Hv.
  rewrite <- (agree data (CurrentLine ctx) (ColumnMap ctx) (ValidatorState ctx) Hl).
  destruct (validate data (CurrentLine ctx) (ColumnMap ctx) (ValidatorState ctx))
    as [[[isValid issue] verr] v].
  cbn [ValidationMode setValidation swap].
  repeat match goal with
         | |- context [match ?x with _ => _ end] => destruct x; cbn [fst snd]
         | |- context [if ?b then _ else _] => destruct b; cbn [fst snd]
         end;
    (split; [reflexivity|split; [exact Hv|exact Hh]]).
Qed.

Lemma validateAndWrite_swap line (ctx : Cx) :
  screened ctx ->
  validateAndWrite Write line (swap ctx) = swapped (validateAndWrite Write line ctx)
  /\ screened (snd (validateAndWrite Write line ctx)).
Proof.
  intros Hs. unfold validateAndWrite.
  destruct (String.length line =? 0)%nat; [split; [reflexivity|exact Hs]|].
  cbn [CurrentLine ColumnMap swap].
  set (ctx1 := setLine ctx (wrap64 (CurrentLine ctx + 1)) (ColumnMap ctx)).
  change (setLine (swap ctx) (wrap64 (CurrentLine ctx + 1)) (ColumnMap ctx))
    with (swap ctx1).
  assert (Hs1 : screened ctx1) by exact Hs.
  change (CurrentLine (swap ctx1)) with (CurrentLine ctx1).
  change (HasHeader (swap ctx1)) with (HasHeader ctx1).
  destruct Hs1 as [Hv Hh]. rewrite Hh, andb_true_r.
  destruct (CurrentLine ctx1 =? 1) eqn:El.
  - change (parseHeaderLine line (swap ctx1))
      with (swap (parseHeaderLine line ctx1)).
    apply writeData_swap. split; [exact Hv|exact Hh].
  - apply Z.eqb_neq in El. unfold shouldSkipWriting.
    change (Validator (swap ctx1)) with (Some validate'). rewrite Hv.
    destruct (validateContent_swap line ctx1 (conj Hv Hh) El) as [E S].
    rewrite E.
    destruct (validateContent line ctx1) as [[shouldSkip err] ctx2].
    unfold swapped at 1. cbn [fst snd] in *.
    destruct err as [e|]; [split; [reflexivity|exact S]|].
    destruct shouldSkip; [split; [reflexivity|exact S]|].
    now apply writeData_swap.
Qed.

Lemma processCompleteLinesN_swap fuel (ctx : Cx) :
  screened ctx ->
  processCompleteLinesN Write fuel (swap ctx)
  = swapped (processCompleteLinesN Write fuel ctx)
  /\ screened (snd (processCompleteLinesN Write fuel ctx)).
Proof.
  revert ctx. induction fuel as [|fuel IH]; intros ctx Hs;
    cbn [processCompleteLinesN]; [split; [reflexivity|exact Hs]|].
  unfold readNextLine. cbn [LineBuffer swap].
  destruct (ReadBytes LF (LineBuffer ctx)) as [[line rest]|];
    [|split; [reflexivity|exact Hs]].
  change (setLineBuffer (swap ctx) rest) with (swap (setLineBuffer ctx rest)).
  set (ctx1 := setLineBuffer ctx rest).
  assert (Hs1 : screened ctx1) by exact Hs.
  destruct (validateAndWrite_swap line ctx1 Hs1) as [E S]. rewrite E.
  destruct (validateAndWrite Write line ctx1) as [[e|] ctx2];
    unfold swapped at 1; cbn [fst snd] in *; [split; [reflexivity|exact S]|].
  now apply IH.
Qed.

Lemma processNextChunk_swap r (ctx : Cx) :
  screened ctx ->
  processNextChunk Write r (swap ctx) = swapped (processNextChunk Write r ctx)
  /\ screened (snd (processNextChunk Write r ctx)).
Proof.
  intros Hs. unfold processNextChunk, processCompleteLines.
  destruct (0 <? len (rd_data r)); [|split; [reflexivity|exact Hs]].
  cbn [LineBuffer swap].
  change (setLineBuffer (swap ctx) (LineBuffer ctx +:+ rd_data r))
    with (swap (setLineBuffer ctx (LineBuffer ctx +:+ rd_data r))).
  set (ctx1 := setLineBuffer ctx (LineBuffer ctx +:+ rd_data r)).
  change (LineBuffer (swap ctx1)) with (LineBuffer ctx1).
  assert (Hs1 : screened ctx1) by exact Hs.
  destruct (processCompleteLinesN_swap (S (String.length (LineBuffer ctx1))) ctx1 Hs1)
    as [E S].
  rewrite E.
  destruct (processCompleteLinesN Write _ ctx1) as [[e|] ctx2];
    (split; [reflexivity|exact S]).
Qed.

Lemma processRemainingContent_swap (ctx : Cx) :
  screened ctx ->
  processRemainingContent Write (swap ctx)
  = swapped (processRemainingContent Write ctx)
  /\ screened (snd (processRemainingContent Write ctx)).
Proof.
  intros Hs. unfold processRemainingContent. cbn [LineBuffer swap].
  destruct (0 <? len (LineBuffer ctx)); [|split; [reflexivity|exact Hs]].
  now apply validateAndWrite_swap.
Qed.

Lemma processSourceData_swap src (ctx : Cx) :
  screened ctx ->
  processSourceData Write src (swap ctx) = swapped (processSourceData Write src ctx).
Proof.
  revert ctx. induction src as [|r src IH]; intros ctx Hs; cbn [processSourceData].
  - now apply processRemainingContent_swap.
  - destruct (processNextChunk_swap r ctx Hs) as [E S]. rewrite E.
    destruct (processNextChunk Write r ctx) as [[readErr|] ctx1];
      unfold swapped at 1; cbn [fst snd] in *.
    + destruct (is_sentinel readErr EOF); [|reflexivity].
      now apply processRemainingContent_swap.
    + now apply IH.
Qed.

End Screening.

(** The validator is never asked about line 1: two validators that differ
    only in what they say about line 1 give the same copy, so whatever the
    first line of the source holds is written as the header without being
    screened. *)
Theorem first_line_is_not_screened {W V : Type}
        (Write : string -> W -> (Z * option error) * W)
        (validate validate' : @BufferValidationFunc V)
        (env : Env) (dst : W) (src : Source) (bufferSize maxSize : Z) (v : V) :
  (forall data line columns st,
     line <> 1 -> validate data line columns st = validate' data line columns st) ->
  CopyWithMaxSizeImpl Write env dst src bufferSize maxSize (Some validate) v
  = CopyWithMaxSizeImpl Write env dst src bufferSize maxSize (Some validate') v.
Proof.
  intros Hagree. unfold CopyWithMaxSizeImpl.
  set (ctx := {| Destination := dst; Validator := Some validate |}).
  change {| Destination := dst; Validator := Some validate' |}
    with (swap validate' ctx).
  rewrite (processSourceData_swap Write validate validate' Hagree src ctx)
    by (split; reflexivity).
  destruct (processSourceData Write src ctx) as [err ctx1]. reflexivity.
Qed.

(** A validator that flags the rows holding [=]; the lenient one lets
    line 1 pass. *)
Definition flagFormula (lenient : bool) : @BufferValidationFunc unit :=
  fun data line _ st =>
    if (negb lenient || negb (line =? 1)) && Contains data "="
    then ((false,
           Some {| Pattern := "formula"; Line := line;
                   Column := EmptyString; Value := data |}, None), st)
    else ((true, None, None), st).

Lemma first_line_witness :
  CopyWithMaxSizeImpl bufferWrite Samples.emptyEnv EmptyString
    (readerOf 4 ("=1+1" +:+ String LF "2,3")) 4 100 (Some (flagFormula false)) tt
  = CopyWithMaxSizeImpl bufferWrite Samples.emptyEnv EmptyString
      (readerOf 4 ("=1+1" +:+ String LF "2,3")) 4 100 (Some (flagFormula true)) tt.
Proof.
  refine (first_line_is_not_screened bufferWrite (flagFormula false) (flagFormula true)
            Samples.emptyEnv EmptyString
            (readerOf 4 ("=1+1" +:+ String LF "2,3")) 4 100 tt _).
  intros data line columns st Hl. unfold flagFormula.
  apply Z.eqb_neq in Hl. rewrite Hl. reflexivity.
Defined.

End HeaderLine.
